(** * Content extraction and citation synthesis: a shallow embedding

    The development embeds [content_extractor.py], [citation_manager.py]
    and the scraping functions of [tools.py], and states their properties.

    Conventions of the embedding.
    - A Python [str] is a [string]; a character is a code point in
      U+0000..U+00FF ([ascii]), and the character tables below ([\w], [\s],
      [str.lower], [str.isspace]) are those of CPython on that range.
    - A Python [int] is a [Z]; [len] returns a [Z].
    - A raised exception is a value [Raise e]; [try ... except Exception]
      is a match on it.
    - A [dict] is an association list in insertion order: Python dicts
      iterate in insertion order and assignment to an existing key keeps
      its position.
    - Network, HTML parsing, [dateutil] and the clock are fields of an
      explicit [World]; [print] and [time.sleep] have no effect on any
      returned value and are left out. *)

From Stdlib Require Import ZArith Lia Bool List Arith.
From Stdlib Require Import Strings.Ascii Strings.String.
From Stdlib Require Import Numbers.DecimalString Numbers.DecimalNat.
From Stdlib Require Import Floats.PrimFloat Numbers.Cyclic.Int63.Uint63.
Import ListNotations.

Open Scope string_scope.
Open Scope Z_scope.

(** ** Python built-ins *)

Module Py.

(** An exception: its class and what [str(e)] gives. *)
Record exception : Type := {
  exc_class : string;
  exc_str : string
}.

Definition ValueError (msg : string) : exception :=
  {| exc_class := "ValueError"; exc_str := msg |}.

(** The outcome of a call: a value or a raised exception. *)
Inductive result (A : Type) : Type :=
| Ok (a : A)
| Raise (e : exception).
Arguments Ok {A} a.
Arguments Raise {A} e.

Definition bind {A B : Type} (r : result A) (f : A -> result B) : result B :=
  match r with
  | Ok a => f a
  | Raise e => Raise e
  end.

Notation "x <- c ;; k" := (bind c (fun x => k))
  (at level 61, c at next level, right associativity).

(** [len(s)] *)
Definition len (s : string) : Z := Z.of_nat (String.length s).

Fixpoint take (n : nat) (s : string) : string :=
  match n, s with
  | S n', String a s' => String a (take n' s')
  | _, _ => ""
  end.

Fixpoint drop (n : nat) (s : string) : string :=
  match n, s with
  | S n', String _ s' => drop n' s'
  | _, _ => s
  end.

(** [s[:n]]: a negative bound counts from the end. *)
Definition slice_to (s : string) (n : Z) : string :=
  if n <? 0 then take (Z.to_nat (len s + n)) s else take (Z.to_nat n) s.

(** [s[n:]] for [n >= 0]. *)
Definition slice_from (s : string) (n : Z) : string := drop (Z.to_nat n) s.

Definition is_empty (s : string) : bool :=
  match s with "" => true | _ => false end.

Fixpoint contains_char (c : ascii) (s : string) : bool :=
  match s with
  | "" => false
  | String a s' => Ascii.eqb a c || contains_char c s'
  end.

Fixpoint find_from (i : Z) (s : string) (c : ascii) : Z :=
  match s with
  | "" => -1
  | String a s' => if Ascii.eqb a c then i else find_from (i + 1) s' c
  end.

(** [s.find(c)] for a one-character [c] *)
Definition find (s : string) (c : ascii) : Z := find_from 0 s c.

Fixpoint rfind_from (i : Z) (s : string) (c : ascii) (last : Z) : Z :=
  match s with
  | "" => last
  | String a s' => rfind_from (i + 1) s' c (if Ascii.eqb a c then i else last)
  end.

(** [s.rfind(c)] for a one-character [c]: the last index, or [-1]. *)
Definition rfind (s : string) (c : ascii) : Z := rfind_from 0 s c (-1).

Fixpoint startswith (s p : string) {struct p} : bool :=
  match p, s with
  | "", _ => true
  | String b p', String a s' => Ascii.eqb a b && startswith s' p'
  | _, _ => false
  end.

Fixpoint rev_string (s : string) : string :=
  match s with
  | "" => ""
  | String a s' => rev_string s' ++ String a ""
  end.

Definition endswith (s p : string) : bool :=
  startswith (rev_string s) (rev_string p).

(** [s.replace(old, new)] for a non-empty [old]: leftmost occurrences,
    not overlapping.  [skip] counts the characters of an occurrence still
    to be dropped. *)
Fixpoint replace_go (old new : string) (skip : nat) (s : string) : string :=
  match s with
  | "" => ""
  | String a s' =>
      match skip with
      | S k => replace_go old new k s'
      | O =>
          if startswith s old
          then new ++ replace_go old new (Nat.pred (String.length old)) s'
          else String a (replace_go old new O s')
      end
  end.

Definition replace (s old new : string) : string := replace_go old new O s.

(** [sep.join(parts)] *)
Fixpoint join (sep : string) (parts : list string) : string :=
  match parts with
  | [] => ""
  | [p] => p
  | p :: rest => p ++ sep ++ join sep rest
  end.

(** [l.append(x)] *)
Definition list_append {A : Type} (l : list A) (x : A) : list A := (l ++ [x])%list.

Definition code (a : ascii) : nat := nat_of_ascii a.

Definition in_range (lo hi : nat) (a : ascii) : bool :=
  (lo <=? code a)%nat && (code a <=? hi)%nat.

(** [str.isspace] on one character; also the class [\s]. *)
Definition isspace (a : ascii) : bool :=
  in_range 9 13 a || in_range 28 32 a || (code a =? 133)%nat || (code a =? 160)%nat.

Definition isdigit_ascii (a : ascii) : bool := in_range 48 57 a.
Definition isupper_ascii (a : ascii) : bool := in_range 65 90 a.
Definition islower_ascii (a : ascii) : bool := in_range 97 122 a.

(** The class [\w] of a [str] pattern: alphanumeric code points and [_]. *)
Definition isword (a : ascii) : bool :=
  isdigit_ascii a || isupper_ascii a || (code a =? 95)%nat || islower_ascii a
  || (code a =? 170)%nat || in_range 178 179 a || (code a =? 181)%nat
  || in_range 185 186 a || in_range 188 190 a
  || in_range 192 214 a || in_range 216 246 a || in_range 248 255 a.

Definition lower_char (a : ascii) : ascii :=
  if isupper_ascii a || in_range 192 214 a || in_range 216 222 a
  then ascii_of_nat (code a + 32)
  else a.

(** [s.lower()] *)
Fixpoint lower (s : string) : string :=
  match s with
  | "" => ""
  | String a s' => String (lower_char a) (lower s')
  end.

Fixpoint lstrip (s : string) : string :=
  match s with
  | String a s' => if isspace a then lstrip s' else s
  | "" => ""
  end.

(** [s.strip()] *)
Definition strip (s : string) : string :=
  rev_string (lstrip (rev_string (lstrip s))).

(** [s.split()]: the maximal runs of non-whitespace characters.  [cur] is
    the run being read, reversed. *)
Fixpoint split_ws_go (cur : string) (s : string) : list string :=
  match s with
  | "" => if is_empty cur then [] else [rev_string cur]
  | String a s' =>
      if isspace a
      then if is_empty cur then split_ws_go "" s'
           else rev_string cur :: split_ws_go "" s'
      else split_ws_go (String a cur) s'
  end.

Definition split_ws (s : string) : list string := split_ws_go "" s.

(** [s.split(sep)] for a non-empty [sep]. *)
Fixpoint split_on_go (sep : string) (skip : nat) (cur : string) (s : string)
  : list string :=
  match s with
  | "" => [rev_string cur]
  | String a s' =>
      match skip with
      | S k => split_on_go sep k cur s'
      | O =>
          if startswith s sep
          then rev_string cur :: split_on_go sep (Nat.pred (String.length sep)) "" s'
          else split_on_go sep O (String a cur) s'
      end
  end.

Definition split_on (s sep : string) : list string := split_on_go sep O "" s.

(** [str(n)] for a non-negative integer. *)
Definition str_of_nat (n : nat) : string :=
  NilEmpty.string_of_uint (Nat.to_uint n).

(** ** Dictionaries *)

Definition dict (V : Type) : Type := list (string * V).

Fixpoint dict_get {V : Type} (d : dict V) (k : string) : option V :=
  match d with
  | [] => None
  | (k', v) :: d' => if String.eqb k' k then Some v else dict_get d' k
  end.

(** [k in d] *)
Definition dict_mem {V : Type} (d : dict V) (k : string) : bool :=
  match dict_get d k with Some _ => true | None => false end.

(** [d[k] = v]: an existing key keeps its place, a new one goes last. *)
Fixpoint dict_set {V : Type} (d : dict V) (k : string) (v : V) : dict V :=
  match d with
  | [] => [(k, v)]
  | (k', v') :: d' =>
      if String.eqb k' k then (k', v) :: d' else (k', v') :: dict_set d' k v
  end.

Definition keys {V : Type} (d : dict V) : list string := map fst d.
Definition values {V : Type} (d : dict V) : list V := map snd d.

End Py.

Import Py.

(** ** Regular expressions: the backtracking matcher of [re] *)

Module Re.

(** The fragment of the pattern language the program uses.  Groups only
    delimit, so they are not represented: every capture the program reads
    spans the whole match. *)
Inductive regex : Type :=
| Class (p : ascii -> bool)
| Empty
| Seq (r1 r2 : regex)
| Alt (r1 r2 : regex)
| Star (r : regex)
| Boundary.

Definition Plus (r : regex) : regex := Seq r (Star r).

Definition Chr (c : ascii) : regex := Class (Ascii.eqb c).

Fixpoint Lit (s : string) : regex :=
  match s with
  | "" => Empty
  | String a s' => Seq (Chr a) (Lit s')
  end.

Fixpoint AnyOf (rs : list regex) : regex :=
  match rs with
  | [] => Class (fun _ => false)
  | [r] => r
  | r :: rs' => Alt r (AnyOf rs')
  end.

Definition word_before (prev : option ascii) : bool :=
  match prev with Some a => isword a | None => false end.

Definition word_after (s : string) : bool :=
  match s with String a _ => isword a | "" => false end.

(** [\b] holds where exactly one neighbour is a word character. *)
Definition at_boundary (prev : option ascii) (s : string) : bool :=
  xorb (word_before prev) (word_after s).

(** [run r prev s k] matches [r] at the front of [s], [prev] being the
    character before it, and hands what is left to the continuation [k];
    a failing continuation makes the matcher backtrack.  Alternatives are
    tried left to right and a star is greedy.  An iteration of a star must
    consume a character, as every starred expression of the program's
    patterns does, so the length of [s] bounds the iterations. *)
Fixpoint run {A : Type} (r : regex) (prev : option ascii) (s : string)
  (k : option ascii -> string -> option A) : option A :=
  match r with
  | Class p =>
      match s with
      | String a s' => if p a then k (Some a) s' else None
      | "" => None
      end
  | Empty => k prev s
  | Seq r1 r2 => run r1 prev s (fun prev' s' => run r2 prev' s' k)
  | Alt r1 r2 =>
      match run r1 prev s k with
      | Some x => Some x
      | None => run r2 prev s k
      end
  | Star r1 =>
      (fix loop (fuel : nat) (prev : option ascii) (s : string) : option A :=
         match fuel with
         | O => k prev s
         | S fuel' =>
             match run r1 prev s
                     (fun prev' s' =>
                        if (String.length s' <? String.length s)%nat
                        then loop fuel' prev' s'
                        else None) with
             | Some x => Some x
             | None => k prev s
             end
         end) (String.length s) prev s
  | Boundary => if at_boundary prev s then k prev s else None
  end.

(** A match of [r] at the front of [s]: what is left of [s] after it. *)
Definition match_at (r : regex) (prev : option ascii) (s : string) : option string :=
  run r prev s (fun _ s' => Some s').

Definition matched_text (s rest : string) : string :=
  take (String.length s - String.length rest) s.

Fixpoint search_go (r : regex) (prev : option ascii) (s : string) : option string :=
  match match_at r prev s with
  | Some rest => Some (matched_text s rest)
  | None =>
      match s with
      | "" => None
      | String a s' => search_go r (Some a) s'
      end
  end.

(** [re.search(r, s)]: the text of the leftmost match ([m.group()]). *)
Definition search (r : regex) (s : string) : option string := search_go r None s.

Fixpoint sub_go (r : regex) (repl : string) (skip : nat) (prev : option ascii)
  (s : string) : string :=
  match s with
  | "" =>
      match skip, match_at r prev "" with
      | O, Some _ => repl
      | _, _ => ""
      end
  | String a s' =>
      match skip with
      | S k => sub_go r repl k (Some a) s'
      | O =>
          match match_at r prev s with
          | Some rest =>
              match (String.length s - String.length rest)%nat with
              | O => repl ++ String a (sub_go r repl O (Some a) s')
              | S k => repl ++ sub_go r repl k (Some a) s'
              end
          | None => String a (sub_go r repl O (Some a) s')
          end
      end
  end.

(** [re.sub(r, repl, s)] for a [repl] without group references. *)
Definition sub (r : regex) (repl : string) (s : string) : string :=
  sub_go r repl O None s.

(** The pieces of [re.split(r, s)] for a pattern that matches no empty
    string (an empty match does not split).  [cur] is the piece being
    read, reversed. *)
Fixpoint split_go (r : regex) (skip : nat) (prev : option ascii) (cur : string)
  (s : string) : list string :=
  match s with
  | "" => [rev_string cur]
  | String a s' =>
      match skip with
      | S k => split_go r k (Some a) cur s'
      | O =>
          match match_at r prev s with
          | Some rest =>
              match (String.length s - String.length rest)%nat with
              | O => split_go r O (Some a) (String a cur) s'
              | S k => rev_string cur :: split_go r k (Some a) "" s'
              end
          | None => split_go r O (Some a) (String a cur) s'
          end
      end
  end.

Definition split (r : regex) (s : string) : list string := split_go r O None "" s.

Definition one_of (cs : string) (a : ascii) : bool := contains_char a cs.

(** [\w], [\s], [\d], [[A-Z]], [[a-z]] *)
Definition word : regex := Class isword.
Definition space : regex := Class isspace.
Definition digit : regex := Class isdigit_ascii.
Definition upper : regex := Class isupper_ascii.
Definition lower_ : regex := Class islower_ascii.

End Re.

(** ** [urllib.parse.urlparse(url).netloc] (CPython 3.11) *)

Module UrlParse.

(** The two checks of [urlsplit] that need the [ipaddress] and
    [unicodedata] modules: each answers [Some msg] when it raises
    [ValueError(msg)]. *)
Record Checks : Type := {
  check_bracketed_netloc : string -> option string;
  checknetloc_nfkc : string -> option string
}.

(** [_WHATWG_C0_CONTROL_OR_SPACE] *)
Definition c0_control_or_space (a : ascii) : bool := (code a <=? 32)%nat.

Fixpoint lstrip_c0 (s : string) : string :=
  match s with
  | String a s' => if c0_control_or_space a then lstrip_c0 s' else s
  | "" => ""
  end.

(** [_UNSAFE_URL_BYTES_TO_REMOVE]: tab, carriage return, line feed. *)
Definition unsafe_byte (a : ascii) : bool :=
  (code a =? 9)%nat || (code a =? 13)%nat || (code a =? 10)%nat.

Fixpoint remove_unsafe (s : string) : string :=
  match s with
  | "" => ""
  | String a s' => if unsafe_byte a then remove_unsafe s' else String a (remove_unsafe s')
  end.

Definition scheme_char (a : ascii) : bool :=
  islower_ascii a || isupper_ascii a || isdigit_ascii a || Re.one_of "+-." a.

Fixpoint all_chars (p : ascii -> bool) (s : string) : bool :=
  match s with
  | "" => true
  | String a s' => p a && all_chars p s'
  end.

Definition first_is_ascii_letter (s : string) : bool :=
  match s with
  | String a _ => isupper_ascii a || islower_ascii a
  | "" => false
  end.

(** The url once a leading [scheme:] is split off. *)
Definition after_scheme (url : string) : string :=
  let i := find url ":" in
  if (0 <? i) && first_is_ascii_letter url && all_chars scheme_char (slice_to url i)
  then slice_from url (i + 1)
  else url.

Fixpoint until_delim (s : string) : string :=
  match s with
  | "" => ""
  | String a s' => if Re.one_of "/?#" a then "" else String a (until_delim s')
  end.

(** The first component of [_splitnetloc(url, 2)]. *)
Definition splitnetloc (url : string) : string := until_delim (drop 2 url).

Definition isascii (s : string) : bool := all_chars (fun a => (code a <? 128)%nat) s.

Definition netloc (lib : Checks) (url : string) : result string :=
  let url := remove_unsafe (lstrip_c0 url) in
  let url := after_scheme url in
  netloc <-
    (if startswith url "//" then
       let netloc := splitnetloc url in
       let has_open := contains_char "[" netloc in
       let has_close := contains_char "]" netloc in
       if (has_open && negb has_close) || (has_close && negb has_open)
       then Raise (ValueError "Invalid IPv6 URL")
       else if has_open && has_close then
         match check_bracketed_netloc lib netloc with
         | Some msg => Raise (ValueError msg)
         | None => Ok netloc
         end
       else Ok netloc
     else Ok "") ;;
  if is_empty netloc || isascii netloc then Ok netloc
  else match checknetloc_nfkc lib netloc with
       | Some msg => Raise (ValueError msg)
       | None => Ok netloc
       end.

End UrlParse.

(** ** [content_extractor.py] *)

Module ContentExtractor.

(** The double quote, for selectors and citation templates. *)
Definition dq : string := String (ascii_of_nat 34) "".

(** The line feed. *)
Definition LF : ascii := ascii_of_nat 10.

(** *** What the program gets from outside *)

(** A parsed [newspaper.Article]; [article_publish_date] is the date
    already in ISO format. *)
Record Article : Type := {
  article_title : string;
  article_summary : string;
  article_text : string;
  article_authors : list string;
  article_publish_date : option string
}.

(** A [requests.Response] whose status was checked. *)
Record Response : Type := {
  response_text : string;
  response_content : string
}.

(** A [bs4] tag. *)
Record Element : Type := {
  elem_name : string;
  elem_attrs : dict string;
  elem_get_text : string
}.

(** A parsed [BeautifulSoup] document. *)
Record Soup : Type := {
  select_one : string -> option Element;
  soup_find : string -> option Element;
  soup_get_text : string
}.

Record World : Type := {
  url_checks : UrlParse.Checks;
  (** [Article(url)], [download()], [parse()] *)
  newspaper_article : string -> result Article;
  (** [session.get(url, timeout=10)] with [raise_for_status()], as called
      by the readability strategy and by the BeautifulSoup strategy *)
  session_get_readability : string -> result Response;
  session_get_beautifulsoup : string -> result Response;
  (** [Document(text)]: its [title()] and [summary()] *)
  readability_document : string -> result (string * string);
  (** [BeautifulSoup(markup, 'html.parser')] *)
  html_parser : string -> Soup;
  (** the soup once every tag of the given names is decomposed *)
  decompose_all : list string -> Soup -> Soup;
  (** [dateutil.parser.parse(s).isoformat()] *)
  dateutil_parse : string -> result string;
  (** [datetime.now().isoformat()] *)
  now_isoformat : string
}.

(** *** The documents *)

Record Metadata : Type := {
  author : string;
  publish_date : option string;
  domain : string;
  extraction_method : string;
  error : option string
}.

(** What a strategy returns. *)
Record Extracted : Type := {
  x_title : string;
  x_summary : string;
  x_content : string;
  x_metadata : Metadata
}.

Record SourceInfo : Type := {
  link : string;
  website : string;
  extraction_timestamp : string
}.

Record Document : Type := {
  url : string;
  title : string;
  summary : string;
  content : string;
  metadata : Metadata;
  source_info : SourceInfo
}.

(** [x or default] on strings *)
Definition or_else (x default : string) : string :=
  if is_empty x then default else x.

Definition urlparse_netloc (w : World) (url : string) : result string :=
  UrlParse.netloc (url_checks w) url.

(** *** [_generate_summary] *)

(** [[.!?]+] *)
Definition SENTENCE_END : Re.regex := Re.Plus (Re.Class (Re.one_of ".!?")).

(** The [for] loop of [_generate_summary]. *)
Fixpoint accumulate (sentences : list string) (summary_sentences : list string)
  (current_length : Z) (max_length : Z) : list string :=
  match sentences with
  | [] => summary_sentences
  | sentence :: rest =>
      let sentence := strip sentence in
      if negb (is_empty sentence) && (current_length + len sentence <? max_length)
      then accumulate rest (list_append summary_sentences sentence)
             (current_length + len sentence) max_length
      else summary_sentences
  end.

Definition _generate_summary (content : string) (max_length : Z) : string :=
  if is_empty content then ""
  else
    let sentences := Re.split SENTENCE_END content in
    let summary_sentences := accumulate sentences [] 0 max_length in
    let summary := join ". " summary_sentences in
    if negb (is_empty summary) && negb (endswith summary ".")
    then summary ++ "."
    else summary.

Definition SUMMARY_MAX_LENGTH : Z := 300.

(** *** [_clean_text] *)

Definition is_linebreak (a : ascii) : bool :=
  in_range 10 13 a || in_range 28 30 a || (code a =? 133)%nat.

(** [text.splitlines()]; [after_cr] tells that the last character was a
    carriage return, which a following line feed completes. *)
Fixpoint splitlines_go (cur : string) (after_cr : bool) (s : string) : list string :=
  match s with
  | "" => if is_empty cur then [] else [rev_string cur]
  | String a s' =>
      if after_cr && Ascii.eqb a LF then splitlines_go cur false s'
      else if is_linebreak a
      then rev_string cur :: splitlines_go "" (code a =? 13)%nat s'
      else splitlines_go (String a cur) false s'
  end.

Definition splitlines (s : string) : list string := splitlines_go "" false s.

Definition _clean_text (text : string) : string :=
  let lines := map strip (splitlines text) in
  let chunks := flat_map (fun line => map strip (split_on line "  ")) lines in
  let text := join " " (filter (fun chunk => negb (is_empty chunk)) chunks) in
  let text := Re.sub (Re.Plus Re.space) " " text in
  let text :=
    Re.sub (Re.Seq (Re.Chr LF) (Re.Seq (Re.Star Re.space) (Re.Chr LF)))
      (String LF "") text in
  strip text.

(** *** [_extract_metadata_from_html] *)

Definition attr (name value : string) : string :=
  "[" ++ name ++ "=" ++ dq ++ value ++ dq ++ "]".

Definition author_selectors : list string :=
  [ "meta" ++ attr "name" "author";
    "meta" ++ attr "property" "article:author";
    ".author";
    ".byline";
    attr "rel" "author" ].

Definition date_selectors : list string :=
  [ "meta" ++ attr "property" "article:published_time";
    "meta" ++ attr "name" "date";
    "meta" ++ attr "name" "pubdate";
    "time[datetime]";
    ".date";
    ".published" ].

(** The element of the first selector that selects one. *)
Fixpoint first_selected (soup : Soup) (selectors : list string) : option Element :=
  match selectors with
  | [] => None
  | selector :: rest =>
      match select_one soup selector with
      | Some elem => Some elem
      | None => first_selected soup rest
      end
  end.

(** [elem.get(name, default)] *)
Definition elem_get (elem : Element) (name default : string) : string :=
  match dict_get (elem_attrs elem) name with
  | Some v => v
  | None => default
  end.

Record HtmlMetadata : Type := {
  html_author : string;
  html_publish_date : option string;
  html_domain : string
}.

Definition _extract_metadata_from_html (w : World) (html_content : string)
  (url : string) : result HtmlMetadata :=
  let soup := html_parser w html_content in
  netloc <- urlparse_netloc w url ;;
    let author :=
      match first_selected soup author_selectors with
      | Some elem =>
          if String.eqb (elem_name elem) "meta"
          then elem_get elem "content" "Unknown"
          else strip (elem_get_text elem)
      | None => "Unknown"
      end in
    let publish_date :=
      match first_selected soup date_selectors with
      | Some elem =>
          let date_str :=
            if String.eqb (elem_name elem) "meta" then elem_get elem "content" ""
            else if String.eqb (elem_name elem) "time" then elem_get elem "datetime" ""
            else strip (elem_get_text elem) in
          if is_empty date_str then None
          else match dateutil_parse w date_str with
               | Ok iso => Some iso
               | Raise _ => Some date_str
               end
      | None => None
      end in
    Ok {| html_author := author;
          html_publish_date := publish_date;
          html_domain := netloc |}.

Definition with_method (m : HtmlMetadata) (method : string) : Metadata :=
  {| author := html_author m;
     publish_date := html_publish_date m;
     domain := html_domain m;
     extraction_method := method;
     error := None |}.

(** [try: body  except Exception: return None] *)
Definition or_none {A : Type} (body : result A) : option A :=
  match body with
  | Ok a => Some a
  | Raise _ => None
  end.

(** *** The three strategies *)

Definition _extract_with_newspaper (w : World) (url : string) : option Extracted :=
  or_none
    (article <- newspaper_article w url ;;
     netloc <- urlparse_netloc w url ;;
     Ok {| x_title := or_else (article_title article) "No title found";
           x_summary := article_summary article;
           x_content := article_text article;
           x_metadata :=
             {| author := match article_authors article with
                          | [] => "Unknown"
                          | authors => join ", " authors
                          end;
                publish_date := article_publish_date article;
                domain := netloc;
                extraction_method := "newspaper3k";
                error := None |} |}).

Definition _extract_with_readability (w : World) (url : string) : option Extracted :=
  or_none
    (response <- session_get_readability w url ;;
     doc <- readability_document w (response_text response) ;;
     let title := or_else (fst doc) "No title found" in
     let content := snd doc in
     let soup := html_parser w content in
     let clean_content := soup_get_text soup in
     metadata <- _extract_metadata_from_html w (response_text response) url ;;
     Ok {| x_title := title;
           x_summary := _generate_summary clean_content SUMMARY_MAX_LENGTH;
           x_content := clean_content;
           x_metadata := with_method metadata "readability-lxml" |}).

Definition content_selectors : list string :=
  [ "article"; "main"; ".content"; ".post-content";
    ".article-content"; ".entry-content"; "div" ++ attr "role" "main" ].

Definition _extract_with_beautifulsoup (w : World) (url : string) : result Extracted :=
  let body :=
    response <- session_get_beautifulsoup w url ;;
    let soup := html_parser w (response_content response) in
    let soup := decompose_all w ["script"; "style"] soup in
    let title :=
      match soup_find soup "title" with
      | Some title_tag => strip (elem_get_text title_tag)
      | None => "No title found"
      end in
    let content :=
      match first_selected soup content_selectors with
      | Some content_elem => elem_get_text content_elem
      | None => ""
      end in
    let content :=
      if is_empty content then
        match soup_find soup "body" with
        | Some body => elem_get_text body
        | None => soup_get_text soup
        end
      else content in
    let content := _clean_text content in
    metadata <- _extract_metadata_from_html w (response_text response) url ;;
    Ok {| x_title := title;
          x_summary := _generate_summary content SUMMARY_MAX_LENGTH;
          x_content := content;
          x_metadata := with_method metadata "beautifulsoup" |} in
  match body with
  | Ok r => Ok r
  | Raise e =>
      netloc <- urlparse_netloc w url ;;
      Ok {| x_title := "Extraction Failed";
            x_summary := "Could not extract content: " ++ exc_str e;
            x_content := "";
            x_metadata :=
              {| author := "Unknown";
                 publish_date := None;
                 domain := netloc;
                 extraction_method := "beautifulsoup_failed";
                 error := Some (exc_str e) |} |}
  end.

(** *** [_format_result] *)

(** [last_period > max_length * 0.8].  The product is a binary64 number and
    Python compares an [int] with a [float] exactly.  The test is reached
    only when [max_length < len(content)], and for [0 <= max_length < 2^51]
    the rounded product lies on the same side of every integer as the exact
    [4 * max_length / 5] (and equals it when that is an integer), so the
    comparison is the exact one.  A negative budget beyond the range of
    binary64 makes the product raise [OverflowError]; that case is left
    out, and what is stated below of truncation and of the method and the
    content of a document is stated for budgets that are not negative. *)
Definition exceeds_80_percent (last_period max_length : Z) : bool :=
  4 * max_length <? 5 * last_period.

(** The same test computed in binary64, for integers below [2^53] in
    absolute value, which convert exactly. *)
Definition float_of_int (z : Z) : float :=
  if z <? 0 then PrimFloat.opp (PrimFloat.of_uint63 (Uint63.of_Z (- z)))
  else PrimFloat.of_uint63 (Uint63.of_Z z).

(** The binary64 number that the literal [0.8] denotes. *)
Definition FLOAT_0_8 : float := 0x1.999999999999ap-1%float.

Definition exceeds_80_percent_binary64 (last_period max_length : Z) : bool :=
  PrimFloat.ltb (PrimFloat.mul (float_of_int max_length) FLOAT_0_8)
    (float_of_int last_period).

(** The truncation of [_format_result] (its first statement). *)
Definition truncate_content (content : string) (max_length : Z) : string :=
  if max_length <? len content then
    let content := slice_to content max_length in
    let last_period := rfind content "." in
    if exceeds_80_percent last_period max_length
    then slice_to content (last_period + 1)
    else content ++ "..."
  else content.

Definition _format_result (w : World) (result : Extracted) (url : string)
  (max_length : Z) : Py.result Document :=
  let content := truncate_content (x_content result) max_length in
  netloc <- urlparse_netloc w url ;;
  Ok {| url := url;
        title := x_title result;
        summary := x_summary result;
        content := content;
        metadata := x_metadata result;
        source_info :=
          {| link := url;
             website := netloc;
             extraction_timestamp := now_isoformat w |} |}.

(** *** [extract_content] and [extract_multiple_urls] *)

(** [r] when [r and r.get('content')] is true *)
Definition with_content (r : option Extracted) : option Extracted :=
  match r with
  | Some x => if is_empty (x_content x) then None else Some x
  | None => None
  end.

Definition extract_content (w : World) (url : string) (max_length : Z)
  : result Document :=
  let body :=
    match with_content (_extract_with_newspaper w url) with
    | Some newspaper_result => _format_result w newspaper_result url max_length
    | None =>
        match with_content (_extract_with_readability w url) with
        | Some readability_result =>
            _format_result w readability_result url max_length
        | None =>
            bs_result <- _extract_with_beautifulsoup w url ;;
            _format_result w bs_result url max_length
        end
    end in
  match body with
  | Ok doc => Ok doc
  | Raise e =>
      netloc <- urlparse_netloc w url ;;
      netloc' <- urlparse_netloc w url ;;
      Ok {| url := url;
            title := "Content Extraction Failed";
            summary := "Could not extract content: " ++ exc_str e;
            content := "";
            metadata :=
              {| author := "Unknown";
                 publish_date := None;
                 domain := netloc;
                 extraction_method := "failed";
                 error := Some (exc_str e) |};
            source_info :=
              {| link := url;
                 website := netloc';
                 extraction_timestamp := now_isoformat w |} |}
  end.

Definition DEFAULT_MAX_LENGTH : Z := 5000.
Definition DEFAULT_MAX_LENGTH_PER_URL : Z := 3000.

(** The loop of [extract_multiple_urls]; the [i]-th iteration runs in the
    world [world_at i], so that a url listed twice may be answered
    differently each time. *)
Fixpoint extract_loop (world_at : nat -> World) (i : nat) (urls : list string)
  (max_length_per_url : Z) (results : dict Document) : result (dict Document) :=
  match urls with
  | [] => Ok results
  | url :: rest =>
      doc <- extract_content (world_at i) url max_length_per_url ;;
      extract_loop world_at (S i) rest max_length_per_url (dict_set results url doc)
  end.

Definition extract_multiple_urls (world_at : nat -> World) (urls : list string)
  (max_length_per_url : Z) : result (dict Document) :=
  extract_loop world_at O urls max_length_per_url [].

End ContentExtractor.

(** ** [citation_manager.py] *)

Module CitationManager.

Definition dq : string := ContentExtractor.dq.

Inductive CitationStyle : Type := APA | MLA | CHICAGO | HARVARD | IEEE.

Definition style_value (style : CitationStyle) : string :=
  match style with
  | APA => "apa"
  | MLA => "mla"
  | CHICAGO => "chicago"
  | HARVARD => "harvard"
  | IEEE => "ieee"
  end.

Record SourceMetadata : Type := {
  url : string;
  title : string;
  author : string;
  publish_date : option string;
  domain : string;
  access_date : string;
  content_type : string
}.

Record Citation : Type := {
  source : SourceMetadata;
  quote : option string;
  page_number : option string;
  section : option string;
  confidence : float
}.

(** The manager object: [self.sources] and [self.citations]. *)
Record Manager : Type := {
  sources : dict SourceMetadata;
  citations : list Citation
}.

(** [CitationManager()] *)
Definition __init__ : Manager := {| sources := []; citations := [] |}.

(** What the manager gets from outside: the checks of [urlparse] and
    [datetime.now().strftime("%Y-%m-%d")]. *)
Record Env : Type := {
  url_checks : UrlParse.Checks;
  today : string
}.

Definition urlparse_netloc (env : Env) (url : string) : result string :=
  UrlParse.netloc (url_checks env) url.

(** [SourceMetadata(...)] with its [__post_init__]. *)
Definition new_SourceMetadata (env : Env) (url title author : string)
  (publish_date : option string) (domain access_date content_type : string)
  : SourceMetadata :=
  {| url := url;
     title := title;
     author := author;
     publish_date := publish_date;
     domain := domain;
     access_date := if is_empty access_date then today env else access_date;
     content_type := content_type |}.

(** *** [_generate_source_id] *)

(** [[^\w\s]] *)
Definition PUNCTUATION : Re.regex :=
  Re.Class (fun a => negb (isword a || isspace a)).

(** The identifier before any suffix. *)
Definition base_id (netloc title : string) : string :=
  let domain := replace netloc "www." "" in
  let title_words := firstn 3 (split_ws (Re.sub PUNCTUATION "" (lower title))) in
  domain ++ "_" ++ join "_" title_words.

(** [f"{original_id}_{counter}"] *)
Definition suffixed (original_id : string) (counter : nat) : string :=
  original_id ++ "_" ++ str_of_nat counter.

(** The [while] loop, from the state [(source_id, counter)].  It runs at
    most [len(self.sources) + 1] times ([while_loop_exits] below), which is
    the [fuel] it is given. *)
Fixpoint while_loop (sources : dict SourceMetadata) (original_id : string)
  (source_id : string) (counter : nat) (fuel : nat) : string :=
  match fuel with
  | O => source_id
  | S fuel' =>
      if dict_mem sources source_id
      then while_loop sources original_id (suffixed original_id counter)
             (S counter) fuel'
      else source_id
  end.

Definition first_free_id (sources : dict SourceMetadata) (original_id : string)
  : string :=
  while_loop sources original_id original_id 1 (S (List.length sources)).

Definition _generate_source_id (env : Env) (self : Manager) (url title : string)
  : result string :=
  netloc <- urlparse_netloc env url ;;
  Ok (first_free_id (sources self) (base_id netloc title)).

(** *** [add_source], [add_citation] *)

(** A method returns its outcome and the manager after the call. *)
Definition add_source (env : Env) (self : Manager) (url title author : string)
  (publish_date : option string) (content_type : string)
  : result string * Manager :=
  match urlparse_netloc env url with
  | Raise e => (Raise e, self)
  | Ok domain =>
      match _generate_source_id env self url title with
      | Raise e => (Raise e, self)
      | Ok source_id =>
          let metadata :=
            new_SourceMetadata env url title author publish_date domain
              (today env) content_type in
          (Ok source_id,
           {| sources := dict_set (sources self) source_id metadata;
              citations := citations self |})
      end
  end.

Definition add_citation (self : Manager) (source_id : string)
  (quote page_number section : option string) (confidence : float)
  : result Citation * Manager :=
  match dict_get (sources self) source_id with
  | None => (Raise (ValueError ("Source " ++ source_id ++ " not found")), self)
  | Some src =>
      let citation :=
        {| source := src;
           quote := quote;
           page_number := page_number;
           section := section;
           confidence := confidence |} in
      (Ok citation,
       {| sources := sources self;
          citations := list_append (citations self) citation |})
  end.

(** *** [_extract_year], [_clean_title] *)

(** [\b(19|20)\d{2}\b] *)
Definition YEAR : Re.regex :=
  Re.Seq Re.Boundary
    (Re.Seq (Re.Alt (Re.Lit "19") (Re.Lit "20"))
       (Re.Seq Re.digit (Re.Seq Re.digit Re.Boundary))).

Definition _extract_year (date_string : option string) : option string :=
  match date_string with
  | None => None
  | Some date_string =>
      if is_empty date_string then None else Re.search YEAR date_string
  end.

(** [\.\w+[-\w]*\s*] *)
Definition CLASS_TOKEN : Re.regex :=
  Re.Seq (Re.Chr ".")
    (Re.Seq (Re.Plus Re.word)
       (Re.Seq (Re.Star (Re.Class (fun a => Ascii.eqb a "-" || isword a)))
          (Re.Star Re.space))).

(** [[A-Z][a-z]+] *)
Definition CAPITALIZED : Re.regex := Re.Seq Re.upper (Re.Plus Re.lower_).

(** [\b[A-Z][a-z]+-[A-Z][a-z]+(?:\s+[A-Z][a-z]+)*\b] *)
Definition HYPHENATED : Re.regex :=
  Re.Seq Re.Boundary
    (Re.Seq CAPITALIZED
       (Re.Seq (Re.Chr "-")
          (Re.Seq CAPITALIZED
             (Re.Seq (Re.Star (Re.Seq (Re.Plus Re.space) CAPITALIZED))
                Re.Boundary)))).

(** [--[a-zA-Z-]+] *)
Definition DOUBLE_DASH : Re.regex :=
  Re.Seq (Re.Lit "--")
    (Re.Plus (Re.Class (fun a => islower_ascii a || isupper_ascii a || Ascii.eqb a "-"))).

Definition css_keywords : list string :=
  [ "Align"; "Display"; "Flex"; "Gap"; "Var"; "Font"; "Size"; "Weight";
    "Line"; "Height"; "Media"; "Min"; "Width"; "Show"; "Seperator"; "Block" ].

(** [\b(Align|Display|...|Block)\b] *)
Definition CSS_KEYWORD : Re.regex :=
  Re.Seq Re.Boundary (Re.Seq (Re.AnyOf (map Re.Lit css_keywords)) Re.Boundary).

(** [([A-Z][^.]*[.!?])] *)
Definition FRAGMENT : Re.regex :=
  Re.Seq Re.upper
    (Re.Seq (Re.Star (Re.Class (fun a => negb (Ascii.eqb a "."))))
       (Re.Class (Re.one_of ".!?"))).

(** The four removals, the whitespace collapse and the trim. *)
Definition remove_artifacts (title : string) : string :=
  let title := Re.sub CLASS_TOKEN "" title in
  let title := Re.sub HYPHENATED "" title in
  let title := Re.sub DOUBLE_DASH "" title in
  let title := Re.sub CSS_KEYWORD "" title in
  let title := Re.sub (Re.Plus Re.space) " " title in
  strip title.

Definition _clean_title (title : string) : string :=
  if is_empty title then title
  else
    let title := remove_artifacts title in
    if len title <? 10 then
      match Re.search FRAGMENT title with
      | Some group1 => group1
      | None => title
      end
    else title.

(** *** The five styles *)

Definition known_author (source : SourceMetadata) : bool :=
  negb (String.eqb (author source) "Unknown").

Definition _format_apa_citation (source : SourceMetadata) : string :=
  let clean_title := _clean_title (title source) in
  let citation_parts :=
    [ if known_author source then author source else clean_title ] in
  let citation_parts :=
    list_append citation_parts
      match _extract_year (publish_date source) with
      | Some year => "(" ++ year ++ ")"
      | None => "(n.d.)"
      end in
  let citation_parts :=
    list_append citation_parts
      (if known_author source then clean_title ++ "."
       else "Retrieved from " ++ url source) in
  let citation_parts :=
    if known_author source
    then list_append citation_parts
           ("Retrieved " ++ access_date source ++ " from " ++ url source)
    else citation_parts in
  join " " citation_parts.

Definition _format_mla_citation (source : SourceMetadata) : string :=
  let clean_title := _clean_title (title source) in
  let citation_parts := if known_author source then [author source] else [] in
  let citation_parts := list_append citation_parts (dq ++ clean_title ++ "." ++ dq) in
  let citation_parts := list_append citation_parts (domain source ++ ",") in
  let citation_parts :=
    match _extract_year (publish_date source) with
    | Some year => list_append citation_parts (year ++ ",")
    | None => citation_parts
    end in
  let citation_parts :=
    list_append citation_parts (access_date source ++ ", " ++ url source ++ ".") in
  join " " citation_parts.

Definition _format_chicago_citation (source : SourceMetadata) : string :=
  let clean_title := _clean_title (title source) in
  let citation_parts :=
    [ if known_author source then author source else domain source ] in
  let citation_parts := list_append citation_parts (dq ++ clean_title ++ "." ++ dq) in
  let citation_parts := list_append citation_parts (domain source ++ ".") in
  let citation_parts :=
    match _extract_year (publish_date source) with
    | Some year => list_append citation_parts ("Last modified " ++ year ++ ".")
    | None => citation_parts
    end in
  let citation_parts :=
    list_append citation_parts
      ("Accessed " ++ access_date source ++ ". " ++ url source ++ ".") in
  join " " citation_parts.

Definition _format_harvard_citation (source : SourceMetadata) : string :=
  let clean_title := _clean_title (title source) in
  let citation_parts :=
    [ if known_author source then author source else domain source ] in
  let citation_parts :=
    list_append citation_parts
      match _extract_year (publish_date source) with
      | Some year => year
      | None => "n.d."
      end in
  let citation_parts := list_append citation_parts (clean_title ++ ".") in
  let citation_parts :=
    list_append citation_parts
      ("Available at: " ++ url source ++ " (Accessed: " ++ access_date source ++ ")") in
  join " " citation_parts.

Definition _format_ieee_citation (source : SourceMetadata) : string :=
  let clean_title := _clean_title (title source) in
  let citation_parts :=
    [ if known_author source then author source else domain source ] in
  let citation_parts := list_append citation_parts (dq ++ clean_title ++ "," ++ dq) in
  let citation_parts := list_append citation_parts (domain source ++ ".") in
  let citation_parts :=
    match _extract_year (publish_date source) with
    | Some year => list_append citation_parts (year ++ ".")
    | None => citation_parts
    end in
  let citation_parts :=
    list_append citation_parts ("[Online]. Available: " ++ url source) in
  join " " citation_parts.

Definition not_found (source_id : string) : string :=
  "[Source not found: " ++ source_id ++ "]".

Definition format_citation (self : Manager) (source_id : string)
  (style : CitationStyle) : string :=
  match dict_get (sources self) source_id with
  | None => not_found source_id
  | Some source =>
      match style with
      | APA => _format_apa_citation source
      | MLA => _format_mla_citation source
      | CHICAGO => _format_chicago_citation source
      | HARVARD => _format_harvard_citation source
      | IEEE => _format_ieee_citation source
      end
  end.

(** What an f-string prints for an optional string. *)
Definition fmt (o : option string) : string :=
  match o with
  | Some s => s
  | None => "None"
  end.

Definition format_in_text_citation (self : Manager) (source_id : string)
  (style : CitationStyle) : string :=
  match dict_get (sources self) source_id with
  | None => not_found source_id
  | Some source =>
      match style with
      | APA =>
          if known_author source
          then "(" ++ author source ++ ", "
               ++ fmt (_extract_year (publish_date source)) ++ ")"
          else "(" ++ title source ++ ", "
               ++ fmt (_extract_year (publish_date source)) ++ ")"
      | MLA =>
          if known_author source
          then "(" ++ author source ++ ")"
          else "(" ++ title source ++ ")"
      | HARVARD =>
          if known_author source
          then "(" ++ author source ++ " "
               ++ fmt (_extract_year (publish_date source)) ++ ")"
          else "(" ++ title source ++ " "
               ++ fmt (_extract_year (publish_date source)) ++ ")"
      | _ => "(" ++ source_id ++ ")"
      end
  end.

Definition generate_reference_list (self : Manager) (style : CitationStyle)
  : list string :=
  map (fun item => format_citation self (fst item) style) (sources self).

(** *** [get_source_statistics] *)

(** [d[k] = d.get(k, 0) + 1] *)
Definition count_up (d : dict Z) (k : string) : dict Z :=
  dict_set d k (match dict_get d k with Some n => n | None => 0 end + 1).

Definition count_by {A : Type} (key : A -> string) (l : list A) : dict Z :=
  fold_left (fun d x => count_up d (key x)) l [].

(** The years counted are those of the sources that have one. *)
Definition count_years (l : list SourceMetadata) : dict Z :=
  fold_left
    (fun d source =>
       match _extract_year (publish_date source) with
       | Some year => if is_empty year then d else count_up d year
       | None => d
       end) l [].

(** The scan of [max(items, key=lambda x: x[1])]: a later item replaces
    the best one only when its count is strictly greater. *)
Fixpoint max_scan (best : string * Z) (items : list (string * Z)) : string * Z :=
  match items with
  | [] => best
  | x :: rest => max_scan (if snd best <? snd x then x else best) rest
  end.

(** [max(d.items(), key=lambda x: x[1])[0] if d else None] *)
Definition most_common (d : dict Z) : option string :=
  match d with
  | [] => None
  | x :: rest => Some (fst (max_scan x rest))
  end.

Record Statistics : Type := {
  total_sources : Z;
  total_citations : Z;
  domains : dict Z;
  authors : dict Z;
  years : dict Z;
  most_common_domain : option string;
  most_common_author : option string
}.

Definition get_source_statistics (self : Manager) : Statistics :=
  let domains := count_by domain (values (sources self)) in
  let authors := count_by author (values (sources self)) in
  let years := count_years (values (sources self)) in
  {| total_sources := Z.of_nat (List.length (sources self));
     total_citations := Z.of_nat (List.length (citations self));
     domains := domains;
     authors := authors;
     years := years;
     most_common_domain := most_common domains;
     most_common_author := most_common authors |}.

(** *** [generate_bibliography] *)

(** [s.upper()] for a string of ASCII characters. *)
Definition upper_char (a : ascii) : ascii :=
  if islower_ascii a then ascii_of_nat (code a - 32) else a.

Fixpoint upper (s : string) : string :=
  match s with
  | "" => ""
  | String a s' => String (upper_char a) (upper s')
  end.

(** The body of the loop over [enumerate(references, 1)], from index [i]. *)
Fixpoint numbered_lines (i : nat) (references : list string) : string :=
  match references with
  | [] => ""
  | ref :: rest =>
      str_of_nat i ++ ". " ++ ref ++ String ContentExtractor.LF ""
      ++ numbered_lines (S i) rest
  end.

Definition generate_bibliography (self : Manager) (style : CitationStyle) : string :=
  let references := generate_reference_list self style in
  match references with
  | [] => "No sources cited."
  | _ =>
      let bibliography :=
        "References (" ++ upper (style_value style) ++ " Style):"
        ++ String ContentExtractor.LF (String ContentExtractor.LF "") in
      bibliography ++ numbered_lines 1 references
  end.

(** *** The module-level functions *)

(** The [metadata] entry of a content dict: its [author] key, when present,
    and its [publish_date], absent or [None] alike. *)
Record ContentMetadata : Type := {
  cm_author : option string;
  cm_publish_date : option string
}.

(** A content dict, as [.get] reads it: each key may be missing. *)
Record ContentData : Type := {
  cd_url : option string;
  cd_title : option string;
  cd_metadata : option ContentMetadata
}.

(** [d.get(key, default)] *)
Definition get_or (value : option string) (default : string) : string :=
  match value with
  | Some v => v
  | None => default
  end.

(** [content_data.get('metadata', {}).get('author', 'Unknown')] *)
Definition content_author (content_data : ContentData) : string :=
  match cd_metadata content_data with
  | Some metadata => get_or (cm_author metadata) "Unknown"
  | None => "Unknown"
  end.

(** [content_data.get('metadata', {}).get('publish_date')] *)
Definition content_publish_date (content_data : ContentData) : option string :=
  match cd_metadata content_data with
  | Some metadata => cm_publish_date metadata
  | None => None
  end.

Definition create_citation_manager : Manager := __init__.

Definition format_citation_from_content (env : Env) (content_data : ContentData)
  (style : CitationStyle) : result string :=
  let manager := __init__ in
  match add_source env manager
          (get_or (cd_url content_data) "")
          (get_or (cd_title content_data) "Unknown Title")
          (content_author content_data)
          (content_publish_date content_data)
          "webpage" with
  | (Raise e, _) => Raise e
  | (Ok source_id, manager) => Ok (format_citation manager source_id style)
  end.

(** The loop of [generate_citations_for_sources] over the items of
    [extracted_content]. *)
Fixpoint add_sources (env : Env) (manager : Manager)
  (items : list (string * ContentData)) : result Manager :=
  match items with
  | [] => Ok manager
  | (url, content_data) :: rest =>
      match add_source env manager url
              (get_or (cd_title content_data) "Unknown Title")
              (content_author content_data)
              (content_publish_date content_data)
              "webpage" with
      | (Raise e, _) => Raise e
      | (Ok _, manager) => add_sources env manager rest
      end
  end.

Definition generate_citations_for_sources (env : Env)
  (extracted_content : dict ContentData) (style : CitationStyle)
  : result (list string) :=
  manager <- add_sources env __init__ extracted_content ;;
  Ok (generate_reference_list manager style).


End CitationManager.

(** ** [tools.py]: scraping *)

Module Tools.

Import ContentExtractor.

(** What the scraping functions get from outside. *)
Record World : Type := {
  (** [requests.get(url, headers=headers, timeout=10)] with
      [raise_for_status()] *)
  requests_get : string -> result Response;
  (** [BeautifulSoup(markup, 'html.parser')] *)
  html_parser : string -> Soup;
  (** the soup once every tag of the given names is decomposed *)
  decompose_all : list string -> Soup -> Soup
}.

(** The text of the page: the three statements that both scraping
    functions apply to [soup.get_text()]. *)
Definition page_text (text : string) : string :=
  let lines := map strip (splitlines text) in
  let chunks := flat_map (fun line => map strip (split_on line "  ")) lines in
  join " " (filter (fun chunk => negb (is_empty chunk)) chunks).

(** The [try] block of both functions up to the truncation. *)
Definition fetch_text (w : World) (url : string) : result string :=
  response <- requests_get w url ;;
  let soup := html_parser w (response_content response) in
  let soup := decompose_all w ["script"; "style"] soup in
  Ok (page_text (soup_get_text soup)).

Definition could_not_scrape (url : string) : string :=
  "Could not scrape content from " ++ url.


(** [max(a, b, c)] *)
Definition max3 (a b c : Z) : Z := Z.max (Z.max a b) c.

(** The truncation of [scrape_url_content_smart]. *)
Definition smart_truncate (text : string) (target_length : Z) : string :=
  if target_length <? len text then
    let truncated := slice_to text target_length in
    let last_period := rfind truncated "." in
    let last_exclamation := rfind truncated "!" in
    let last_question := rfind truncated "?" in
    let last_sentence_end := max3 last_period last_exclamation last_question in
    if exceeds_80_percent last_sentence_end target_length
    then slice_to text (last_sentence_end + 1)
    else slice_to text target_length ++ "..."
  else text.

Definition scrape_url_content_smart (w : World) (url : string)
  (target_length : Z) : string :=
  match fetch_text w url with
  | Ok text => smart_truncate text target_length
  | Raise _ => could_not_scrape url
  end.

(** The loop shared by [scrape_multiple_urls] and
    [scrape_multiple_urls_adaptive]; the [i]-th iteration runs in the world
    [world_at i]. *)
Fixpoint scrape_loop (world_at : nat -> World) (i : nat) (urls : list string)
  (per_url_length : Z) (scraped_content : dict string) : dict string :=
  match urls with
  | [] => scraped_content
  | url :: rest =>
      let content := scrape_url_content_smart (world_at i) url per_url_length in
      scrape_loop world_at (S i) rest per_url_length
        (dict_set scraped_content url content)
  end.

Definition scrape_multiple_urls (world_at : nat -> World) (urls : list string)
  (max_length_per_url : Z) : dict string :=
  scrape_loop world_at O urls max_length_per_url [].

Definition ZeroDivisionError : exception :=
  {| exc_class := "ZeroDivisionError";
     exc_str := "integer division or modulo by zero" |}.

(** [a // b] *)
Definition floordiv (a b : Z) : result Z :=
  if b =? 0 then Raise ZeroDivisionError else Ok (a / b).

(** The budget [scrape_multiple_urls_adaptive] gives each url. *)
Definition per_url_length (num_urls total_target_length : Z) : result Z :=
  if num_urls =? 1 then Ok (Z.min total_target_length 4000)
  else if num_urls =? 2 then
    q <- floordiv total_target_length 2 ;; Ok (Z.min q 3000)
  else if num_urls =? 3 then
    q <- floordiv total_target_length 3 ;; Ok (Z.min q 2500)
  else
    q <- floordiv total_target_length num_urls ;; Ok (Z.min q 2000).

Definition scrape_multiple_urls_adaptive (world_at : nat -> World)
  (urls : list string) (total_target_length : Z) : result (dict string) :=
  let num_urls := Z.of_nat (List.length urls) in
  per_url_length <- per_url_length num_urls total_target_length ;;
  Ok (scrape_loop world_at O urls per_url_length []).

End Tools.


(** * Properties *)

(** ** Strings *)

Module PyFacts.

Lemma length_append (s t : string) :
  String.length (s ++ t) = (String.length s + String.length t)%nat.
Proof. induction s as [|a s IH]; simpl; [reflexivity | now rewrite IH]. Qed.

Lemma append_empty_r (s : string) : s ++ "" = s.
Proof. induction s as [|a s IH]; simpl; [reflexivity | now rewrite IH]. Qed.

Lemma append_assoc (s t u : string) : (s ++ t) ++ u = s ++ t ++ u.
Proof. induction s as [|a s IH]; simpl; [reflexivity | now rewrite IH]. Qed.

Lemma append_inv_head (s t u : string) : s ++ t = s ++ u -> t = u.
Proof.
  induction s as [|a s IH]; simpl; intros H; [exact H|].
  injection H as H. now apply IH.
Qed.

Lemma length_take (n : nat) (s : string) :
  String.length (take n s) = Nat.min n (String.length s).
Proof.
  revert s; induction n as [|n IH]; intros [|a s]; simpl; try reflexivity.
  now rewrite IH.
Qed.

Lemma take_all (n : nat) (s : string) :
  (String.length s <= n)%nat -> take n s = s.
Proof.
  revert s; induction n as [|n IH]; intros [|a s]; simpl; intros H;
    try reflexivity; try lia.
  rewrite IH; [reflexivity | lia].
Qed.

Lemma take_take (n m : nat) (s : string) :
  take n (take m s) = take (Nat.min n m) s.
Proof.
  revert m s; induction n as [|n IH]; intros [|m] [|a s]; simpl; try reflexivity.
  now rewrite IH.
Qed.

Lemma take_append_exact (s t : string) : take (String.length s) (s ++ t) = s.
Proof. induction s as [|a s IH]; simpl; [now destruct t | now rewrite IH]. Qed.

Lemma take_drop (n : nat) (s : string) : take n s ++ drop n s = s.
Proof.
  revert s; induction n as [|n IH]; intros [|a s]; simpl; try reflexivity.
  now rewrite IH.
Qed.

Lemma len_nonneg (s : string) : 0 <= len s.
Proof. unfold len; lia. Qed.

Lemma len_append (s t : string) : len (s ++ t) = len s + len t.
Proof. unfold len; rewrite length_append; lia. Qed.

Lemma is_empty_true (s : string) : is_empty s = true <-> s = "".
Proof. destruct s; simpl; split; congruence. Qed.

Lemma is_empty_false (s : string) : is_empty s = false <-> s <> "".
Proof. destruct s; simpl; split; congruence. Qed.

Lemma rev_string_append (s t : string) :
  rev_string (s ++ t) = rev_string t ++ rev_string s.
Proof.
  induction s as [|a s IH]; simpl.
  - now rewrite append_empty_r.
  - now rewrite IH, append_assoc.
Qed.

Lemma rev_string_involutive (s : string) : rev_string (rev_string s) = s.
Proof.
  induction s as [|a s IH]; simpl; [reflexivity|].
  now rewrite rev_string_append, IH.
Qed.

Lemma length_rev_string (s : string) :
  String.length (rev_string s) = String.length s.
Proof.
  induction s as [|a s IH]; simpl; [reflexivity|].
  rewrite length_append, IH; simpl; lia.
Qed.

(** A string ends with its last character. *)
Lemma endswith_last (s : string) (c : ascii) :
  endswith (s ++ String c "") (String c "") = true.
Proof.
  unfold endswith. rewrite rev_string_append. simpl.
  now rewrite Ascii.eqb_refl.
Qed.

(** Where [rfind] finds the character, the string splits there. *)
Lemma rfind_from_split (c : ascii) (s : string) :
  forall i last, last < i ->
    rfind_from i s c last = last \/
    (i <= rfind_from i s c last /\
     exists pre post,
       s = pre ++ String c post /\
       len pre = rfind_from i s c last - i).
Proof.
  induction s as [|a s IH]; simpl; intros i last Hlt; [now left|].
  destruct (Ascii.eqb a c) eqn:E.
  - apply Ascii.eqb_eq in E; subst a. right.
    destruct (IH (i + 1) i ltac:(lia)) as [H | (Hle & pre & post & Hs & Hl)].
    + rewrite H. split; [lia|]. exists "", s. split; [reflexivity|].
      unfold len; simpl; lia.
    + split; [lia|]. exists (String c pre), post. split; [simpl; now rewrite <- Hs|].
      unfold len in *; simpl String.length; lia.
  - destruct (IH (i + 1) last ltac:(lia)) as [H | (Hle & pre & post & Hs & Hl)].
    + now left.
    + right. split; [lia|]. exists (String a pre), post.
      split; [simpl; now rewrite <- Hs|].
      unfold len in *; simpl String.length; lia.
Qed.

Lemma rfind_split (c : ascii) (s : string) :
  rfind s c = -1 \/
  (0 <= rfind s c /\
   exists pre post, s = pre ++ String c post /\ len pre = rfind s c).
Proof.
  unfold rfind.
  destruct (rfind_from_split c s 0 (-1) ltac:(lia)) as [H | (Hle & pre & post & Hs & Hl)].
  - now left.
  - right. split; [exact Hle|]. exists pre, post. split; [exact Hs | lia].
Qed.

Lemma rfind_lt_len (c : ascii) (s : string) : rfind s c < len s.
Proof.
  destruct (rfind_split c s) as [H | (Hle & pre & post & Hs & Hl)].
  - rewrite H. pose proof (len_nonneg s). lia.
  - rewrite <- Hl. rewrite Hs, len_append.
    unfold len; simpl String.length; lia.
Qed.

Lemma slice_to_nonneg (s : string) (n : Z) :
  0 <= n -> slice_to s n = take (Z.to_nat n) s.
Proof. intros H. unfold slice_to. destruct (n <? 0) eqn:E; [lia | reflexivity]. Qed.

Lemma len_slice_to (s : string) (n : Z) : 0 <= n -> len (slice_to s n) <= n.
Proof.
  intros H. rewrite slice_to_nonneg by exact H.
  unfold len. rewrite length_take. lia.
Qed.

End PyFacts.

(** ** Dictionaries *)

Module DictFacts.

Section Dict.

Context {V : Type}.

Implicit Types (d : dict V) (k : string) (v : V).

Lemma dict_mem_get d k : dict_mem d k = true <-> exists v, dict_get d k = Some v.
Proof.
  unfold dict_mem. destruct (dict_get d k) as [v|]; split.
  - intros _. now exists v.
  - reflexivity.
  - discriminate.
  - intros [v H]. discriminate H.
Qed.

Lemma dict_mem_in_keys d k : dict_mem d k = true <-> In k (keys d).
Proof.
  unfold dict_mem, keys.
  induction d as [|[k' v'] d IH]; simpl.
  - split; [discriminate | tauto].
  - destruct (String.eqb_spec k' k) as [->|Hne].
    + split; [now left | reflexivity].
    + rewrite IH. split; [now right | intros [H|H]; [contradiction | exact H]].
Qed.

Lemma dict_not_mem_in_keys d k : dict_mem d k = false <-> ~ In k (keys d).
Proof.
  rewrite <- dict_mem_in_keys. destruct (dict_mem d k); split; congruence.
Qed.

Lemma dict_get_set_same d k v : dict_get (dict_set d k v) k = Some v.
Proof.
  induction d as [|[k' v'] d IH]; simpl.
  - now rewrite String.eqb_refl.
  - destruct (String.eqb_spec k' k) as [->|Hne]; simpl.
    + now rewrite String.eqb_refl.
    + destruct (String.eqb_spec k' k); [contradiction | exact IH].
Qed.

Lemma dict_get_set_other d k k' v :
  k <> k' -> dict_get (dict_set d k v) k' = dict_get d k'.
Proof.
  intros Hne. induction d as [|[k0 v0] d IH]; simpl.
  - destruct (String.eqb_spec k k'); [contradiction | reflexivity].
  - destruct (String.eqb_spec k0 k) as [->|Hne0]; simpl.
    + destruct (String.eqb_spec k k'); [contradiction | reflexivity].
    + now rewrite IH.
Qed.

Lemma keys_set_present d k v :
  dict_mem d k = true -> keys (dict_set d k v) = keys d.
Proof.
  unfold dict_mem, keys. induction d as [|[k' v'] d IH]; simpl; [discriminate|].
  destruct (String.eqb_spec k' k) as [->|Hne]; simpl; [reflexivity|].
  intros H. now rewrite IH.
Qed.

Lemma keys_set_absent d k v :
  dict_mem d k = false -> keys (dict_set d k v) = (keys d ++ [k])%list.
Proof.
  unfold dict_mem, keys. induction d as [|[k' v'] d IH]; simpl; [reflexivity|].
  destruct (String.eqb_spec k' k) as [->|Hne]; simpl; [discriminate|].
  intros H. now rewrite IH.
Qed.

Lemma length_set_absent d k v :
  dict_mem d k = false -> List.length (dict_set d k v) = S (List.length d).
Proof.
  intros H. pose proof (keys_set_absent d k v H) as Hk.
  apply (f_equal (@List.length string)) in Hk.
  unfold keys in Hk. rewrite length_app, !length_map in Hk. simpl in Hk. lia.
Qed.

Lemma nodup_keys_set d k v : NoDup (keys d) -> NoDup (keys (dict_set d k v)).
Proof.
  intros H. destruct (dict_mem d k) eqn:E.
  - now rewrite keys_set_present.
  - rewrite keys_set_absent by exact E.
    apply NoDup_app; [exact H | repeat constructor; tauto |].
    intros x Hx [<-|[]]. now apply dict_not_mem_in_keys in E.
Qed.

End Dict.

(** The elements of a list in the order of their first occurrence. *)
Definition seen (l : list string) (x : string) : bool := existsb (String.eqb x) l.

Definition first_seen_from (acc l : list string) : list string :=
  fold_left (fun acc x => if seen acc x then acc else (acc ++ [x])%list) l acc.

Definition first_seen (l : list string) : list string := first_seen_from [] l.

Lemma seen_in (l : list string) (x : string) : seen l x = true <-> In x l.
Proof.
  unfold seen. rewrite existsb_exists. split.
  - intros (y & Hy & E). apply String.eqb_eq in E. now subst.
  - intros H. exists x. split; [exact H | apply String.eqb_refl].
Qed.

Lemma seen_mem {V : Type} (d : dict V) (x : string) : seen (keys d) x = dict_mem d x.
Proof.
  destruct (dict_mem d x) eqn:E.
  - apply seen_in. now apply dict_mem_in_keys.
  - destruct (seen (keys d) x) eqn:E'; [|reflexivity].
    apply seen_in, dict_mem_in_keys in E'. congruence.
Qed.

Lemma first_seen_from_in (l acc : list string) (x : string) :
  In x (first_seen_from acc l) <-> In x acc \/ In x l.
Proof.
  unfold first_seen_from. revert acc.
  induction l as [|y l IH]; intros acc; simpl; [tauto|].
  rewrite IH. destruct (seen acc y) eqn:E.
  - apply seen_in in E. split; [tauto|]. intros [H|[<-|H]]; tauto.
  - rewrite in_app_iff. simpl. tauto.
Qed.

Lemma first_seen_in (l : list string) (x : string) : In x (first_seen l) <-> In x l.
Proof. unfold first_seen. rewrite first_seen_from_in. simpl. tauto. Qed.

End DictFacts.


(** ** Regular expressions *)

Module ReFacts.

Import PyFacts Re.

(** [matches r prev s prev' s']: [r] matches a prefix of [s], the character
    before it being [prev], and leaves [s'], the character before which is
    [prev']. *)
Inductive matches : regex -> option ascii -> string -> option ascii -> string -> Prop :=
| matches_class p a s prev :
    p a = true -> matches (Class p) prev (String a s) (Some a) s
| matches_empty prev s : matches Empty prev s prev s
| matches_seq r1 r2 prev s prev1 s1 prev2 s2 :
    matches r1 prev s prev1 s1 -> matches r2 prev1 s1 prev2 s2 ->
    matches (Seq r1 r2) prev s prev2 s2
| matches_alt_l r1 r2 prev s prev' s' :
    matches r1 prev s prev' s' -> matches (Alt r1 r2) prev s prev' s'
| matches_alt_r r1 r2 prev s prev' s' :
    matches r2 prev s prev' s' -> matches (Alt r1 r2) prev s prev' s'
| matches_star_stop r prev s : matches (Star r) prev s prev s
| matches_star_step r prev s prev1 s1 prev2 s2 :
    matches r prev s prev1 s1 -> matches (Star r) prev1 s1 prev2 s2 ->
    matches (Star r) prev s prev2 s2
| matches_boundary prev s :
    at_boundary prev s = true -> matches Boundary prev s prev s.

(** What the matcher finds is a match. *)
Lemma run_sound {A : Type} (r : regex) :
  forall prev s (k : option ascii -> string -> option A) x,
    run r prev s k = Some x ->
    exists prev' s', matches r prev s prev' s' /\ k prev' s' = Some x.
Proof.
  induction r as [p| |r1 IH1 r2 IH2|r1 IH1 r2 IH2|r1 IH1|]; intros prev s k x H.
  - simpl in H. destruct s as [|a s]; [discriminate|].
    destruct (p a) eqn:E; [|discriminate].
    exists (Some a), s. split; [now constructor | exact H].
  - exists prev, s. split; [constructor | exact H].
  - simpl in H. apply IH1 in H. destruct H as (prev1 & s1 & Hm1 & H).
    apply IH2 in H. destruct H as (prev2 & s2 & Hm2 & H).
    exists prev2, s2. split; [econstructor; eassumption | exact H].
  - simpl in H. destruct (run r1 prev s k) as [y|] eqn:E.
    + apply IH1 in E. destruct E as (prev' & s' & Hm & Hk).
      exists prev', s'. split; [now apply matches_alt_l | congruence].
    + apply IH2 in H. destruct H as (prev' & s' & Hm & Hk).
      exists prev', s'. split; [now apply matches_alt_r | exact Hk].
  - cbn [run] in H. revert H. generalize (String.length s) at 1 as fuel.
    intros fuel. revert prev s.
    induction fuel as [|fuel IHf]; intros prev s H.
    + exists prev, s. split; [constructor | exact H].
    + match type of H with
      | match ?scrutinee with _ => _ end = _ => destruct scrutinee as [y|] eqn:E
      end.
      * apply IH1 in E. destruct E as (prev1 & s1 & Hm1 & Hk).
        destruct (String.length s1 <? String.length s)%nat; [|discriminate].
        injection H as <-.
        apply IHf in Hk. destruct Hk as (prev2 & s2 & Hm2 & Hk).
        exists prev2, s2. split; [econstructor; eassumption | exact Hk].
      * exists prev, s. split; [constructor | exact H].
  - simpl in H. destruct (at_boundary prev s) eqn:E; [|discriminate].
    exists prev, s. split; [now constructor | exact H].
Qed.

Lemma match_at_sound (r : regex) (prev : option ascii) (s rest : string) :
  match_at r prev s = Some rest -> exists prev', matches r prev s prev' rest.
Proof.
  unfold match_at. intros H. apply run_sound in H.
  destruct H as (prev' & s' & Hm & [= <-]). now exists prev'.
Qed.

(** A match consumes a prefix. *)
Lemma matches_prefix r prev s prev' s' :
  matches r prev s prev' s' -> exists m, s = m ++ s'.
Proof.
  induction 1 as [p a s prev Hp | prev s
                 | r1 r2 prev s prev1 s1 prev2 s2 _ IH1 _ IH2
                 | r1 r2 prev s prev' s' _ IH | r1 r2 prev s prev' s' _ IH
                 | r prev s
                 | r prev s prev1 s1 prev2 s2 _ IH1 _ IH2
                 | prev s Hb].
  - now exists (String a "").
  - now exists "".
  - destruct IH1 as [m1 ->], IH2 as [m2 ->].
    exists (m1 ++ m2). now rewrite append_assoc.
  - exact IH.
  - exact IH.
  - now exists "".
  - destruct IH1 as [m1 ->], IH2 as [m2 ->].
    exists (m1 ++ m2). now rewrite append_assoc.
  - now exists "".
Qed.

Lemma matched_text_prefix (m rest : string) : matched_text (m ++ rest) rest = m.
Proof.
  unfold matched_text. rewrite length_append.
  replace (String.length m + String.length rest - String.length rest)%nat
    with (String.length m) by lia.
  apply take_append_exact.
Qed.

Lemma match_at_text (r : regex) (prev : option ascii) (s rest : string) :
  match_at r prev s = Some rest ->
  exists prev1,
    s = matched_text s rest ++ rest /\
    matches r prev (matched_text s rest ++ rest) prev1 rest.
Proof.
  intros H. apply match_at_sound in H. destruct H as [prev1 Hm].
  destruct (matches_prefix _ _ _ _ _ Hm) as [m ->].
  rewrite matched_text_prefix. now exists prev1.
Qed.

(** What [search] returns is the text of a match somewhere in the string. *)
Lemma search_go_sound (r : regex) (s : string) :
  forall prev g,
    search_go r prev s = Some g ->
    exists pre post prev0 prev1,
      s = pre ++ g ++ post /\ matches r prev0 (g ++ post) prev1 post.
Proof.
  induction s as [|a s IH]; intros prev g H; simpl in H.
  - destruct (match_at r prev "") as [rest|] eqn:E; [|discriminate].
    injection H as <-.
    destruct (match_at_text _ _ _ _ E) as (prev1 & Heq & Hm).
    now exists "", rest, prev, prev1.
  - destruct (match_at r prev (String a s)) as [rest|] eqn:E.
    + injection H as <-.
      destruct (match_at_text _ _ _ _ E) as (prev1 & Heq & Hm).
      now exists "", rest, prev, prev1.
    + apply IH in H. destruct H as (pre & post & prev0 & prev1 & Heq & Hm).
      exists (String a pre), post, prev0, prev1. split; [|exact Hm].
      simpl. now rewrite <- Heq.
Qed.

Lemma search_sound (r : regex) (s g : string) :
  search r s = Some g ->
  exists pre post prev0 prev1,
    s = pre ++ g ++ post /\ matches r prev0 (g ++ post) prev1 post.
Proof. apply search_go_sound. Qed.

(** A starred class matches a run of characters of the class. *)
Lemma matches_star_class p prev s prev' s' :
  matches (Star (Class p)) prev s prev' s' ->
  exists m, s = m ++ s' /\ UrlParse.all_chars p m = true.
Proof.
  intros H. remember (Star (Class p)) as r eqn:Er.
  induction H as [ | | | | | r prev s
                 | r prev s prev1 s1 prev2 s2 H1 _ _ IH2 | ];
    try discriminate Er.
  - now exists "".
  - injection Er as ->. destruct (IH2 eq_refl) as (m & -> & Hall).
    inversion H1 as [p' a s0 prev0 Hp | | | | | | | ]; subst.
    exists (String a m). split; [reflexivity|]. simpl. now rewrite Hp.
Qed.

(** *** Completeness of the matcher *)

Lemma matches_length r prev s prev' s' :
  matches r prev s prev' s' -> (String.length s' <= String.length s)%nat.
Proof.
  intros H. destruct (matches_prefix _ _ _ _ _ H) as [m ->].
  rewrite length_append. lia.
Qed.

(** A match that consumes nothing leaves the position as it was. *)
Lemma matches_no_progress r prev s prev' s' :
  matches r prev s prev' s' ->
  (String.length s <= String.length s')%nat -> prev' = prev /\ s' = s.
Proof.
  induction 1 as [p a s prev Hp | prev s
                 | r1 r2 prev s prev1 s1 prev2 s2 H1 IH1 H2 IH2
                 | r1 r2 prev s prev' s' _ IH | r1 r2 prev s prev' s' _ IH
                 | r prev s
                 | r prev s prev1 s1 prev2 s2 H1 IH1 H2 IH2
                 | prev s Hb]; intros Hlen.
  - simpl in Hlen. lia.
  - now split.
  - pose proof (matches_length _ _ _ _ _ H1). pose proof (matches_length _ _ _ _ _ H2).
    destruct (IH1 ltac:(lia)) as [-> ->]. now apply IH2.
  - now apply IH.
  - now apply IH.
  - now split.
  - pose proof (matches_length _ _ _ _ _ H1). pose proof (matches_length _ _ _ _ _ H2).
    destruct (IH1 ltac:(lia)) as [-> ->]. now apply IH2.
  - now split.
Qed.

(** What can be matched, the matcher finds: where [r] has a match that the
    continuation accepts, [run] returns a result (that of the first such
    match in its order of preference). *)
Lemma run_complete {A : Type} (r : regex) :
  forall prev s prev' s' (k : option ascii -> string -> option A),
    matches r prev s prev' s' -> k prev' s' <> None -> run r prev s k <> None.
Proof.
  induction r as [p| |r1 IH1 r2 IH2|r1 IH1 r2 IH2|r1 IH1|]; intros prev s prev' s' k Hm Hk.
  - inversion Hm as [q a s0 p0 Hp | | | | | | | ]; subst. simpl. now rewrite Hp.
  - inversion Hm; subst. exact Hk.
  - inversion Hm; subst. simpl.
    eapply IH1; [eassumption|]. eapply IH2; eassumption.
  - simpl. destruct (run r1 prev s k) eqn:E; [discriminate|].
    inversion Hm; subst.
    + exfalso. eapply IH1; eassumption.
    + eapply IH2; eassumption.
  - cbn [run].
    assert (Hfuel : (String.length s <= String.length s)%nat) by lia.
    revert Hfuel. generalize (String.length s) at 2 3 as fuel.
    remember (Star r1) as r eqn:Er.
    induction Hm as [ | | | | | r prev s
                    | r prev s prev1 s1 prev2 s2 H1 _ H2 IHstar | ];
      try discriminate Er; injection Er as ->; intros fuel Hfuel.
    + destruct fuel as [|fuel]; [exact Hk|].
      match goal with
      | |- match ?scrutinee with _ => _ end <> _ => destruct scrutinee
      end; [discriminate | exact Hk].
    + destruct (Nat.ltb (String.length s1) (String.length s)) eqn:Hlt.
      * pose proof (proj1 (Nat.ltb_lt _ _) Hlt) as Hlt'.
        destruct fuel as [|fuel]; [lia|].
        match goal with
        | |- match ?scrutinee with _ => _ end <> _ =>
            destruct scrutinee eqn:E; [discriminate|]
        end.
        exfalso. revert E. eapply IH1; [exact H1|].
        cbv beta. rewrite Hlt. apply (IHstar eq_refl Hk). lia.
      * apply Nat.ltb_ge in Hlt.
        destruct (matches_no_progress _ _ _ _ _ H1 Hlt) as [-> ->].
        now apply (IHstar eq_refl Hk).
  - inversion Hm as [ | | | | | | | p0 s0 Hb]; subst. simpl. now rewrite Hb.
Qed.

Lemma match_at_complete (r : regex) (prev prev' : option ascii) (s s' : string) :
  matches r prev s prev' s' -> match_at r prev s <> None.
Proof.
  intros H. unfold match_at. eapply run_complete; [exact H | discriminate].
Qed.


(** The character before the position that follows [pre]. *)
Fixpoint prev_after (prev : option ascii) (pre : string) : option ascii :=
  match pre with
  | "" => prev
  | String a pre' => prev_after (Some a) pre'
  end.

Lemma search_go_unfold (r : regex) (prev : option ascii) (s : string) :
  search_go r prev s
  = match match_at r prev s with
    | Some rest => Some (matched_text s rest)
    | None =>
        match s with
        | "" => None
        | String a s' => search_go r (Some a) s'
        end
    end.
Proof. destruct s; reflexivity. Qed.

(** [search] finds a match wherever one starts. *)
Lemma search_go_complete (r : regex) (pre : string) :
  forall prev rest prev' s',
    matches r (prev_after prev pre) rest prev' s' ->
    search_go r prev (pre ++ rest) <> None.
Proof.
  induction pre as [|a pre IH]; intros prev rest prev' s' Hm; rewrite search_go_unfold.
  - simpl in *. pose proof (match_at_complete _ _ _ _ _ Hm) as Hat.
    destruct (match_at r prev rest); [discriminate | contradiction].
  - destruct (match_at r prev (String a pre ++ rest)); [discriminate|].
    simpl. eapply IH. exact Hm.
Qed.

Lemma search_complete (r : regex) (pre rest : string) (prev' : option ascii)
  (s' : string) :
  matches r (prev_after None pre) rest prev' s' -> search r (pre ++ rest) <> None.
Proof. apply search_go_complete. Qed.

(** The match that [search] returns starts at the first position where
    there is one. *)
Lemma search_go_leftmost (r : regex) (s : string) :
  forall prev g,
    search_go r prev s = Some g ->
    exists pre post,
      s = pre ++ g ++ post /\
      match_at r (prev_after prev pre) (g ++ post) = Some post /\
      forall pre' rest',
        s = pre' ++ rest' -> (String.length pre' < String.length pre)%nat ->
        match_at r (prev_after prev pre') rest' = None.
Proof.
  induction s as [|a s IH]; intros prev g H; rewrite search_go_unfold in H.
  - destruct (match_at r prev "") as [rest|] eqn:E; [|discriminate].
    injection H as <-.
    destruct (match_at_text _ _ _ _ E) as (prev1 & Heq & _).
    exists "", rest. split; [exact Heq|].
    split; [cbn [prev_after]; rewrite <- Heq; exact E|].
    intros pre' rest' _ Hlt. simpl in Hlt. lia.
  - destruct (match_at r prev (String a s)) as [rest|] eqn:E.
    + injection H as <-.
      destruct (match_at_text _ _ _ _ E) as (prev1 & Heq & _).
      exists "", rest. split; [exact Heq|].
      split; [cbn [prev_after]; rewrite <- Heq; exact E|].
      intros pre' rest' _ Hlt. simpl in Hlt. lia.
    + apply IH in H. destruct H as (pre & post & Heq & Hat & Hfirst).
      exists (String a pre), post. simpl. repeat split.
      * now rewrite <- Heq.
      * exact Hat.
      * intros [|b pre'] rest' Heq' Hlt; simpl in Heq'.
        -- subst rest'. exact E.
        -- injection Heq' as <- Heq'. simpl. apply Hfirst; [exact Heq'|].
           simpl in Hlt. lia.
Qed.

(** *** A greedy star before a class *)

Section StarThenClass.

Variables p q : ascii -> bool.

(** What is left after the longest prefix made of characters of [p]
    followed by one character of [q]. *)
Fixpoint longest_end (s : string) : option string :=
  match s with
  | "" => None
  | String a s' =>
      if p a then
        match longest_end s' with
        | Some rest => Some rest
        | None => if q a then Some s' else None
        end
      else if q a then Some s' else None
  end.

(** A greedy star over a class, followed by a class, gives up characters
    from the right until the second class matches. *)
Lemma star_then_class (prev : option ascii) (s : string) :
  run (Star (Class p)) prev s
    (fun prev' s' => run (Class q) prev' s' (fun _ s'' => Some s''))
  = longest_end s.
Proof.
  cbn [run].
  assert (Hfuel : (String.length s <= String.length s)%nat) by lia.
  revert Hfuel. generalize (String.length s) at 2 3 as fuel.
  intros fuel. revert prev s.
  induction fuel as [|fuel IH]; intros prev [|a s] Hfuel; simpl in Hfuel; try lia.
  - reflexivity.
  - reflexivity.
  - cbn [longest_end]. destruct (p a) eqn:Ep; [|reflexivity].
    assert (Hlt : (String.length s <? S (String.length s))%nat = true)
      by (apply Nat.ltb_lt; lia).
    cbn [String.length]. rewrite Hlt. rewrite IH by lia.
    now destruct (longest_end s).
Qed.

Lemma longest_end_sound (s rest : string) :
  longest_end s = Some rest ->
  exists mid t,
    s = mid ++ String t rest /\ UrlParse.all_chars p mid = true /\ q t = true.
Proof.
  revert rest. induction s as [|a s IH]; intros rest H; simpl in H; [discriminate|].
  assert (Hq : (if q a then Some s else None) = Some rest ->
               exists mid t, String a s = mid ++ String t rest /\
                 UrlParse.all_chars p mid = true /\ q t = true).
  { destruct (q a) eqn:Eq; [|discriminate]. intros [= <-]. now exists "", a. }
  destruct (p a) eqn:Ep; [|exact (Hq H)].
  destruct (longest_end s) as [r|] eqn:E; [|exact (Hq H)].
  injection H as <-. destruct (IH r eq_refl) as (mid & t & -> & Hall & Hq').
  exists (String a mid), t. simpl. now rewrite Ep.
Qed.

Lemma longest_end_complete (mid : string) (t : ascii) (rest : string) :
  UrlParse.all_chars p mid = true -> q t = true ->
  longest_end (mid ++ String t rest) <> None.
Proof.
  intros Hall Hq. induction mid as [|a mid IH]; simpl in *.
  - rewrite Hq. destruct (p t); [|discriminate].
    now destruct (longest_end rest).
  - destruct (p a); [|discriminate]. simpl in Hall.
    destruct (longest_end (mid ++ String t rest)); [discriminate|].
    now exfalso; apply IH.
Qed.

Lemma longest_end_shorter (s rest : string) :
  longest_end s = Some rest -> (String.length rest < String.length s)%nat.
Proof.
  intros H. destruct (longest_end_sound _ _ H) as (mid & t & -> & _).
  rewrite length_append. simpl. lia.
Qed.

(** No other such prefix is longer. *)
Lemma longest_end_longest (s rest : string) :
  longest_end s = Some rest ->
  forall mid t rest',
    s = mid ++ String t rest' -> UrlParse.all_chars p mid = true -> q t = true ->
    (String.length rest <= String.length rest')%nat.
Proof.
  revert rest. induction s as [|a s IH]; intros rest H mid t rest' Heq Hall Hq;
    simpl in H; [discriminate|].
  destruct mid as [|b mid]; simpl in Heq; injection Heq as <- ->.
  - rewrite Hq in H. destruct (p a).
    + destruct (longest_end rest') as [r|] eqn:E.
      * injection H as <-. apply longest_end_shorter in E. lia.
      * injection H as <-. lia.
    + injection H as <-. lia.
  - simpl in Hall. destruct (p a); [|discriminate].
    pose proof (longest_end_complete mid t rest' Hall Hq) as Hsome.
    destruct (longest_end (mid ++ String t rest')) as [r|] eqn:E; [|contradiction].
    injection H as <-. exact (IH r eq_refl mid t rest' eq_refl Hall Hq).
Qed.

End StarThenClass.

End ReFacts.


(** ** The extractor *)

Module ExtractorProps.

Import PyFacts ContentExtractor.

(** *** Truncation *)

(** The truncation rule, for a given reading [near last_period max_length]
    of "the last period is close enough to the budget". *)
Definition truncation_rule (near : Z -> Z -> Prop) (content : string)
  (max_length : Z) : Prop :=
  let result := truncate_content content max_length in
  let last_period := rfind (slice_to content max_length) "." in
  (len content <= max_length -> result = content) /\
  (max_length < len content ->
   len result <= max_length + 3 /\
   (near last_period max_length ->
    result = slice_to content (last_period + 1) /\ endswith result "." = true) /\
   (~ near last_period max_length ->
    result = slice_to content max_length ++ "...")).

(** The position is at least 80% of the budget. *)
Definition at_least_80_percent (last_period max_length : Z) : Prop :=
  4 * max_length <= 5 * last_period.

(** The position is more than 80% of the budget. *)
Definition more_than_80_percent (last_period max_length : Z) : Prop :=
  4 * max_length < 5 * last_period.

(** The integers from [lo], [n] of them. *)
Definition integers_from (lo : Z) (n : nat) : list Z :=
  map (fun i => lo + Z.of_nat i) (seq 0 n).

(** On every budget below [bound] and every position from [-1] to the
    budget, the exact test and the binary64 test agree. *)
Definition tests_agree_below (bound : nat) : bool :=
  forallb
    (fun max_length =>
       forallb
         (fun last_period =>
            Bool.eqb (exceeds_80_percent last_period max_length)
              (exceeds_80_percent_binary64 last_period max_length))
         (integers_from (-1) (Z.to_nat max_length + 2)))
    (integers_from 0 bound).

Lemma threshold_agrees_with_binary64 : tests_agree_below 400 = true.
Proof. vm_compute. reflexivity. Qed.

Lemma truncate_short (content : string) (max_length : Z) :
  len content <= max_length -> truncate_content content max_length = content.
Proof.
  intros H. unfold truncate_content.
  destruct (max_length <? len content) eqn:E; [lia | reflexivity].
Qed.

Lemma truncate_at_period (content : string) (max_length : Z) :
  0 < max_length -> max_length < len content ->
  let last_period := rfind (slice_to content max_length) "." in
  4 * max_length < 5 * last_period ->
  truncate_content content max_length = slice_to content (last_period + 1) /\
  endswith (truncate_content content max_length) "." = true /\
  len (truncate_content content max_length) <= max_length.
Proof.
  intros Hpos Hlong. cbv zeta. unfold truncate_content.
  destruct (max_length <? len content) eqn:E; [|lia].
  unfold exceeds_80_percent.
  set (head := slice_to content max_length).
  set (last_period := rfind head ".").
  intros Hnear.
  destruct (4 * max_length <? 5 * last_period) eqn:E'; [|lia].
  pose proof (rfind_lt_len "." head) as Hlt. fold last_period in Hlt.
  pose proof (len_slice_to content max_length ltac:(lia)) as Hhead.
  fold head in Hhead.
  assert (Hcut : slice_to head (last_period + 1)
                 = slice_to content (last_period + 1)).
  { unfold head. rewrite !slice_to_nonneg by lia. rewrite take_take. f_equal. lia. }
  split; [exact Hcut|]. split.
  - destruct (rfind_split "." head) as [Hnone | (_ & pre & post & Hs & Hl)].
    + fold last_period in Hnone. lia.
    + fold last_period in Hl.
      rewrite (slice_to_nonneg _ (last_period + 1)) by lia.
      replace (Z.to_nat (last_period + 1)) with (String.length (pre ++ ".")).
      * rewrite Hs.
        replace (pre ++ String "." post) with ((pre ++ ".") ++ post)
          by (rewrite append_assoc; reflexivity).
        rewrite take_append_exact. apply endswith_last.
      * rewrite length_append. unfold len in Hl. simpl. lia.
  - pose proof (len_slice_to head (last_period + 1) ltac:(lia)). lia.
Qed.

Lemma truncate_with_ellipsis (content : string) (max_length : Z) :
  0 < max_length -> max_length < len content ->
  ~ 4 * max_length < 5 * rfind (slice_to content max_length) "." ->
  truncate_content content max_length = slice_to content max_length ++ "..." /\
  len (truncate_content content max_length) <= max_length + 3.
Proof.
  intros Hpos Hlong Hfar.
  unfold truncate_content.
  destruct (max_length <? len content) eqn:E; [|lia].
  unfold exceeds_80_percent.
  destruct (4 * max_length <? 5 * rfind (slice_to content max_length) ".") eqn:E';
    [lia|].
  split; [reflexivity|].
  rewrite len_append.
  pose proof (len_slice_to content max_length ltac:(lia)).
  change (len "...") with 3. lia.
Qed.

(** C2, as the code has it: content within the budget is returned unchanged;
    longer content gives a result of at most [max_length + 3] characters,
    which is the content cut just after the last period of its first
    [max_length] characters (so it ends with a period, without ellipsis)
    when that period's position is strictly more than 80% of [max_length],
    and the first [max_length] characters followed by the ellipsis
    otherwise. *)
Theorem truncation_cuts_past_80_percent (content : string) (max_length : Z) :
  0 < max_length -> truncation_rule more_than_80_percent content max_length.
Proof.
  intros Hpos. unfold truncation_rule, more_than_80_percent.
  split; [apply truncate_short|].
  intros Hlong.
  destruct (Z.lt_ge_cases (4 * max_length)
              (5 * rfind (slice_to content max_length) ".")) as [Hnear | Hfar].
  - destruct (truncate_at_period content max_length Hpos Hlong Hnear)
      as (Hcut & Hend & Hlen).
    split; [lia|]. split; [intros _; now split | intros Hn; lia].
  - destruct (truncate_with_ellipsis content max_length Hpos Hlong ltac:(lia))
      as (Hcut & Hlen).
    split; [exact Hlen|]. split; [intros Hn; lia | intros _; exact Hcut].
Qed.

Lemma truncation_cuts_past_80_percent_witness :
  truncation_rule more_than_80_percent "One. Two. Three" 10.
Proof. apply truncation_cuts_past_80_percent. lia. Defined.

(** C2 as stated fails where the last period sits exactly at 80% of the
    budget: with a budget of 10 and the period at index 8 the code appends
    the ellipsis instead of cutting after the period. *)
Lemma truncation_at_exactly_80_percent :
  ~ truncation_rule at_least_80_percent "abcdefgh.jklmn" 10.
Proof.
  unfold truncation_rule, at_least_80_percent.
  intros [_ H].
  destruct (H ltac:(vm_compute; reflexivity)) as (_ & Hnear & _).
  destruct (Hnear ltac:(vm_compute; discriminate)) as [Hcut _].
  vm_compute in Hcut. discriminate Hcut.
Qed.

(** *** Summary generation *)

Definition nonblank (s : string) : bool := negb (is_empty s).

Fixpoint take_while {A : Type} (p : A -> bool) (l : list A) : list A :=
  match l with
  | [] => []
  | x :: rest => if p x then x :: take_while p rest else []
  end.

(** The trimmed pieces between the runs of terminators. *)
Definition trimmed_pieces (content : string) : list string :=
  map strip (Re.split SENTENCE_END content).

(** Read from the specification: the sentences of a content are its
    trimmed pieces, a blank piece being no sentence. *)
Definition sentences_by_spec (content : string) : list string :=
  filter nonblank (trimmed_pieces content).

(** Read from the specification: sentences are accumulated while the
    running total stays under the budget; the first one that does not fit
    ends the summary. *)
Fixpoint accumulate_by_spec (sentences : list string) (total budget : Z)
  : list string :=
  match sentences with
  | [] => []
  | s :: rest =>
      if total + len s <? budget
      then s :: accumulate_by_spec rest (total + len s) budget
      else []
  end.

(** A trailing period is appended to a summary that lacks one. *)
Definition with_period (summary : string) : string :=
  if is_empty summary then ""
  else if endswith summary "." then summary
  else summary ++ ".".

(** Read from the specification: summary generation. *)
Definition summary_by_spec (content : string) (budget : Z) : string :=
  with_period (join ". " (accumulate_by_spec (sentences_by_spec content) 0 budget)).

(** What the loop of the code considers: the sentences before the first
    blank piece. *)
Definition leading_sentences (content : string) : list string :=
  take_while nonblank (trimmed_pieces content).

(** No piece but the last is blank. *)
Definition inner_pieces_nonblank (content : string) : Prop :=
  forall pre p post,
    trimmed_pieces content = (pre ++ p :: post)%list -> post <> [] -> p <> "".

Definition total_len (l : list string) : Z :=
  fold_right (fun s n => len s + n) 0 l.

Lemma accumulate_take_while (sentences acc : list string) (total max_length : Z) :
  accumulate sentences acc total max_length
  = (acc ++ accumulate_by_spec (take_while nonblank (map strip sentences))
              total max_length)%list.
Proof.
  revert acc total.
  induction sentences as [|s rest IH]; intros acc total; simpl.
  - now rewrite app_nil_r.
  - unfold nonblank at 1.
    destruct (is_empty (strip s)); simpl.
    + now rewrite app_nil_r.
    + destruct (total + len (strip s) <? max_length); simpl.
      * rewrite IH. unfold list_append. now rewrite <- app_assoc.
      * now rewrite app_nil_r.
Qed.

Lemma accumulate_by_spec_all (l : list string) (total budget : Z) :
  total + total_len l < budget -> Forall (fun s => s <> "") l ->
  accumulate_by_spec l total budget = l.
Proof.
  revert total. induction l as [|s l IH]; intros total Hlt Hnb; simpl.
  - reflexivity.
  - inversion Hnb as [|? ? Hs Hl]; subst.
    simpl in Hlt.
    assert (0 <= total_len l).
    { clear. induction l as [|x l IH]; simpl; [lia|].
      pose proof (len_nonneg x). lia. }
    destruct (total + len s <? budget) eqn:E; [|lia].
    rewrite IH; [reflexivity | lia | assumption].
Qed.

Lemma total_len_nonneg (l : list string) : 0 <= total_len l.
Proof.
  induction l as [|x l IH]; simpl; [lia|].
  pose proof (len_nonneg x). lia.
Qed.

Lemma length_lstrip (s : string) : (String.length (lstrip s) <= String.length s)%nat.
Proof.
  induction s as [|a s IH]; simpl; [lia|].
  destruct (isspace a); simpl; lia.
Qed.

Lemma len_strip (s : string) : len (strip s) <= len s.
Proof.
  unfold strip, len. rewrite length_rev_string.
  pose proof (length_lstrip (rev_string (lstrip s))) as H1.
  rewrite length_rev_string in H1.
  pose proof (length_lstrip s). lia.
Qed.

Lemma total_len_map_strip (l : list string) :
  total_len (map strip l) <= total_len l.
Proof.
  induction l as [|x l IH]; simpl; [lia|].
  pose proof (len_strip x). lia.
Qed.

Lemma total_len_take_while (p : string -> bool) (l : list string) :
  total_len (take_while p l) <= total_len l.
Proof.
  induction l as [|x l IH]; simpl; [lia|].
  pose proof (len_nonneg x). pose proof (total_len_nonneg l).
  destruct (p x); simpl; lia.
Qed.

(** The pieces of a split share out characters of the string. *)
Lemma total_len_split_go (r : Re.regex) (s : string) :
  forall skip prev cur,
    total_len (Re.split_go r skip prev cur s) <= len cur + len s.
Proof.
  induction s as [|a s IH]; intros skip prev cur; cbn [Re.split_go].
  - unfold total_len, fold_right, len. rewrite length_rev_string. simpl. lia.
  - assert (Hs : len (String a s) = 1 + len s) by (unfold len; simpl String.length; lia).
    assert (Hkeep : total_len (Re.split_go r 0 (Some a) (String a cur) s)
                    <= len cur + len (String a s)).
    { specialize (IH O (Some a) (String a cur)).
      assert (len (String a cur) = 1 + len cur) by (unfold len; simpl String.length; lia).
      lia. }
    destruct skip as [|k].
    + destruct (Re.match_at r prev (String a s)) as [rest|]; [|exact Hkeep].
      destruct (String.length (String a s) - String.length rest)%nat as [|k];
        [exact Hkeep|].
      cbn [total_len fold_right]. fold (total_len (Re.split_go r k (Some a) "" s)).
      specialize (IH k (Some a) "").
      assert (len (rev_string cur) = len cur) by (unfold len; now rewrite length_rev_string).
      change (len "") with 0 in IH. lia.
    + specialize (IH k (Some a) cur). lia.
Qed.

Lemma total_len_split (r : Re.regex) (s : string) :
  total_len (Re.split r s) <= len s.
Proof.
  unfold Re.split. pose proof (total_len_split_go r s O None "") as H.
  change (len "") with 0 in H. lia.
Qed.

Lemma take_while_all_nonblank (l : list string) :
  Forall (fun s => s <> "") (take_while nonblank l).
Proof.
  induction l as [|x l IH]; simpl; [constructor|].
  destruct (nonblank x) eqn:E; [|constructor].
  constructor; [|exact IH].
  unfold nonblank in E. apply Bool.negb_true_iff in E.
  now apply is_empty_false.
Qed.

Lemma take_while_filter (l : list string) :
  (forall pre p post, l = (pre ++ p :: post)%list -> post <> [] -> p <> "") ->
  take_while nonblank l = filter nonblank l.
Proof.
  induction l as [|x l IH]; intros H; simpl; [reflexivity|].
  destruct l as [|y l].
  - simpl. now destruct (nonblank x).
  - assert (Hx : nonblank x = true).
    { unfold nonblank. apply Bool.negb_true_iff, is_empty_false.
      apply (H [] x (y :: l)); [reflexivity | discriminate]. }
    rewrite Hx. f_equal. apply IH.
    intros pre p post Heq Hpost. apply (H (x :: pre) p post); [|exact Hpost].
    simpl. now rewrite Heq.
Qed.

Lemma final_period (summary : string) :
  (if negb (is_empty summary) && negb (endswith summary ".")
   then summary ++ "." else summary) = with_period summary.
Proof.
  unfold with_period.
  destruct (is_empty summary) eqn:E; simpl.
  - apply is_empty_true in E. now subst.
  - now destruct (endswith summary ".").
Qed.

Lemma generate_summary_leading (content : string) (max_length : Z) :
  _generate_summary content max_length
  = with_period (join ". " (accumulate_by_spec (leading_sentences content) 0 max_length)).
Proof.
  unfold _generate_summary.
  destruct (is_empty content) eqn:E.
  - apply is_empty_true in E. subst. reflexivity.
  - cbv zeta. rewrite final_period, accumulate_take_while. reflexivity.
Qed.

(** C5, as the code has it: the content is split on runs of [.], [!], [?]
    and each piece trimmed; the sentences before the first blank piece are
    accumulated while the running total of their lengths stays under the
    budget (300 by default), the first one that does not fit ending the
    summary; they are joined with a period and a space and a period is
    appended.  Empty content gives the empty string; content shorter than
    the budget gives every sentence before its first blank piece; and where
    no piece but the last is blank this is the summary the specification
    describes. *)
Theorem summary_of_leading_sentences (content : string) (max_length : Z) :
  _generate_summary content max_length
  = with_period (join ". " (accumulate_by_spec (leading_sentences content) 0 max_length))
  /\ _generate_summary "" max_length = ""
  /\ (len content < max_length ->
      _generate_summary content max_length
      = with_period (join ". " (leading_sentences content)))
  /\ (inner_pieces_nonblank content ->
      leading_sentences content = sentences_by_spec content
      /\ _generate_summary content max_length = summary_by_spec content max_length).
Proof.
  split; [apply generate_summary_leading|].
  split; [reflexivity|].
  split.
  - intros Hshort. rewrite generate_summary_leading.
    rewrite accumulate_by_spec_all; [reflexivity | | apply take_while_all_nonblank].
    unfold leading_sentences, trimmed_pieces.
    pose proof (total_len_take_while nonblank
                  (map strip (Re.split SENTENCE_END content))).
    pose proof (total_len_map_strip (Re.split SENTENCE_END content)).
    pose proof (total_len_split SENTENCE_END content). lia.
  - intros Hinner.
    assert (Heq : leading_sentences content = sentences_by_spec content).
    { unfold leading_sentences, sentences_by_spec.
      apply take_while_filter. exact Hinner. }
    split; [exact Heq|].
    rewrite generate_summary_leading, Heq. reflexivity.
Qed.

Lemma summary_of_leading_sentences_witness :
  _generate_summary "Hello! World? Yes" SUMMARY_MAX_LENGTH = "Hello. World. Yes.".
Proof.
  destruct (summary_of_leading_sentences "Hello! World? Yes" SUMMARY_MAX_LENGTH)
    as (_ & _ & Hshort & _).
  rewrite (Hshort ltac:(vm_compute; reflexivity)). reflexivity.
Defined.

(** C5 as stated fails on a content with a blank piece between two runs of
    terminators: the loop ends there, although the budget is far from
    reached, and the sentences after it are lost. *)
Lemma summary_stops_at_blank_sentence :
  _generate_summary "No way! ... Yes." SUMMARY_MAX_LENGTH = "No way."
  /\ summary_by_spec "No way! ... Yes." SUMMARY_MAX_LENGTH = "No way. Yes."
  /\ _generate_summary "No way! ... Yes." SUMMARY_MAX_LENGTH
     <> summary_by_spec "No way! ... Yes." SUMMARY_MAX_LENGTH.
Proof. repeat split; try reflexivity. vm_compute. discriminate. Qed.


(** *** The strategies and the coordinator *)

Lemma newspaper_none_on_bad_url (w : World) (url : string) (e : exception) :
  urlparse_netloc w url = Raise e -> _extract_with_newspaper w url = None.
Proof.
  intros H. unfold _extract_with_newspaper.
  destruct (newspaper_article w url); simpl; [rewrite H|]; reflexivity.
Qed.

Lemma metadata_raises_on_bad_url (w : World) (html url : string) (e : exception) :
  urlparse_netloc w url = Raise e ->
  _extract_metadata_from_html w html url = Raise e.
Proof. intros H. unfold _extract_metadata_from_html. now rewrite H. Qed.

Lemma readability_none_on_bad_url (w : World) (url : string) (e : exception) :
  urlparse_netloc w url = Raise e -> _extract_with_readability w url = None.
Proof.
  intros H. unfold _extract_with_readability.
  destruct (session_get_readability w url) as [response|]; simpl; [|reflexivity].
  destruct (readability_document w (response_text response)); simpl; [|reflexivity].
  now rewrite (metadata_raises_on_bad_url _ _ _ _ H).
Qed.

Lemma beautifulsoup_raises_on_bad_url (w : World) (url : string) (e : exception) :
  urlparse_netloc w url = Raise e -> _extract_with_beautifulsoup w url = Raise e.
Proof.
  intros H. unfold _extract_with_beautifulsoup.
  destruct (session_get_beautifulsoup w url) as [response|]; simpl.
  - rewrite (metadata_raises_on_bad_url _ _ _ _ H). simpl. now rewrite H.
  - now rewrite H.
Qed.

(** Where [urlparse] raises, so does [extract_content]: its handler calls
    [urlparse] again. *)
Lemma extract_content_raises (w : World) (url : string) (max_length : Z)
  (e : exception) :
  urlparse_netloc w url = Raise e -> extract_content w url max_length = Raise e.
Proof.
  intros H. unfold extract_content.
  rewrite (newspaper_none_on_bad_url _ _ _ H),
          (readability_none_on_bad_url _ _ _ H),
          (beautifulsoup_raises_on_bad_url _ _ _ H).
  simpl. now rewrite H.
Qed.

Lemma newspaper_domain (w : World) (url host : string) (r : Extracted) :
  urlparse_netloc w url = Ok host ->
  _extract_with_newspaper w url = Some r -> domain (x_metadata r) = host.
Proof.
  intros H. unfold _extract_with_newspaper.
  destruct (newspaper_article w url); simpl; [rewrite H; simpl|discriminate].
  intros [= <-]. reflexivity.
Qed.

Lemma metadata_domain (w : World) (html url host : string) :
  urlparse_netloc w url = Ok host ->
  exists m, _extract_metadata_from_html w html url = Ok m /\ html_domain m = host.
Proof.
  intros H. unfold _extract_metadata_from_html. rewrite H. simpl.
  eexists. split; reflexivity.
Qed.

Lemma readability_domain (w : World) (url host : string) (r : Extracted) :
  urlparse_netloc w url = Ok host ->
  _extract_with_readability w url = Some r -> domain (x_metadata r) = host.
Proof.
  intros H. unfold _extract_with_readability.
  destruct (session_get_readability w url) as [response|]; simpl; [|discriminate].
  destruct (readability_document w (response_text response)); simpl; [|discriminate].
  destruct (metadata_domain w (response_text response) url host H) as (m & Hm & Hd).
  rewrite Hm. simpl. intros [= <-]. exact Hd.
Qed.

Lemma beautifulsoup_domain (w : World) (url host : string) :
  urlparse_netloc w url = Ok host ->
  exists r, _extract_with_beautifulsoup w url = Ok r /\ domain (x_metadata r) = host.
Proof.
  intros H. unfold _extract_with_beautifulsoup.
  destruct (session_get_beautifulsoup w url) as [response|]; simpl.
  - destruct (metadata_domain w (response_text response) url host H) as (m & Hm & Hd).
    rewrite Hm. simpl. eexists. split; [reflexivity | exact Hd].
  - rewrite H. simpl. eexists. split; reflexivity.
Qed.

Lemma with_content_some (r x : option Extracted) (y : Extracted) :
  with_content r = Some y -> r = Some y.
Proof.
  destruct r as [z|]; simpl; [|discriminate].
  destruct (is_empty (x_content z)); [discriminate | congruence].
Qed.

Lemma format_result_ok (w : World) (r : Extracted) (url host : string)
  (max_length : Z) :
  urlparse_netloc w url = Ok host ->
  exists doc,
    _format_result w r url max_length = Ok doc /\
    metadata doc = x_metadata r /\
    title doc = x_title r /\
    content doc = truncate_content (x_content r) max_length.
Proof.
  intros H. unfold _format_result. rewrite H. simpl.
  eexists. repeat split.
Qed.

(** Where [urlparse] accepts the url, [extract_content] returns one document
    and its [metadata.domain] is the network location of the url, whatever
    the network answers. *)
Lemma extract_content_domain (w : World) (url host : string) (max_length : Z) :
  urlparse_netloc w url = Ok host ->
  exists doc,
    extract_content w url max_length = Ok doc /\ domain (metadata doc) = host.
Proof.
  intros H. unfold extract_content.
  destruct (with_content (_extract_with_newspaper w url)) as [r|] eqn:E1.
  - apply (with_content_some _ None) in E1.
    destruct (format_result_ok w r url host max_length H) as (doc & Hdoc & Hm & _).
    rewrite Hdoc. exists doc. split; [reflexivity|].
    rewrite Hm. now apply (newspaper_domain w url).
  - destruct (with_content (_extract_with_readability w url)) as [r|] eqn:E2.
    + apply (with_content_some _ None) in E2.
      destruct (format_result_ok w r url host max_length H) as (doc & Hdoc & Hm & _).
      rewrite Hdoc. exists doc. split; [reflexivity|].
      rewrite Hm. now apply (readability_domain w url).
    + destruct (beautifulsoup_domain w url host H) as (r & Hr & Hd).
      rewrite Hr. simpl.
      destruct (format_result_ok w r url host max_length H) as (doc & Hdoc & Hm & _).
      rewrite Hdoc. exists doc. split; [reflexivity|].
      now rewrite Hm.
Qed.

(** *** Batches *)

Import DictFacts.

(** Where [urlparse] accepts every url of a batch, the batch completes and
    its result has one entry for each url, in the order in which the urls
    first occur. *)
Lemma extract_loop_complete (world_at : nat -> World) (max_length_per_url : Z)
  (urls : list string) :
  (forall i url, In url urls ->
     exists host, urlparse_netloc (world_at i) url = Ok host) ->
  forall i results,
  exists results',
    extract_loop world_at i urls max_length_per_url results = Ok results' /\
    keys results' = first_seen_from (keys results) urls.
Proof.
  induction urls as [|url rest IH]; intros Hok i results; simpl.
  - exists results. split; reflexivity.
  - destruct (Hok i url (or_introl eq_refl)) as [host Hhost].
    destruct (extract_content_domain (world_at i) url host max_length_per_url Hhost)
      as (doc & Hdoc & _).
    rewrite Hdoc. cbn [bind].
    destruct (IH (fun j u Hu => Hok j u (or_intror Hu)) (S i) (dict_set results url doc))
      as (results' & Hrun & Hkeys).
    exists results'. split; [exact Hrun|].
    rewrite Hkeys. unfold first_seen_from. simpl.
    rewrite seen_mem. destruct (dict_mem results url) eqn:E.
    + now rewrite keys_set_present.
    + now rewrite keys_set_absent.
Qed.

Lemma extract_multiple_urls_complete (world_at : nat -> World)
  (max_length_per_url : Z) (urls : list string) :
  (forall i url, In url urls ->
     exists host, urlparse_netloc (world_at i) url = Ok host) ->
  exists results,
    extract_multiple_urls world_at urls max_length_per_url = Ok results /\
    keys results = first_seen urls /\
    forall url, In url urls <-> dict_mem results url = true.
Proof.
  intros Hok. unfold extract_multiple_urls.
  destruct (extract_loop_complete world_at max_length_per_url urls Hok O [])
    as (results & Hrun & Hkeys).
  exists results. split; [exact Hrun|]. split; [exact Hkeys|].
  intros url. rewrite dict_mem_in_keys, Hkeys. symmetry. apply first_seen_in.
Qed.


(** A url with an opening bracket and no closing one. *)
Definition unbalanced_bracket_url : string := "http://[::1".

Lemma urlparse_rejects_unbalanced_bracket (lib : UrlParse.Checks) :
  UrlParse.netloc lib unbalanced_bracket_url = Raise (ValueError "Invalid IPv6 URL").
Proof. reflexivity. Qed.

Lemma urlparse_example_com (lib : UrlParse.Checks) :
  UrlParse.netloc lib "https://example.com/a" = Ok "example.com".
Proof. reflexivity. Qed.

(** C1, at the failing input: on the url [http://[::1], which [urlparse]
    rejects with [ValueError("Invalid IPv6 URL")], [extract_content] returns
    no document: the exception leaves it, whatever the network does. *)
Theorem extract_content_raises_on_unbalanced_bracket (w : World) (max_length : Z) :
  extract_content w unbalanced_bracket_url max_length
  = Raise (ValueError "Invalid IPv6 URL").
Proof.
  apply extract_content_raises. unfold urlparse_netloc.
  apply urlparse_rejects_unbalanced_bracket.
Qed.

(** C6, at the failing input: a batch whose second url is rejected by
    [urlparse] is aborted by the exception, and the document extracted for
    its first url is lost with it. *)
Theorem extract_multiple_urls_aborts (world_at : nat -> World)
  (max_length_per_url : Z) :
  extract_multiple_urls world_at ["https://example.com/a"; unbalanced_bracket_url]
    max_length_per_url
  = Raise (ValueError "Invalid IPv6 URL").
Proof.
  unfold extract_multiple_urls. cbn [extract_loop].
  destruct (extract_content_domain (world_at O) "https://example.com/a"
              "example.com" max_length_per_url
              (urlparse_example_com _)) as (doc & Hdoc & _).
  rewrite Hdoc. cbn [bind].
  rewrite (extract_content_raises _ _ _ (ValueError "Invalid IPv6 URL"));
    [reflexivity|].
  unfold urlparse_netloc. apply urlparse_rejects_unbalanced_bracket.
Qed.


(** *** Exhaustion of the strategies *)







(** The failure document of the third strategy, as [_format_result] wraps it. *)
Definition beautifulsoup_failure_document (w : World) (url host : string)
  (e : exception) : Document :=
  {| url := url;
     title := "Extraction Failed";
     summary := "Could not extract content: " ++ exc_str e;
     content := "";
     metadata :=
       {| author := "Unknown";
          publish_date := None;
          domain := host;
          extraction_method := "beautifulsoup_failed";
          error := Some (exc_str e) |};
     source_info :=
       {| link := url;
          website := host;
          extraction_timestamp := now_isoformat w |} |}.


Lemma truncate_empty (max_length : Z) :
  0 <= max_length -> truncate_content "" max_length = "".
Proof. intros H. apply truncate_short. unfold len. simpl. lia. Qed.


(** A world in which nothing answers. *)
Definition no_checks : UrlParse.Checks :=
  {| UrlParse.check_bracketed_netloc := fun _ => None;
     UrlParse.checknetloc_nfkc := fun _ => None |}.

Definition connection_refused : exception :=
  {| exc_class := "ConnectionError"; exc_str := "connection refused" |}.

Definition blank_soup : Soup :=
  {| select_one := fun _ => None;
     soup_find := fun _ => None;
     soup_get_text := "" |}.

Definition unreachable : World :=
  {| url_checks := no_checks;
     newspaper_article := fun _ => Raise connection_refused;
     session_get_readability := fun _ => Raise connection_refused;
     session_get_beautifulsoup := fun _ => Raise connection_refused;
     readability_document := fun _ => Raise connection_refused;
     html_parser := fun _ => blank_soup;
     decompose_all := fun _ soup => soup;
     dateutil_parse := fun _ => Raise connection_refused;
     now_isoformat := "2024-01-01T00:00:00" |}.








End ExtractorProps.

(** ** The citation manager *)

Module CitationProps.

Import PyFacts DictFacts CitationManager.

Definition no_checks : UrlParse.Checks :=
  {| UrlParse.check_bracketed_netloc := fun _ => None;
     UrlParse.checknetloc_nfkc := fun _ => None |}.

Definition env0 : Env := {| url_checks := no_checks; today := "2024-01-01" |}.

(** The manager after the registration of the source of the specification's
    end-to-end example. *)
Definition jane_doe : Manager :=
  snd (add_source env0 __init__ "https://example.com/a" "Hello World Example"
         "Jane Doe" (Some "2023-05-01") "webpage").

Example jane_doe_id :
  fst (add_source env0 __init__ "https://example.com/a" "Hello World Example"
         "Jane Doe" (Some "2023-05-01") "webpage")
  = Ok "example.com_hello_world_example".
Proof. reflexivity. Qed.

Example jane_doe_apa :
  format_citation jane_doe "example.com_hello_world_example" APA
  = "Jane Doe (2023) Hello World Example. Retrieved 2024-01-01 from https://example.com/a".
Proof. reflexivity. Qed.

(** *** Identifiers *)

(** The identifiers the loop tries, in order: the base identifier, then the
    base identifier with the suffixes [_1], [_2], ... *)
Definition candidate (original_id : string) (k : nat) : string :=
  match k with
  | O => original_id
  | S _ => suffixed original_id k
  end.

(** [id] is the first candidate that is not registered. *)
Definition first_free (original_id : string) (sources : dict SourceMetadata)
  (id : string) : Prop :=
  exists k,
    id = candidate original_id k /\
    dict_mem sources id = false /\
    forall j, (j < k)%nat -> dict_mem sources (candidate original_id j) = true.

(** The managers that calls to [add_source] and [add_citation] produce. *)
Inductive reachable (env : Env) : Manager -> Prop :=
| reach_init : reachable env __init__
| reach_add_source self url title author publish_date content_type :
    reachable env self ->
    reachable env
      (snd (add_source env self url title author publish_date content_type))
| reach_add_citation self source_id quote page_number section confidence :
    reachable env self ->
    reachable env
      (snd (add_citation self source_id quote page_number section confidence)).

(** How sources are registered, given how the base identifier is derived
    from the network location of the url and from the title. *)
Definition registration_rule (base_of : string -> string -> string) (env : Env)
  : Prop :=
  forall self, reachable env self ->
    NoDup (keys (sources self)) /\
    forall url title author publish_date content_type netloc,
      urlparse_netloc env url = Ok netloc ->
      exists id self',
        add_source env self url title author publish_date content_type
        = (Ok id, self') /\
        first_free (base_of netloc title) (sources self) id /\
        keys (sources self') = (keys (sources self) ++ [id])%list /\
        citations self' = citations self.

(** Read from the specification: the host with a leading [www.] stripped. *)
Definition host_by_spec (netloc : string) : string :=
  if startswith netloc "www." then drop 4 netloc else netloc.

(** Read from the specification: the base identifier. *)
Definition base_id_by_spec (netloc title : string) : string :=
  host_by_spec netloc ++ "_"
  ++ join "_" (firstn 3 (split_ws (Re.sub PUNCTUATION "" (lower title)))).

Lemma str_of_nat_inj (j k : nat) : str_of_nat j = str_of_nat k -> j = k.
Proof.
  unfold str_of_nat. intros H.
  apply DecimalNat.Unsigned.to_uint_inj.
  pose proof (NilEmpty.usu (Nat.to_uint j)) as Hj.
  pose proof (NilEmpty.usu (Nat.to_uint k)) as Hk.
  rewrite H in Hj. congruence.
Qed.

Lemma candidate_inj (original_id : string) (j k : nat) :
  candidate original_id j = candidate original_id k -> j = k.
Proof.
  destruct j as [|j], k as [|k]; simpl; unfold suffixed; intros H.
  - reflexivity.
  - apply (f_equal String.length) in H. rewrite length_append in H.
    simpl in H. lia.
  - apply (f_equal String.length) in H. rewrite length_append in H.
    simpl in H. lia.
  - apply append_inv_head in H. injection H as H.
    now apply str_of_nat_inj.
Qed.

Lemma NoDup_map_inj {A B : Type} (f : A -> B) (l : list A) :
  (forall x y, f x = f y -> x = y) -> NoDup l -> NoDup (map f l).
Proof.
  intros Hinj. induction 1 as [|x l Hx Hl IH]; simpl; constructor; [|exact IH].
  intros Hin. apply in_map_iff in Hin. destruct Hin as (y & Hy & Hyl).
  apply Hinj in Hy. now subst.
Qed.

(** The candidates cannot all be registered: there are more of them than
    there are sources. *)
Lemma candidates_exhaust (sources : dict SourceMetadata) (original_id : string)
  (c : nat) :
  (forall j, (j < c)%nat -> dict_mem sources (candidate original_id j) = true) ->
  (c <= List.length sources)%nat.
Proof.
  intros H.
  assert (Hincl : incl (map (candidate original_id) (seq 0 c)) (keys sources)).
  { intros x Hx. apply in_map_iff in Hx. destruct Hx as (j & <- & Hj).
    apply in_seq in Hj. apply dict_mem_in_keys, H. lia. }
  apply NoDup_incl_length in Hincl.
  - unfold keys in Hincl. rewrite !length_map, length_seq in Hincl. exact Hincl.
  - apply NoDup_map_inj; [apply candidate_inj | apply seq_NoDup].
Qed.

(** The loop leaves through its condition, at the first free candidate,
    before its fuel is spent. *)
Lemma while_loop_exits (sources : dict SourceMetadata) (original_id : string)
  (fuel : nat) :
  forall c,
    (forall j, (j < c)%nat -> dict_mem sources (candidate original_id j) = true) ->
    (c + fuel = S (List.length sources))%nat ->
    exists k,
      (c <= k)%nat /\
      while_loop sources original_id (candidate original_id c) (S c) fuel
      = candidate original_id k /\
      dict_mem sources (candidate original_id k) = false /\
      forall j, (j < k)%nat -> dict_mem sources (candidate original_id j) = true.
Proof.
  induction fuel as [|fuel IH]; intros c Hbefore Hfuel.
  - apply candidates_exhaust in Hbefore. lia.
  - cbn [while_loop].
    destruct (dict_mem sources (candidate original_id c)) eqn:E.
    + destruct (IH (S c)) as (k & Hk & Hrun & Hfree & Hall).
      * intros j Hj. destruct (Nat.eq_dec j c) as [->|Hne]; [exact E|].
        apply Hbefore. lia.
      * lia.
      * exists k. split; [lia|]. split; [exact Hrun|]. split; assumption.
    + exists c. split; [lia|]. split; [reflexivity|]. split; assumption.
Qed.

Lemma first_free_id_first_free (sources : dict SourceMetadata)
  (original_id : string) :
  first_free original_id sources (first_free_id sources original_id).
Proof.
  unfold first_free_id.
  destruct (while_loop_exits sources original_id (S (List.length sources)) O)
    as (k & _ & Hrun & Hfree & Hall); [intros j Hj; lia | lia |].
  exists k. change (candidate original_id 0) with original_id in Hrun.
  rewrite Hrun. split; [reflexivity|]. split; assumption.
Qed.

Lemma reachable_nodup (env : Env) (self : Manager) :
  reachable env self -> NoDup (keys (sources self)).
Proof.
  induction 1 as [|self url title author publish_date content_type _ IH
                  |self source_id quote page_number section confidence _ IH].
  - constructor.
  - unfold add_source, _generate_source_id.
    destruct (urlparse_netloc env url); simpl; [|exact IH].
    now apply nodup_keys_set.
  - unfold add_citation. now destruct (dict_get (sources self) source_id).
Qed.

Lemma add_source_registers (env : Env) (self : Manager)
  (url title author : string) (publish_date : option string)
  (content_type netloc : string) :
  urlparse_netloc env url = Ok netloc ->
  exists id self',
    add_source env self url title author publish_date content_type = (Ok id, self') /\
    first_free (base_id netloc title) (sources self) id /\
    keys (sources self') = (keys (sources self) ++ [id])%list /\
    citations self' = citations self.
Proof.
  intros Hurl. unfold add_source, _generate_source_id. rewrite Hurl. cbn [bind].
  pose proof (first_free_id_first_free (sources self) (base_id netloc title)) as Hff.
  eexists. eexists. split; [reflexivity|]. split; [exact Hff|].
  destruct Hff as (k & _ & Hfree & _).
  split; [|reflexivity]. cbn [sources]. now apply keys_set_absent.
Qed.

(** C4, as the code has it: after any sequence of calls the identifiers of
    the registry are pairwise distinct; the base identifier of a new source
    is the network location of its url with every occurrence of "www."
    removed, joined with the first three words of its lower-cased title
    without punctuation; the new source gets the base identifier when it is
    free and otherwise the first free suffix [_1], [_2], ..., and is added
    after the sources already registered; registering "https://example.com/a"
    with the title "Hello World Example" twice gives
    [example.com_hello_world_example] and [example.com_hello_world_example_1]. *)
Theorem registry_identifiers (env : Env) :
  registration_rule base_id env
  /\ forall author publish_date content_type,
       let first :=
         add_source env __init__ "https://example.com/a" "Hello World Example"
           author publish_date content_type in
       let second :=
         add_source env (snd first) "https://example.com/a" "Hello World Example"
           author publish_date content_type in
       fst first = Ok "example.com_hello_world_example" /\
       fst second = Ok "example.com_hello_world_example_1".
Proof.
  split.
  - intros self Hreach. split; [now apply (reachable_nodup env)|].
    intros. now apply add_source_registers.
  - intros. split; reflexivity.
Qed.

Lemma registry_identifiers_witness :
  NoDup (keys (sources jane_doe))
  /\ fst (add_source env0 jane_doe "https://example.com/a" "Hello World Example"
            "Unknown" None "webpage")
     = Ok "example.com_hello_world_example_1".
Proof.
  destruct (registry_identifiers env0) as [Hrule _].
  destruct (Hrule jane_doe) as [Hnodup _].
  - apply reach_add_source, reach_init.
  - split; [exact Hnodup | reflexivity].
Defined.

(** C4 as stated fails on a host that contains "www." elsewhere than at its
    start: the code removes it there too. *)
Lemma www_is_removed_everywhere :
  fst (add_source env0 __init__ "https://awww.com/x" "Hello World Example"
         "Unknown" None "webpage")
  = Ok "acom_hello_world_example"
  /\ base_id_by_spec "awww.com" "Hello World Example" = "awww.com_hello_world_example"
  /\ ~ registration_rule base_id_by_spec env0.
Proof.
  split; [reflexivity|]. split; [reflexivity|].
  intros Hrule.
  destruct (Hrule __init__ (reach_init env0)) as [_ Hadd].
  destruct (Hadd "https://awww.com/x" "Hello World Example" "Unknown" None
              "webpage" "awww.com" eq_refl)
    as (id & self' & Hrun & (k & Hid & _ & Hall) & _).
  destruct k as [|k].
  - vm_compute in Hrun, Hid. congruence.
  - specialize (Hall O ltac:(lia)). discriminate Hall.
Qed.


(** *** Title cleanup *)

Import ReFacts.

(** A capitalized sentence fragment: an upper-case letter, characters
    other than the period, then one of [.], [!], [?]. *)
Definition is_fragment (g : string) : Prop :=
  exists a mid t,
    g = String a (mid ++ String t "") /\
    isupper_ascii a = true /\
    Re.one_of ".!?" t = true /\
    contains_char "." mid = false.

Lemma append_inv_tail (s t u : string) : s ++ u = t ++ u -> s = t.
Proof.
  revert t. induction s as [|a s IH]; intros [|b t] H; simpl in H.
  - reflexivity.
  - apply (f_equal String.length) in H. simpl in H. rewrite length_append in H. lia.
  - apply (f_equal String.length) in H. simpl in H. rewrite length_append in H. lia.
  - injection H as -> H. f_equal. now apply IH.
Qed.

Lemma no_period_inside (mid : string) :
  UrlParse.all_chars (fun a => negb (Ascii.eqb a ".")) mid = true ->
  contains_char "." mid = false.
Proof.
  induction mid as [|a mid IH]; simpl; [reflexivity|].
  destruct (Ascii.eqb a "."); simpl; [discriminate | exact IH].
Qed.

Lemma fragment_shape (g post : string) (prev0 prev1 : option ascii) :
  matches FRAGMENT prev0 (g ++ post) prev1 post -> is_fragment g.
Proof.
  unfold FRAGMENT, Re.upper. intros H.
  inversion H as [ | | r1 r2 p s p1 s1 p2 s2 Hup Htail | | | | | ]; subst.
  inversion Hup as [q a s0 p0 Ha | | | | | | | ]; subst.
  inversion Htail as [ | | r1 r2 p s p3 s3 p4 s4 Hstar Hend | | | | | ]; subst.
  inversion Hend as [q t s0 p0 Ht | | | | | | | ]; subst.
  apply matches_star_class in Hstar. destruct Hstar as (mid & -> & Hmid).
  exists a, mid, t. repeat split; try assumption.
  - apply (append_inv_tail _ _ post).
    match goal with E : String a _ = _ |- _ => rewrite <- E end.
    simpl. now rewrite append_assoc.
  - now apply no_period_inside.
Qed.

Lemma search_fragment (s g : string) :
  Re.search FRAGMENT s = Some g ->
  is_fragment g /\ exists pre post, s = pre ++ g ++ post.
Proof.
  intros H. apply search_sound in H.
  destruct H as (pre & post & prev0 & prev1 & Heq & Hm).
  split; [now apply (fragment_shape g post prev0 prev1) | now exists pre, post].
Qed.

(** [[^.]] *)
Definition not_period (a : ascii) : bool := negb (Ascii.eqb a ".").

(** [[.!?]] *)
Definition terminator (a : ascii) : bool := Re.one_of ".!?" a.

(** The match of [FRAGMENT] at the front of a string: its first character
    is an upper-case letter and the match is the longest one from there. *)
Lemma match_at_fragment (prev : option ascii) (s : string) :
  Re.match_at FRAGMENT prev s
  = match s with
    | "" => None
    | String a s' =>
        if isupper_ascii a then longest_end not_period terminator s' else None
    end.
Proof.
  destruct s as [|a s]; [reflexivity|].
  unfold Re.match_at, FRAGMENT, Re.upper. cbn [Re.run].
  destruct (isupper_ascii a); [|reflexivity].
  exact (star_then_class not_period terminator (Some a) s).
Qed.

Lemma period_outside (mid : string) :
  contains_char "." mid = false -> UrlParse.all_chars not_period mid = true.
Proof.
  unfold not_period.
  induction mid as [|a mid IH]; simpl; [reflexivity|].
  destruct (Ascii.eqb a "."); simpl; [discriminate | exact IH].
Qed.

Lemma matches_class_run (p : ascii -> bool) (mid : string) :
  UrlParse.all_chars p mid = true ->
  forall prev rest,
    matches (Re.Star (Re.Class p)) prev (mid ++ rest) (prev_after prev mid) rest.
Proof.
  induction mid as [|a mid IH]; intros Hall prev rest; simpl in *.
  - constructor.
  - apply andb_prop in Hall. destruct Hall as [Ha Hall].
    eapply matches_star_step; [now constructor | now apply IH].
Qed.

(** A fragment at the front of a string is a match of [FRAGMENT]. *)
Lemma fragment_matches (g post : string) (prev : option ascii) :
  is_fragment g -> exists prev', matches FRAGMENT prev (g ++ post) prev' post.
Proof.
  intros (a & mid & t & -> & Ha & Ht & Hmid).
  exists (Some t). unfold FRAGMENT, Re.upper. simpl. rewrite append_assoc.
  eapply matches_seq; [now constructor|].
  eapply matches_seq;
    [exact (matches_class_run _ mid (period_outside mid Hmid) (Some a) _)|].
  simpl. now constructor.
Qed.

(** [s] holds the fragment [g] between [pre] and [post]. *)
Definition fragment_at (s pre g post : string) : Prop :=
  s = pre ++ g ++ post /\ is_fragment g.

Definition holds_fragment (s : string) : Prop :=
  exists pre g post, fragment_at s pre g post.

(** [g] is the first fragment of [s]: no fragment of [s] starts before it,
    and none that starts where it starts is longer. *)
Definition first_fragment (s g : string) : Prop :=
  exists pre post,
    fragment_at s pre g post /\
    forall pre' g' post',
      fragment_at s pre' g' post' ->
      (String.length pre <= String.length pre')%nat /\
      (String.length pre' = String.length pre ->
       (String.length g' <= String.length g)%nat).

Lemma append_inv_length (s1 t1 s2 t2 : string) :
  s1 ++ t1 = s2 ++ t2 -> String.length s1 = String.length s2 ->
  s1 = s2 /\ t1 = t2.
Proof.
  revert s2. induction s1 as [|a s1 IH]; intros [|b s2] H Hlen;
    simpl in *; try discriminate.
  - now split.
  - injection H as -> H. destruct (IH s2 H ltac:(lia)) as [-> ->]. now split.
Qed.

(** What [search] finds is the first fragment. *)
Lemma search_first_fragment (s g : string) :
  Re.search FRAGMENT s = Some g -> first_fragment s g.
Proof.
  intros H. pose proof (search_fragment s g H) as [Hfrag _].
  apply search_go_leftmost in H. destruct H as (pre & post & Heq & Hat & Hfirst).
  exists pre, post. split; [now split|].
  intros pre' g' post' [Heq' Hfrag'].
  assert (Hle : (String.length pre <= String.length pre')%nat).
  { destruct (Nat.le_gt_cases (String.length pre) (String.length pre'))
      as [Hle|Hlt]; [exact Hle|].
    exfalso.
    destruct (fragment_matches g' post' (prev_after None pre') Hfrag')
      as [prev' Hm].
    apply match_at_complete in Hm. apply Hm. now apply Hfirst. }
  split; [exact Hle|]. intros Hsame.
  rewrite Heq in Heq'.
  destruct (append_inv_length _ _ _ _ Heq' (eq_sym Hsame)) as [_ Htail].
  destruct Hfrag as (a & mid & t & -> & Ha & Ht & Hmid).
  destruct Hfrag' as (a' & mid' & t' & -> & Ha' & Ht' & Hmid').
  simpl in Htail, Hat. rewrite !append_assoc in Htail. rewrite append_assoc in Hat.
  simpl in Htail, Hat. injection Htail as <- Htail.
  rewrite match_at_fragment, Ha in Hat.
  pose proof (longest_end_longest _ _ _ _ Hat mid' t' post' Htail
                (period_outside mid' Hmid') Ht') as Hlong.
  apply (f_equal String.length) in Htail. rewrite !length_append in Htail.
  simpl in *. rewrite !length_append. simpl. lia.
Qed.

(** Where [search] finds nothing there is no fragment. *)
Lemma search_no_fragment (s : string) :
  Re.search FRAGMENT s = None -> ~ holds_fragment s.
Proof.
  intros Hnone (pre & g & post & -> & Hfrag).
  destruct (fragment_matches g post (prev_after None pre) Hfrag) as [prev' Hm].
  now apply (search_complete FRAGMENT pre (g ++ post) prev' post).
Qed.

Lemma first_fragment_holds (s g : string) : first_fragment s g -> holds_fragment s.
Proof. intros (pre & post & H & _). now exists pre, g, post. Qed.

(** A string has one first fragment at most. *)
Lemma first_fragment_unique (s g g' : string) :
  first_fragment s g -> first_fragment s g' -> g = g'.
Proof.
  intros (pre & post & H & Hmin) (pre' & post' & H' & Hmin').
  destruct (Hmin _ _ _ H') as [Hle Hlong], (Hmin' _ _ _ H) as [Hle' Hlong'].
  assert (Hpre : String.length pre = String.length pre') by lia.
  specialize (Hlong (eq_sym Hpre)). specialize (Hlong' Hpre).
  destruct H as [Heq _], H' as [Heq' _]. rewrite Heq in Heq'.
  destruct (append_inv_length _ _ _ _ Heq' Hpre) as [_ Htail].
  apply (append_inv_length _ _ _ _ Htail). lia.
Qed.

(** C8, as the code has it: for a title whose cleaned form (after the four
    removals, the whitespace collapse and the trim) has fewer than 10
    characters, cleanup looks for a capitalized fragment ending in [.], [!]
    or [?] in that cleaned form, not in the original title.  If the cleaned
    form holds such a fragment, the first one is returned (the one that
    starts leftmost, and the longest of those that start there); the cleaned
    form is kept only when it holds none.  One of the two is the case. *)
Theorem short_title_recovers_fragment_of_cleaned_form (title : string) :
  len (remove_artifacts title) < 10 ->
  (holds_fragment (remove_artifacts title) ->
   first_fragment (remove_artifacts title) (_clean_title title))
  /\ (~ holds_fragment (remove_artifacts title) ->
      _clean_title title = remove_artifacts title)
  /\ (holds_fragment (remove_artifacts title)
      \/ ~ holds_fragment (remove_artifacts title)).
Proof.
  intros Hshort.
  assert (Hrun : _clean_title title
                 = match Re.search FRAGMENT (remove_artifacts title) with
                   | Some g => g
                   | None => remove_artifacts title
                   end).
  { unfold _clean_title. destruct (is_empty title) eqn:E.
    - apply is_empty_true in E. subst. reflexivity.
    - cbv zeta. destruct (len (remove_artifacts title) <? 10) eqn:E'; [reflexivity|lia]. }
  rewrite Hrun.
  destruct (Re.search FRAGMENT (remove_artifacts title)) as [g|] eqn:Hsearch.
  - apply search_first_fragment in Hsearch.
    split; [intros _; exact Hsearch|].
    split; [|left; now apply (first_fragment_holds _ g)].
    intros Hno. exfalso. apply Hno. now apply (first_fragment_holds _ g).
  - apply search_no_fragment in Hsearch.
    split; [intros H; contradiction|]. split; [reflexivity | now right].
Qed.

Lemma is_fragment_Hi : is_fragment "Hi!".
Proof. exists "H"%char, "i", "!"%char. repeat split. Qed.

Lemma short_title_recovers_fragment_of_cleaned_form_witness :
  first_fragment "a Hi! b" (_clean_title "a Hi! b.x").
Proof.
  apply (proj1 (short_title_recovers_fragment_of_cleaned_form "a Hi! b.x"
                  ltac:(vm_compute; reflexivity))).
  exists "a ", "Hi!", " b". split; [reflexivity | exact is_fragment_Hi].
Defined.

(** C8 as stated fails where a removal takes away the end of the only
    fragment: the original title "Hi yo.css" holds the fragment "Hi yo.",
    its cleaned form "Hi yo" holds none, and cleanup returns the cleaned
    form, which is no fragment. *)
Lemma fragment_of_original_title_is_not_recovered :
  len (remove_artifacts "Hi yo.css") < 10
  /\ first_fragment "Hi yo.css" "Hi yo."
  /\ ~ holds_fragment (remove_artifacts "Hi yo.css")
  /\ _clean_title "Hi yo.css" = "Hi yo"
  /\ ~ is_fragment (_clean_title "Hi yo.css").
Proof.
  assert (Hnone : ~ holds_fragment (remove_artifacts "Hi yo.css"))
    by (apply search_no_fragment; reflexivity).
  split; [vm_compute; reflexivity|].
  split; [apply search_first_fragment; reflexivity|].
  split; [exact Hnone|]. split; [reflexivity|].
  intros Hfrag. apply Hnone.
  exists "", (_clean_title "Hi yo.css"), "". split; [reflexivity | exact Hfrag].
Qed.


(** *** Unknown identifiers *)

Lemma dict_mem_false_get {V : Type} (d : dict V) (k : string) :
  dict_mem d k = false -> dict_get d k = None.
Proof. unfold dict_mem. now destruct (dict_get d k). Qed.

(** C10: for a [source_id] that is not registered, [add_citation] raises
    [ValueError] and leaves the manager (its sources and its citations) as
    it was, whereas [format_citation] and [format_in_text_citation] return
    the string "[Source not found: <id>]". *)
Theorem unknown_source_id (self : Manager) (source_id : string)
  (quote page_number section : option string) (confidence : float)
  (style : CitationStyle) :
  dict_mem (sources self) source_id = false ->
  add_citation self source_id quote page_number section confidence
  = (Raise (ValueError ("Source " ++ source_id ++ " not found")), self)
  /\ format_citation self source_id style = "[Source not found: " ++ source_id ++ "]"
  /\ format_in_text_citation self source_id style
     = "[Source not found: " ++ source_id ++ "]".
Proof.
  intros H. apply dict_mem_false_get in H.
  unfold add_citation, format_citation, format_in_text_citation.
  rewrite H. repeat split.
Qed.

Lemma unknown_source_id_witness :
  add_citation jane_doe "missing-id" None None None 1%float
  = (Raise (ValueError "Source missing-id not found"), jane_doe)
  /\ format_citation jane_doe "missing-id" APA = "[Source not found: missing-id]"
  /\ format_in_text_citation jane_doe "missing-id" APA
     = "[Source not found: missing-id]".
Proof. apply unknown_source_id. reflexivity. Defined.

(** *** In-text citations *)

Definition author_or_title (source : SourceMetadata) : string :=
  if known_author source then author source else title source.

(** The year as the citation prints it. *)
Definition printed_year (source : SourceMetadata) : string :=
  fmt (_extract_year (publish_date source)).

(** The in-text forms, given what the Harvard style puts between the name
    and the year. *)
Definition in_text_rule (harvard_separator : string) (self : Manager)
  (source_id : string) (source : SourceMetadata) : Prop :=
  format_in_text_citation self source_id APA
  = "(" ++ author_or_title source ++ ", " ++ printed_year source ++ ")"
  /\ format_in_text_citation self source_id HARVARD
     = "(" ++ author_or_title source ++ harvard_separator
       ++ printed_year source ++ ")"
  /\ format_in_text_citation self source_id MLA
     = "(" ++ author_or_title source ++ ")"
  /\ format_in_text_citation self source_id CHICAGO = "(" ++ source_id ++ ")"
  /\ format_in_text_citation self source_id IEEE = "(" ++ source_id ++ ")".

(** C7, as the code has it: for a registered source, the in-text citation is
    "(author-or-title, year)" in the APA style, "(author-or-title year)",
    with a space and no comma, in the Harvard style, "(author-or-title)" in
    the MLA style, and "(id)" in the Chicago and IEEE styles. *)
Theorem in_text_citation_forms (self : Manager) (source_id : string)
  (source : SourceMetadata) :
  dict_get (sources self) source_id = Some source ->
  in_text_rule " " self source_id source.
Proof.
  intros H. unfold in_text_rule, format_in_text_citation, author_or_title,
    printed_year.
  rewrite H. destruct (known_author source); repeat split.
Qed.

Definition jane_doe_source : SourceMetadata :=
  {| url := "https://example.com/a";
     title := "Hello World Example";
     author := "Jane Doe";
     publish_date := Some "2023-05-01";
     domain := "example.com";
     access_date := "2024-01-01";
     content_type := "webpage" |}.

Lemma in_text_citation_forms_witness :
  in_text_rule " " jane_doe "example.com_hello_world_example" jane_doe_source.
Proof. apply in_text_citation_forms. reflexivity. Defined.

(** C7 as stated fails for the Harvard style, which puts no comma before the
    year. *)
Lemma harvard_in_text_has_no_comma :
  format_in_text_citation jane_doe "example.com_hello_world_example" HARVARD
  = "(Jane Doe 2023)"
  /\ ~ in_text_rule ", " jane_doe "example.com_hello_world_example"
         jane_doe_source.
Proof.
  split; [reflexivity|].
  intros (_ & H & _). vm_compute in H. discriminate H.
Qed.

(** *** Statistics *)

(** The number of occurrences of [x] in [l]. *)
Definition occurrences (x : string) (l : list string) : Z :=
  Z.of_nat (count_occ string_dec l x).

(** [d] counts the elements of [l]: its keys are the elements of [l] in the
    order of their first occurrence, each with its number of occurrences. *)
Definition counts_in_order (d : dict Z) (l : list string) : Prop :=
  keys d = first_seen l /\
  forall x, In x l -> dict_get d x = Some (occurrences x l).

(** [k] is the first key of [d] that has the greatest count: the counts
    before it are smaller, those after it are not greater. *)
Definition first_with_max_count (d : dict Z) (k : string) : Prop :=
  exists before n after,
    d = (before ++ (k, n) :: after)%list /\
    (forall e, In e before -> snd e < n) /\
    (forall e, In e after -> snd e <= n).

Definition get0 (d : dict Z) (x : string) : Z :=
  match dict_get d x with Some n => n | None => 0 end.

Lemma get0_count_up (d : dict Z) (k x : string) :
  get0 (count_up d k) x = get0 d x + (if string_dec k x then 1 else 0).
Proof.
  unfold get0, count_up. destruct (string_dec k x) as [->|Hne].
  - rewrite dict_get_set_same. reflexivity.
  - rewrite dict_get_set_other by exact Hne. lia.
Qed.

Lemma keys_count_up (d : dict Z) (k : string) :
  keys (count_up d k) = if seen (keys d) k then keys d else (keys d ++ [k])%list.
Proof.
  unfold count_up. rewrite seen_mem. destruct (dict_mem d k) eqn:E.
  - now apply keys_set_present.
  - now apply keys_set_absent.
Qed.

Lemma fold_count_up {A : Type} (key : A -> string) (l : list A) (acc : dict Z) :
  let d := fold_left (fun d x => count_up d (key x)) l acc in
  keys d = first_seen_from (keys acc) (map key l) /\
  forall x, get0 d x = get0 acc x + occurrences x (map key l).
Proof.
  revert acc. induction l as [|a l IH]; intros acc; simpl.
  - split; [reflexivity|]. intros x. unfold occurrences. simpl. lia.
  - destruct (IH (count_up acc (key a))) as [Hkeys Hget].
    split.
    + rewrite Hkeys, keys_count_up. reflexivity.
    + intros x. rewrite Hget, get0_count_up. unfold occurrences. simpl.
      destruct (string_dec (key a) x); lia.
Qed.

Lemma count_by_counts {A : Type} (key : A -> string) (l : list A) :
  counts_in_order (count_by key l) (map key l).
Proof.
  destruct (fold_count_up key l []) as [Hkeys Hget].
  fold (count_by key l) in Hkeys, Hget.
  split; [exact Hkeys|].
  intros x Hx.
  assert (Hin : In x (keys (count_by key l))).
  { rewrite Hkeys. apply first_seen_from_in. now right. }
  apply dict_mem_in_keys, dict_mem_get in Hin. destruct Hin as [n Hn].
  specialize (Hget x). unfold get0 in Hget. rewrite Hn in Hget. simpl in Hget.
  rewrite Hn. f_equal. lia.
Qed.

(** The scan keeps the first of the greatest counts. *)
Lemma max_scan_first (rest : list (string * Z)) :
  forall before best after,
    (forall e, In e before -> snd e < snd best) ->
    (forall e, In e after -> snd e <= snd best) ->
    exists before' after',
      (before ++ best :: after ++ rest)%list
      = (before' ++ max_scan best rest :: after')%list /\
      (forall e, In e before' -> snd e < snd (max_scan best rest)) /\
      (forall e, In e after' -> snd e <= snd (max_scan best rest)).
Proof.
  induction rest as [|x rest IH]; intros before best after Hb Ha; simpl.
  - exists before, after. rewrite app_nil_r. repeat split; assumption.
  - destruct (snd best <? snd x) eqn:E.
    + destruct (IH (before ++ best :: after)%list x [])
        as (b' & a' & Heq & Hb' & Ha').
      * intros e He. apply in_app_iff in He. destruct He as [He|[<-|He]].
        -- specialize (Hb e He). lia.
        -- lia.
        -- specialize (Ha e He). lia.
      * intros e [].
      * exists b', a'. split; [|split; assumption].
        rewrite <- Heq. rewrite <- app_assoc. reflexivity.
    + destruct (IH before best (after ++ [x])%list Hb)
        as (b' & a' & Heq & Hb' & Ha').
      * intros e He. apply in_app_iff in He. destruct He as [He|[<-|[]]].
        -- now apply Ha.
        -- lia.
      * exists b', a'. split; [|split; assumption].
        rewrite <- Heq. rewrite <- app_assoc. reflexivity.
Qed.

Lemma most_common_first_max (d : dict Z) :
  d <> [] -> exists k, most_common d = Some k /\ first_with_max_count d k.
Proof.
  destruct d as [|x rest]; [congruence|]. intros _.
  exists (fst (max_scan x rest)). split; [reflexivity|].
  destruct (max_scan_first rest [] x []) as (b & a & Heq & Hb & Ha);
    try (intros e []).
  exists b, (snd (max_scan x rest)), a.
  rewrite <- surjective_pairing. repeat split; assumption.
Qed.

Lemma count_by_nonempty {A : Type} (key : A -> string) (l : list A) :
  l <> [] -> count_by key l <> [].
Proof.
  destruct l as [|a l]; [congruence|]. intros _ Hnil.
  destruct (count_by_counts key (a :: l)) as [_ Hget].
  specialize (Hget (key a) (or_introl eq_refl)).
  rewrite Hnil in Hget. discriminate Hget.
Qed.

(** C9: when at least one source is registered, the statistics count the
    domains and the authors of the sources in the order in which they are
    first met, and report as [most_common_domain] and [most_common_author]
    the first entry, in that insertion order, that has the greatest count:
    ties go to the entry met first, whatever the alphabetical order. *)
Theorem most_common_is_first_maximum (self : Manager) :
  sources self <> [] ->
  let stats := get_source_statistics self in
  counts_in_order (domains stats) (map domain (values (sources self))) /\
  counts_in_order (authors stats) (map author (values (sources self))) /\
  exists d a,
    most_common_domain stats = Some d /\ first_with_max_count (domains stats) d /\
    most_common_author stats = Some a /\ first_with_max_count (authors stats) a.
Proof.
  intros Hne. cbv zeta. unfold get_source_statistics. cbn [domains authors
    most_common_domain most_common_author].
  assert (Hv : values (sources self) <> []).
  { unfold values. destruct (sources self); [congruence | discriminate]. }
  split; [apply count_by_counts|]. split; [apply count_by_counts|].
  destruct (most_common_first_max (count_by domain (values (sources self)))
              (count_by_nonempty _ _ Hv)) as (d & Hd & Hfd).
  destruct (most_common_first_max (count_by author (values (sources self)))
              (count_by_nonempty _ _ Hv)) as (a & Ha & Hfa).
  exists d, a. repeat split; assumption.
Qed.

(** Two sources of two domains: the tie goes to the one registered first,
    which is not the first in alphabetical order. *)
Definition two_domains : Manager :=
  snd (add_source env0
         (snd (add_source env0 __init__ "https://zebra.org/x" "Stripes"
                 "Unknown" None "webpage"))
         "https://aardvark.org/y" "Ants" "Unknown" None "webpage").

Lemma most_common_is_first_maximum_witness :
  most_common_domain (get_source_statistics two_domains) = Some "zebra.org"
  /\ first_with_max_count (domains (get_source_statistics two_domains)) "zebra.org".
Proof.
  destruct (most_common_is_first_maximum two_domains ltac:(vm_compute; discriminate))
    as (_ & _ & d & a & Hd & Hfd & _).
  assert (E : d = "zebra.org") by (vm_compute in Hd; congruence).
  rewrite <- E. split; assumption.
Defined.


End CitationProps.

(** ** The registry: lookups, invariants, reference lists *)

Module RegistryProps.

Import PyFacts DictFacts ReFacts CitationManager CitationProps.

Lemma dict_get_set {V : Type} (d : dict V) (k k' : string) (v : V) :
  dict_get (dict_set d k v) k' = if String.eqb k k' then Some v else dict_get d k'.
Proof.
  destruct (String.eqb_spec k k') as [<-|Hne].
  - apply dict_get_set_same.
  - now apply dict_get_set_other.
Qed.

Lemma dict_set_absent {V : Type} (d : dict V) (k : string) (v : V) :
  dict_mem d k = false -> dict_set d k v = (d ++ [(k, v)])%list.
Proof.
  unfold dict_mem. induction d as [|[k' v'] d IH]; simpl; [reflexivity|].
  destruct (String.eqb_spec k' k) as [->|Hne]; [discriminate|].
  intros H. now rewrite IH.
Qed.

Lemma dict_get_of_nodup {V : Type} (d : dict V) (k : string) (v : V) :
  NoDup (keys d) -> In (k, v) d -> dict_get d k = Some v.
Proof.
  unfold keys. induction d as [|[k' v'] d IH]; simpl; intros Hnd Hin; [contradiction|].
  inversion Hnd as [|? ? Hnotin Hnd']; subst.
  destruct Hin as [[= -> ->]|Hin].
  - now rewrite String.eqb_refl.
  - destruct (String.eqb_spec k' k) as [->|Hne]; [|now apply IH].
    exfalso. apply Hnotin. apply in_map_iff. now exists (k, v).
Qed.

(** The record that [add_source] stores. *)
Definition stored_source (env : Env) (url title author : string)
  (publish_date : option string) (netloc content_type : string) : SourceMetadata :=
  {| url := url;
     title := title;
     author := author;
     publish_date := publish_date;
     domain := netloc;
     access_date := today env;
     content_type := content_type |}.

Lemma new_SourceMetadata_today (env : Env) (url title author : string)
  (publish_date : option string) (netloc content_type : string) :
  new_SourceMetadata env url title author publish_date netloc (today env) content_type
  = stored_source env url title author publish_date netloc content_type.
Proof.
  unfold new_SourceMetadata, stored_source. now destruct (is_empty (today env)).
Qed.

(** What [add_source] does to the registry, in full. *)
Lemma add_source_appends (env : Env) (self : Manager)
  (url title author : string) (publish_date : option string)
  (content_type netloc : string) :
  urlparse_netloc env url = Ok netloc ->
  exists id,
    dict_mem (sources self) id = false /\
    add_source env self url title author publish_date content_type
    = (Ok id,
       {| sources :=
            (sources self
             ++ [(id, stored_source env url title author publish_date netloc
                        content_type)])%list;
          citations := citations self |}).
Proof.
  intros Hurl. unfold add_source, _generate_source_id. rewrite Hurl. cbn [bind].
  destruct (first_free_id_first_free (sources self) (base_id netloc title))
    as (k & _ & Hfree & _).
  exists (first_free_id (sources self) (base_id netloc title)).
  split; [exact Hfree|].
  rewrite new_SourceMetadata_today, dict_set_absent by exact Hfree. reflexivity.
Qed.

Lemma add_source_raises (env : Env) (self : Manager)
  (url title author : string) (publish_date : option string)
  (content_type : string) (e : exception) :
  urlparse_netloc env url = Raise e ->
  add_source env self url title author publish_date content_type = (Raise e, self).
Proof. intros Hurl. unfold add_source. now rewrite Hurl. Qed.

Lemma dict_get_app_absent {V : Type} (d : dict V) (k k' : string) (v : V) :
  dict_mem d k = false ->
  dict_get (d ++ [(k, v)])%list k'
  = if String.eqb k k' then Some v else dict_get d k'.
Proof.
  intros H. rewrite <- dict_set_absent by exact H. apply dict_get_set.
Qed.

(** X1: when [urlparse] accepts the url, [add_source] returns an identifier
    that was not registered before; looking it up afterwards gives the
    source just described (with the network location of the url as domain
    and today as access date), and every identifier registered before still
    maps to the source it mapped to: no call overwrites a source. *)
Theorem add_source_then_lookup (env : Env) (self : Manager)
  (url title author : string) (publish_date : option string)
  (content_type netloc : string) :
  urlparse_netloc env url = Ok netloc ->
  exists id self',
    add_source env self url title author publish_date content_type = (Ok id, self') /\
    dict_mem (sources self) id = false /\
    dict_get (sources self') id
    = Some (stored_source env url title author publish_date netloc content_type) /\
    (forall id', dict_mem (sources self) id' = true ->
       dict_get (sources self') id' = dict_get (sources self) id') /\
    List.length (sources self') = S (List.length (sources self)).
Proof.
  intros Hurl.
  destruct (add_source_appends env self url title author publish_date
              content_type netloc Hurl) as (id & Hfree & Hrun).
  eexists. eexists. split; [exact Hrun|]. split; [exact Hfree|].
  cbn [sources]. split; [|split].
  - rewrite dict_get_app_absent by exact Hfree. now rewrite String.eqb_refl.
  - intros id' Hmem. rewrite dict_get_app_absent by exact Hfree.
    destruct (String.eqb_spec id id') as [->|Hne]; [congruence | reflexivity].
  - rewrite length_app. simpl. lia.
Qed.

Lemma add_source_then_lookup_witness :
  dict_get (sources jane_doe) "example.com_hello_world_example"
  = Some jane_doe_source.
Proof.
  destruct (add_source_then_lookup env0 __init__ "https://example.com/a"
              "Hello World Example" "Jane Doe" (Some "2023-05-01") "webpage"
              "example.com" eq_refl)
    as (id & self' & Hrun & _ & Hget & _).
  assert (E : (Ok id, self')
              = (Ok "example.com_hello_world_example", jane_doe))
    by (rewrite <- Hrun; reflexivity).
  injection E as -> ->. exact Hget.
Defined.

(** What holds of every source and every citation of a manager. *)
Definition well_formed (env : Env) (self : Manager) : Prop :=
  (forall id source,
     dict_get (sources self) id = Some source ->
     urlparse_netloc env (url source) = Ok (domain source) /\
     access_date source = today env) /\
  (forall citation,
     In citation (citations self) ->
     exists id, dict_get (sources self) id = Some (source citation)).

(** X2: in every manager that calls to [add_source] and [add_citation]
    produce, the domain of each source is the network location of its url
    and its access date is the date of registration, and each citation
    holds a source that is registered. *)
Theorem reachable_well_formed (env : Env) (self : Manager) :
  reachable env self -> well_formed env self.
Proof.
  induction 1 as [|self url title author publish_date content_type _ [IHs IHc]
                  |self source_id quote page_number section confidence _ [IHs IHc]].
  - split; [intros id source H; discriminate H | intros citation []].
  - destruct (urlparse_netloc env url) as [netloc|e] eqn:Hurl.
    + destruct (add_source_appends env self url title author publish_date
                  content_type netloc Hurl) as (id & Hfree & Hrun).
      rewrite Hrun. unfold well_formed. cbn [snd sources citations]. split.
      * intros id' source Hget. rewrite dict_get_app_absent in Hget by exact Hfree.
        destruct (String.eqb id id'); [|now apply (IHs id')].
        injection Hget as <-. cbn [CitationManager.url domain access_date stored_source].
        now split.
      * intros citation Hin. destruct (IHc citation Hin) as [id' Hid'].
        exists id'. rewrite dict_get_app_absent by exact Hfree.
        destruct (String.eqb_spec id id') as [->|Hne]; [|exact Hid'].
        apply dict_mem_false_get in Hfree. congruence.
    + rewrite (add_source_raises _ _ _ _ _ _ _ _ Hurl). now split.
  - unfold add_citation.
    destruct (dict_get (sources self) source_id) as [src|] eqn:Hget;
      unfold well_formed; cbn [snd sources citations]; [|now split].
    split; [exact IHs|].
    intros citation Hin. unfold list_append in Hin. apply in_app_iff in Hin.
    destruct Hin as [Hin|[<-|[]]]; [now apply IHc|].
    now exists source_id.
Qed.

Lemma reachable_well_formed_witness : well_formed env0 jane_doe.
Proof. apply reachable_well_formed. apply reach_add_source, reach_init. Defined.

(** *** Years *)

(** The character before the end of [pre], [prev] being the one before
    [pre]. *)
Fixpoint last_char (prev : option ascii) (pre : string) : option ascii :=
  match pre with
  | "" => prev
  | String a pre' => last_char (Some a) pre'
  end.

(** What [search] returns is the text of a match, and the match starts
    where the text starts. *)
Lemma search_go_located (r : Re.regex) (s : string) :
  forall prev g,
    Re.search_go r prev s = Some g ->
    exists pre post prev1,
      s = pre ++ g ++ post /\
      matches r (last_char prev pre) (g ++ post) prev1 post.
Proof.
  induction s as [|a s IH]; intros prev g H; simpl in H.
  - destruct (Re.match_at r prev "") as [rest|] eqn:E; [|discriminate].
    injection H as <-.
    destruct (match_at_text _ _ _ _ E) as (prev1 & Heq & Hm).
    now exists "", rest, prev1.
  - destruct (Re.match_at r prev (String a s)) as [rest|] eqn:E.
    + injection H as <-.
      destruct (match_at_text _ _ _ _ E) as (prev1 & Heq & Hm).
      now exists "", rest, prev1.
    + apply IH in H. destruct H as (pre & post & prev1 & Heq & Hm).
      exists (String a pre), post, prev1. split; [|exact Hm].
      simpl. now rewrite <- Heq.
Qed.

(** Four characters: 19 or 20, then two digits. *)
Definition is_year (year : string) : Prop :=
  exists a b,
    (year = String "1" (String "9" (String a (String b "")))
     \/ year = String "2" (String "0" (String a (String b "")))) /\
    isdigit_ascii a = true /\ isdigit_ascii b = true.

Ltac invert_match :=
  match goal with
  | H : matches (Re.Seq _ _) _ _ _ _ |- _ => inversion H; subst; clear H
  | H : matches (Re.Alt _ _) _ _ _ _ |- _ => inversion H; subst; clear H
  | H : matches (Re.Class _) _ _ _ _ |- _ => inversion H; subst; clear H
  | H : matches Re.Empty _ _ _ _ |- _ => inversion H; subst; clear H
  | H : matches Re.Boundary _ _ _ _ |- _ => inversion H; subst; clear H
  end.

Lemma digit_is_word (a : ascii) : isdigit_ascii a = true -> isword a = true.
Proof. intros H. unfold isword. now rewrite H. Qed.

Lemma year_match_shape (year post : string) (prev0 prev1 : option ascii) :
  matches YEAR prev0 (year ++ post) prev1 post ->
  is_year year /\ Re.word_before prev0 = false /\ Re.word_after post = false.
Proof.
  unfold YEAR, Re.digit. cbn [Re.Lit]. unfold Re.Chr. intros H.
  repeat invert_match;
    repeat match goal with
           | E : Ascii.eqb _ _ = true |- _ => apply Ascii.eqb_eq in E; subst
           end.
  all: match goal with
       | E : ?y ++ ?p = String ?c1 (String ?c2 (String ?a (String ?b ?p))),
         Hb0 : Re.at_boundary ?pv (?y ++ ?p) = true,
         Hb1 : Re.at_boundary (Some ?b) ?p = true,
         Ha : isdigit_ascii ?a = true,
         Hb : isdigit_ascii ?b = true |- _ =>
           assert (Ey : y = String c1 (String c2 (String a (String b ""))))
             by (apply (append_inv_tail _ _ p); rewrite E; reflexivity);
           split; [exists a, b; split; [auto | now split]|];
           unfold Re.at_boundary in Hb0, Hb1;
           rewrite E in Hb0; cbn [Re.word_after] in Hb0;
           cbn [Re.word_before] in Hb1;
           rewrite (digit_is_word b Hb) in Hb1;
           split;
           [ destruct (Re.word_before pv); [discriminate Hb0 | reflexivity]
           | destruct (Re.word_after p); [discriminate Hb1 | reflexivity] ]
       end.
Qed.

(** X3: a year that [_extract_year] returns is made of four characters, 19
    or 20 followed by two digits; it occurs in the date string, where it is
    neither preceded nor followed by a letter, a digit or an underscore.
    Without a date string, or with an empty one, there is no year. *)
Theorem extract_year_shape (date_string : option string) (year : string) :
  _extract_year date_string = Some year ->
  is_year year /\
  exists date pre post,
    date_string = Some date /\ date <> "" /\
    date = pre ++ year ++ post /\
    Re.word_before (last_char None pre) = false /\
    Re.word_after post = false.
Proof.
  unfold _extract_year. destruct date_string as [date|]; [|discriminate].
  destruct (is_empty date) eqn:E; [discriminate|].
  intros H. unfold Re.search in H. apply search_go_located in H.
  destruct H as (pre & post & prev1 & Heq & Hm).
  apply year_match_shape in Hm. destruct Hm as (Hy & Hb & Ha).
  split; [exact Hy|]. exists date, pre, post.
  repeat split; try assumption. now apply is_empty_false.
Qed.

Lemma extract_year_shape_witness :
  _extract_year (Some "Published March 2021") = Some "2021" /\ is_year "2021".
Proof.
  split; [reflexivity|].
  exact (proj1 (extract_year_shape (Some "Published March 2021") "2021" eq_refl)).
Defined.

(** *** Reference lists *)

(** The citation of a source in a style. *)
Definition format_source (style : CitationStyle) (source : SourceMetadata) : string :=
  match style with
  | APA => _format_apa_citation source
  | MLA => _format_mla_citation source
  | CHICAGO => _format_chicago_citation source
  | HARVARD => _format_harvard_citation source
  | IEEE => _format_ieee_citation source
  end.

Lemma format_citation_found (self : Manager) (source_id : string)
  (source : SourceMetadata) (style : CitationStyle) :
  dict_get (sources self) source_id = Some source ->
  format_citation self source_id style = format_source style source.
Proof. intros H. unfold format_citation. rewrite H. now destruct style. Qed.

Lemma reference_list_of_nodup (self : Manager) (style : CitationStyle) :
  NoDup (keys (sources self)) ->
  generate_reference_list self style
  = map (format_source style) (values (sources self)).
Proof.
  intros Hnodup.
  unfold generate_reference_list, values. rewrite map_map.
  apply map_ext_in. intros [id source] Hin. cbn [fst snd].
  apply format_citation_found. now apply dict_get_of_nodup.
Qed.

(** X4: in every manager that calls to [add_source] and [add_citation]
    produce, the reference list holds the citation of each registered
    source, once, in the order of registration; it has as many entries as
    there are sources and none of them comes from a failed lookup. *)
Theorem reference_list_of_reachable (env : Env) (self : Manager)
  (style : CitationStyle) :
  reachable env self ->
  generate_reference_list self style
  = map (format_source style) (values (sources self))
  /\ List.length (generate_reference_list self style) = List.length (sources self).
Proof.
  intros Hreach. apply reachable_nodup in Hreach.
  rewrite (reference_list_of_nodup self style Hreach).
  split; [reflexivity|]. unfold values. now rewrite !length_map.
Qed.

Lemma reference_list_of_reachable_witness :
  generate_reference_list jane_doe APA
  = ["Jane Doe (2023) Hello World Example. Retrieved 2024-01-01 from https://example.com/a"].
Proof.
  rewrite (proj1 (reference_list_of_reachable env0 jane_doe APA
                    (reach_add_source _ _ _ _ _ _ _ (reach_init env0)))).
  reflexivity.
Defined.

(** The header of a bibliography. *)
Definition bibliography_header (style : CitationStyle) : string :=
  "References (" ++ upper (style_value style) ++ " Style):"
  ++ String ContentExtractor.LF (String ContentExtractor.LF "").

(** X5: the bibliography is "No sources cited." exactly when no source is
    registered.  Otherwise, in every manager that calls to [add_source] and
    [add_citation] produce, it is the header naming the style in capitals
    followed by one line for each source, in the order of registration, each
    made of its rank from 1, a period, a space, the citation of the source
    and a line feed. *)
Theorem bibliography_of_reachable (env : Env) (self : Manager)
  (style : CitationStyle) :
  (generate_bibliography self style = "No sources cited." <-> sources self = []) /\
  (reachable env self -> sources self <> [] ->
   generate_bibliography self style
   = bibliography_header style
     ++ numbered_lines 1 (map (format_source style) (values (sources self)))).
Proof.
  split.
  - unfold generate_bibliography, generate_reference_list.
    destruct (sources self) as [|item rest]; simpl.
    + split; reflexivity.
    + split; [|discriminate]. destruct style; discriminate.
  - intros Hreach Hne. unfold generate_bibliography.
    rewrite (reference_list_of_nodup self style (reachable_nodup env self Hreach)).
    destruct (sources self) as [|item rest]; [congruence | reflexivity].
Qed.

Lemma bibliography_of_reachable_witness :
  generate_bibliography jane_doe APA
  = bibliography_header APA
    ++ "1. Jane Doe (2023) Hello World Example. Retrieved 2024-01-01 from https://example.com/a"
    ++ String ContentExtractor.LF "".
Proof.
  destruct (bibliography_of_reachable env0 jane_doe APA) as [_ H].
  rewrite H; [reflexivity | apply reach_add_source, reach_init | discriminate].
Defined.

(** *** From extracted content to citations *)

(** The source that the module-level functions register for a content dict. *)
Definition content_source (env : Env) (url netloc : string)
  (content_data : ContentData) : SourceMetadata :=
  stored_source env url
    (get_or (cd_title content_data) "Unknown Title")
    (content_author content_data)
    (content_publish_date content_data)
    netloc "webpage".

(** X6: [format_citation_from_content] raises what [urlparse] raises on the
    url of the content (the empty string when the content has none), and
    otherwise returns the citation, in the style asked for, of the source
    the content describes, with "Unknown Title" and "Unknown" for a missing
    title and a missing author: the source it registers is the one it
    formats. *)
Theorem format_citation_from_content_formats (env : Env)
  (content_data : ContentData) (style : CitationStyle) :
  format_citation_from_content env content_data style
  = match urlparse_netloc env (get_or (cd_url content_data) "") with
    | Ok netloc =>
        Ok (format_source style
              (content_source env (get_or (cd_url content_data) "") netloc
                 content_data))
    | Raise e => Raise e
    end.
Proof.
  unfold format_citation_from_content.
  destruct (urlparse_netloc env (get_or (cd_url content_data) "")) as [netloc|e]
    eqn:Hurl.
  - destruct (add_source_appends env __init__ (get_or (cd_url content_data) "")
                (get_or (cd_title content_data) "Unknown Title")
                (content_author content_data) (content_publish_date content_data)
                "webpage" netloc Hurl) as (id & Hfree & Hrun).
    rewrite Hrun. f_equal. apply format_citation_found. cbn [sources].
    rewrite dict_get_app_absent by exact Hfree. now rewrite String.eqb_refl.
  - now rewrite (add_source_raises _ _ _ _ _ _ _ _ Hurl).
Qed.

(** The network location of a url that [urlparse] accepts. *)
Definition netloc_of (env : Env) (url : string) : string :=
  match urlparse_netloc env url with
  | Ok netloc => netloc
  | Raise _ => ""
  end.

Lemma add_sources_appends (env : Env) (items : list (string * ContentData)) :
  (forall url content_data,
     In (url, content_data) items ->
     exists netloc, urlparse_netloc env url = Ok netloc) ->
  forall manager,
    reachable env manager ->
    exists manager',
      add_sources env manager items = Ok manager' /\
      reachable env manager' /\
      values (sources manager')
      = (values (sources manager)
         ++ map (fun item =>
                   content_source env (fst item) (netloc_of env (fst item)) (snd item))
              items)%list.
Proof.
  induction items as [|[url content_data] rest IH]; intros Hok manager Hreach.
  - exists manager. cbn. rewrite app_nil_r. now repeat split.
  - destruct (Hok url content_data (or_introl eq_refl)) as [netloc Hurl].
    cbn [add_sources].
    pose proof (reach_add_source env manager url
                  (get_or (cd_title content_data) "Unknown Title")
                  (content_author content_data)
                  (content_publish_date content_data) "webpage" Hreach) as Hreach'.
    destruct (add_source_appends env manager url
                (get_or (cd_title content_data) "Unknown Title")
                (content_author content_data) (content_publish_date content_data)
                "webpage" netloc Hurl) as (id & Hfree & Hrun).
    rewrite Hrun in Hreach' |- *. cbn [snd] in Hreach'.
    destruct (IH (fun u c Hin => Hok u c (or_intror Hin)) _ Hreach')
      as (manager' & Hrest & Hreach'' & Hvalues).
    exists manager'. split; [exact Hrest|]. split; [exact Hreach''|].
    rewrite Hvalues. cbn [sources]. unfold values. rewrite map_app, <- app_assoc.
    cbn [map app fst snd]. unfold content_source at 2, netloc_of at 2.
    now rewrite Hurl.
Qed.

(** X7: when [urlparse] accepts the url of every entry,
    [generate_citations_for_sources] returns one citation for each entry of
    the extracted content, in the order of the entries: the citation of the
    source that the entry describes. *)
Theorem generate_citations_one_per_entry (env : Env)
  (extracted_content : dict ContentData) (style : CitationStyle) :
  (forall url content_data,
     In (url, content_data) extracted_content ->
     exists netloc, urlparse_netloc env url = Ok netloc) ->
  generate_citations_for_sources env extracted_content style
  = Ok (map (fun item =>
               format_source style
                 (content_source env (fst item) (netloc_of env (fst item)) (snd item)))
          extracted_content).
Proof.
  intros Hok. unfold generate_citations_for_sources.
  destruct (add_sources_appends env extracted_content Hok __init__ (reach_init env))
    as (manager & Hrun & Hreach & Hvalues).
  rewrite Hrun. cbn [bind]. f_equal.
  rewrite (reference_list_of_nodup manager style (reachable_nodup env manager Hreach)),
    Hvalues.
  cbn [sources __init__ values map app]. now rewrite map_map.
Qed.

Lemma generate_citations_one_per_entry_witness :
  generate_citations_for_sources env0
    [("https://example.com/a",
      {| cd_url := None;
         cd_title := Some "Hello World Example";
         cd_metadata :=
           Some {| cm_author := Some "Jane Doe";
                   cm_publish_date := Some "2023-05-01" |} |});
     ("https://example.com/b",
      {| cd_url := None; cd_title := None; cd_metadata := None |})]
    APA
  = Ok ["Jane Doe (2023) Hello World Example. Retrieved 2024-01-01 from https://example.com/a";
        "Unknown Title (n.d.) Retrieved from https://example.com/b"].
Proof.
  rewrite generate_citations_one_per_entry; [reflexivity|].
  intros url content_data [[= <- <-]|[[= <- <-]|[]]];
    now exists "example.com".
Defined.


(** *** How a citation begins and ends *)

Lemma startswith_append (p s : string) : startswith (p ++ s) p = true.
Proof.
  induction p as [|a p IH]; simpl; [now destruct s|].
  now rewrite Ascii.eqb_refl, IH.
Qed.

Lemma endswith_append (s p : string) : endswith (s ++ p) p = true.
Proof. unfold endswith. rewrite rev_string_append. apply startswith_append. Qed.

Lemma join_first (sep x : string) (l : list string) :
  exists rest, join sep (x :: l) = x ++ rest.
Proof.
  destruct l as [|y l].
  - exists "". simpl. now rewrite append_empty_r.
  - now exists (sep ++ join sep (y :: l)).
Qed.

Lemma join_last (sep x : string) (l : list string) :
  exists before, join sep (list_append l x) = before ++ x.
Proof.
  unfold list_append. induction l as [|y l (before & IH)].
  - now exists "".
  - destruct l as [|z l].
    + exists (y ++ sep). simpl. now rewrite append_assoc.
    + exists (y ++ sep ++ before).
      change (join sep ((y :: z :: l) ++ [x]))
        with (y ++ sep ++ join sep ((z :: l) ++ [x])).
      rewrite IH. now rewrite !append_assoc.
Qed.

Lemma join_ends_with (sep before p : string) (l : list string) :
  endswith (join sep (list_append l (before ++ p))) p = true.
Proof.
  destruct (join_last sep (before ++ p) l) as (b & ->).
  rewrite <- append_assoc. apply endswith_append.
Qed.

Lemma join_starts_with (sep x : string) (l : list string) :
  startswith (join sep (x :: l)) x = true.
Proof. destruct (join_first sep x l) as (rest & ->). apply startswith_append. Qed.

Lemma list_append_cons {A : Type} (x y : A) (l : list A) :
  list_append (x :: l) y = x :: list_append l y.
Proof. reflexivity. Qed.

(** X21: in the five styles, the citation of a source whose author is known
    begins with the author.  Whoever the author, the APA and IEEE citations
    end with the url of the source, the MLA and Chicago citations with the
    url and a period, and the Harvard citation with the access date between
    "(Accessed: " and ")". *)
Theorem citation_begins_and_ends (source : SourceMetadata) :
  (known_author source = true ->
   forall style, startswith (format_source style source) (author source) = true) /\
  endswith (format_source APA source) (url source) = true /\
  endswith (format_source IEEE source) (url source) = true /\
  endswith (format_source MLA source) (url source ++ ".") = true /\
  endswith (format_source CHICAGO source) (url source ++ ".") = true /\
  endswith (format_source HARVARD source)
    ("(Accessed: " ++ access_date source ++ ")") = true.
Proof.
  split; [|repeat split].
  - intros Hknown style.
    destruct style; cbn [format_source];
      unfold _format_apa_citation, _format_mla_citation, _format_chicago_citation,
        _format_harvard_citation, _format_ieee_citation;
      rewrite Hknown; cbv zeta;
      destruct (_extract_year (publish_date source));
      repeat rewrite list_append_cons; apply join_starts_with.
  - cbn [format_source]. unfold _format_apa_citation. cbv zeta.
    destruct (known_author source).
    + replace ("Retrieved " ++ access_date source ++ " from " ++ url source)
        with (("Retrieved " ++ access_date source ++ " from ") ++ url source)
        by (now rewrite !append_assoc).
      apply join_ends_with.
    + match goal with
      | |- endswith (join _ (list_append ?l _)) _ = _ =>
          apply (join_ends_with " " "Retrieved from " (url source) l)
      end.
  - cbn [format_source]. unfold _format_ieee_citation. cbv zeta.
    destruct (_extract_year (publish_date source));
      match goal with
      | |- endswith (join _ (list_append ?l _)) _ = _ =>
          apply (join_ends_with " " "[Online]. Available: " (url source) l)
      end.
  - cbn [format_source]. unfold _format_mla_citation. cbv zeta.
    destruct (_extract_year (publish_date source));
      match goal with
      | |- endswith (join _ (list_append ?l _)) _ = _ =>
          replace (access_date source ++ ", " ++ url source ++ ".")
            with ((access_date source ++ ", ") ++ url source ++ ".")
            by (now rewrite !append_assoc);
          apply (join_ends_with " " (access_date source ++ ", ")
                   (url source ++ ".") l)
      end.
  - cbn [format_source]. unfold _format_chicago_citation. cbv zeta.
    destruct (_extract_year (publish_date source));
      match goal with
      | |- endswith (join _ (list_append ?l _)) _ = _ =>
          replace ("Accessed " ++ access_date source ++ ". " ++ url source ++ ".")
            with (("Accessed " ++ access_date source ++ ". ") ++ url source ++ ".")
            by (now rewrite !append_assoc);
          apply (join_ends_with " " ("Accessed " ++ access_date source ++ ". ")
                   (url source ++ ".") l)
      end.
  - cbn [format_source]. unfold _format_harvard_citation. cbv zeta.
    match goal with
    | |- endswith (join _ (list_append ?l _)) _ = _ =>
        replace ("Available at: " ++ url source ++ " (Accessed: "
                 ++ access_date source ++ ")")
          with (("Available at: " ++ url source ++ " ")
                ++ "(Accessed: " ++ access_date source ++ ")")
          by (now rewrite !append_assoc);
        apply (join_ends_with " " ("Available at: " ++ url source ++ " ")
                 ("(Accessed: " ++ access_date source ++ ")") l)
    end.
Qed.

Lemma citation_begins_and_ends_witness :
  startswith (format_source MLA jane_doe_source) "Jane Doe" = true.
Proof.
  exact (proj1 (citation_begins_and_ends jane_doe_source) eq_refl MLA).
Defined.

(** *** What the statistics add up to *)

Definition sum_counts (d : dict Z) : Z := fold_right (fun e n => snd e + n) 0 d.

Lemma sum_counts_count_up (d : dict Z) (k : string) :
  sum_counts (count_up d k) = sum_counts d + 1.
Proof.
  unfold count_up. induction d as [|[k' v'] d IH]; simpl; [reflexivity|].
  destruct (String.eqb k' k); simpl; [lia|].
  rewrite IH. lia.
Qed.

Lemma sum_counts_count_by {A : Type} (key : A -> string) (l : list A) :
  sum_counts (count_by key l) = Z.of_nat (List.length l).
Proof.
  unfold count_by.
  assert (H : forall acc,
             sum_counts (fold_left (fun d x => count_up d (key x)) l acc)
             = sum_counts acc + Z.of_nat (List.length l)).
  { induction l as [|x l IH]; intros acc; simpl fold_left.
    - simpl. lia.
    - rewrite IH, sum_counts_count_up. simpl List.length. lia. }
  rewrite H. reflexivity.
Qed.

Lemma sum_counts_count_years (l : list SourceMetadata) :
  sum_counts (count_years l) <= Z.of_nat (List.length l).
Proof.
  unfold count_years.
  assert (H : forall acc,
             sum_counts
               (fold_left
                  (fun d source =>
                     match _extract_year (publish_date source) with
                     | Some year => if is_empty year then d else count_up d year
                     | None => d
                     end) l acc)
             <= sum_counts acc + Z.of_nat (List.length l)).
  { induction l as [|x l IH]; intros acc; simpl fold_left.
    - simpl. lia.
    - etransitivity; [apply IH|]. simpl List.length.
      destruct (_extract_year (publish_date x)) as [year|]; [|lia].
      destruct (is_empty year); [lia|]. rewrite sum_counts_count_up. lia. }
  specialize (H []). simpl in H. exact H.
Qed.

(** X22: in the statistics of a manager, [total_sources] and
    [total_citations] are the numbers of sources and of citations; the
    counts of the domains add up to the number of sources, and so do the
    counts of the authors, while the counts of the years add up to at most
    that number, a source without a year being counted under no year.  No
    domain and no author is reported as most common exactly when no source
    is registered. *)
Theorem statistics_add_up (self : Manager) :
  let stats := get_source_statistics self in
  total_sources stats = Z.of_nat (List.length (sources self)) /\
  total_citations stats = Z.of_nat (List.length (citations self)) /\
  sum_counts (domains stats) = total_sources stats /\
  sum_counts (authors stats) = total_sources stats /\
  sum_counts (years stats) <= total_sources stats /\
  (most_common_domain stats = None <-> sources self = []) /\
  (most_common_author stats = None <-> sources self = []).
Proof.
  cbv zeta. unfold get_source_statistics.
  cbn [total_sources total_citations domains authors years most_common_domain
         most_common_author].
  assert (Hlen : List.length (values (sources self)) = List.length (sources self))
    by (unfold values; apply length_map).
  split; [reflexivity|]. split; [reflexivity|].
  split; [rewrite sum_counts_count_by; now rewrite Hlen|].
  split; [rewrite sum_counts_count_by; now rewrite Hlen|].
  split; [rewrite <- Hlen; apply sum_counts_count_years|].
  assert (Hnone : forall key : SourceMetadata -> string,
             most_common (count_by key (values (sources self))) = None
             <-> sources self = []).
  { intros key. split.
    - intros H. destruct (sources self) as [|item rest] eqn:E; [reflexivity|].
      exfalso.
      assert (Hv : values (item :: rest) <> []) by discriminate.
      apply (count_by_nonempty key) in Hv.
      destruct (count_by key (values (item :: rest))); [congruence | discriminate H].
    - intros ->. reflexivity. }
  split; apply Hnone.
Qed.


End RegistryProps.

(** ** The extractor: outcomes of the cascade, summaries, batches *)

Module CoordinatorProps.

Import PyFacts DictFacts ContentExtractor ExtractorProps.

(** *** Which strategy a document comes from *)

Lemma with_content_nonempty (r : option Extracted) (x : Extracted) :
  with_content r = Some x -> r = Some x /\ x_content x <> "".
Proof.
  destruct r as [y|]; simpl; [|discriminate].
  destruct (is_empty (x_content y)) eqn:E; [discriminate|].
  intros [= <-]. split; [reflexivity | now apply is_empty_false].
Qed.

Lemma newspaper_method (w : World) (url : string) (r : Extracted) :
  _extract_with_newspaper w url = Some r ->
  extraction_method (x_metadata r) = "newspaper3k" /\ error (x_metadata r) = None.
Proof.
  unfold _extract_with_newspaper.
  destruct (newspaper_article w url); simpl; [|discriminate].
  destruct (urlparse_netloc w url); simpl; [|discriminate].
  intros [= <-]. now split.
Qed.

Lemma readability_method (w : World) (url : string) (r : Extracted) :
  _extract_with_readability w url = Some r ->
  extraction_method (x_metadata r) = "readability-lxml" /\ error (x_metadata r) = None.
Proof.
  unfold _extract_with_readability.
  destruct (session_get_readability w url) as [response|]; simpl; [|discriminate].
  destruct (readability_document w (response_text response)); simpl; [|discriminate].
  destruct (_extract_metadata_from_html w (response_text response) url); simpl;
    [|discriminate].
  intros [= <-]. now split.
Qed.

Lemma beautifulsoup_method (w : World) (url : string) (r : Extracted) :
  _extract_with_beautifulsoup w url = Ok r ->
  (extraction_method (x_metadata r) = "beautifulsoup" /\ error (x_metadata r) = None)
  \/ (extraction_method (x_metadata r) = "beautifulsoup_failed" /\
      error (x_metadata r) <> None /\
      x_content r = "" /\ x_title r = "Extraction Failed").
Proof.
  unfold _extract_with_beautifulsoup.
  destruct (session_get_beautifulsoup w url) as [response|]; simpl.
  - destruct (_extract_metadata_from_html w (response_text response) url); simpl.
    + intros [= <-]. left. now split.
    + destruct (urlparse_netloc w url); simpl; [|discriminate].
      intros [= <-]. right. repeat split. discriminate.
  - destruct (urlparse_netloc w url); simpl; [|discriminate].
    intros [= <-]. right. repeat split. discriminate.
Qed.

(** The strategy result that [extract_content] formats. *)
Inductive chosen (w : World) (url : string) (r : Extracted) : Prop :=
| chosen_newspaper :
    _extract_with_newspaper w url = Some r -> x_content r <> "" -> chosen w url r
| chosen_readability :
    with_content (_extract_with_newspaper w url) = None ->
    _extract_with_readability w url = Some r -> x_content r <> "" -> chosen w url r
| chosen_beautifulsoup :
    with_content (_extract_with_newspaper w url) = None ->
    with_content (_extract_with_readability w url) = None ->
    _extract_with_beautifulsoup w url = Ok r -> chosen w url r.

Lemma extract_content_chooses (w : World) (url netloc : string) (max_length : Z) :
  urlparse_netloc w url = Ok netloc ->
  exists r,
    chosen w url r /\
    extract_content w url max_length
    = Ok {| url := url;
            title := x_title r;
            summary := x_summary r;
            content := truncate_content (x_content r) max_length;
            metadata := x_metadata r;
            source_info :=
              {| link := url;
                 website := netloc;
                 extraction_timestamp := now_isoformat w |} |}.
Proof.
  intros Hurl. unfold extract_content.
  destruct (with_content (_extract_with_newspaper w url)) as [r|] eqn:E1.
  - apply with_content_nonempty in E1. destruct E1 as [E1 Hne].
    exists r. split; [now apply chosen_newspaper|].
    unfold _format_result. rewrite Hurl. reflexivity.
  - destruct (with_content (_extract_with_readability w url)) as [r|] eqn:E2.
    + apply with_content_nonempty in E2. destruct E2 as [E2 Hne].
      exists r. split; [now apply chosen_readability|].
      unfold _format_result. rewrite Hurl. reflexivity.
    + destruct (beautifulsoup_domain w url netloc Hurl) as (r & Hr & _).
      exists r. split; [now apply chosen_beautifulsoup|].
      rewrite Hr. cbn [bind]. unfold _format_result. rewrite Hurl. reflexivity.
Qed.

Lemma chosen_domain (w : World) (url netloc : string) (r : Extracted) :
  urlparse_netloc w url = Ok netloc -> chosen w url r ->
  domain (x_metadata r) = netloc.
Proof.
  intros Hurl [H _|_ H _|_ _ H].
  - now apply (newspaper_domain w url).
  - now apply (readability_domain w url).
  - destruct (beautifulsoup_domain w url netloc Hurl) as (r' & Hr & Hd). congruence.
Qed.

(** X8: [extract_content] raises exactly what [urlparse] raises on the url;
    no failure of the network or of a parser leaves it.  When [urlparse]
    accepts the url it returns a document whose [url] and
    [source_info.link] are the url given and whose [metadata.domain] and
    [source_info.website] are the network location of that url. *)
Theorem extract_content_outcome (w : World) (url : string) (max_length : Z) :
  match urlparse_netloc w url with
  | Ok netloc =>
      exists doc,
        extract_content w url max_length = Ok doc /\
        ContentExtractor.url doc = url /\
        link (source_info doc) = url /\
        website (source_info doc) = netloc /\
        domain (metadata doc) = netloc
  | Raise e => extract_content w url max_length = Raise e
  end.
Proof.
  destruct (urlparse_netloc w url) as [netloc|e] eqn:Hurl.
  - destruct (extract_content_chooses w url netloc max_length Hurl)
      as (r & Hchosen & Hrun).
    eexists. split; [exact Hrun|]. cbn. repeat split.
    now apply (chosen_domain w url).
  - now apply extract_content_raises.
Qed.

(** The four methods a returned document can carry. *)
Definition strategy_method (method : string) : Prop :=
  method = "newspaper3k" \/ method = "readability-lxml" \/
  method = "beautifulsoup" \/ method = "beautifulsoup_failed".

(** X9: with a budget that is not negative, a document that
    [extract_content] returns carries the method of one of the three
    strategies or "beautifulsoup_failed", never "failed": the failure
    document of the outer handler is not returned.  Its [metadata.error] is
    set exactly when the method is "beautifulsoup_failed", and then its
    content is empty.  (A negative budget beyond the range of binary64 is
    the one case in which the outer handler's document is returned: the
    product [max_length * 0.8] then raises [OverflowError] in
    [_format_result].) *)
Theorem extract_content_method (w : World) (url : string) (max_length : Z)
  (doc : Document) :
  0 <= max_length ->
  extract_content w url max_length = Ok doc ->
  strategy_method (extraction_method (metadata doc)) /\
  extraction_method (metadata doc) <> "failed" /\
  (error (metadata doc) <> None <->
   extraction_method (metadata doc) = "beautifulsoup_failed") /\
  (extraction_method (metadata doc) = "beautifulsoup_failed" -> content doc = "").
Proof.
  intros Hlen Hrun.
  destruct (urlparse_netloc w url) as [netloc|e] eqn:Hurl;
    [|rewrite (extract_content_raises _ _ _ _ Hurl) in Hrun; discriminate].
  destruct (extract_content_chooses w url netloc max_length Hurl)
    as (r & Hchosen & Hrun').
  rewrite Hrun' in Hrun. injection Hrun as <-. cbn [metadata content].
  unfold strategy_method.
  destruct Hchosen as [H _|_ H _|_ _ H].
  - apply newspaper_method in H. destruct H as [-> ->].
    repeat split; try tauto; try discriminate; intros; congruence.
  - apply readability_method in H. destruct H as [-> ->].
    repeat split; try tauto; try discriminate; intros; congruence.
  - apply beautifulsoup_method in H.
    destruct H as [[-> ->]|(-> & Herr & Hc & _)].
    + repeat split; try tauto; try discriminate; intros; congruence.
    + repeat split; try tauto; try discriminate.
      intros _. rewrite Hc. now apply truncate_empty.
Qed.

Lemma extract_content_method_witness :
  strategy_method "beautifulsoup_failed"
  /\ content (beautifulsoup_failure_document unreachable "https://example.com/a"
                "example.com" connection_refused) = "".
Proof.
  destruct (extract_content_method unreachable "https://example.com/a"
              DEFAULT_MAX_LENGTH _ ltac:(vm_compute; discriminate) eq_refl)
    as (Hmethod & _ & _ & Hempty).
  split; [exact Hmethod | exact (Hempty eq_refl)].
Defined.

(** *** Truncation keeps something *)

Lemma len_zero_empty (s : string) : len s = 0 -> s = "".
Proof. destruct s; [reflexivity|]. unfold len. simpl. lia. Qed.

Lemma truncate_keeps_content (content : string) (max_length : Z) :
  0 <= max_length -> truncate_content content max_length = "" -> content = "".
Proof.
  intros Hlen. unfold truncate_content.
  destruct (max_length <? len content) eqn:E; [|intros H; exact H].
  set (head := slice_to content max_length).
  unfold exceeds_80_percent.
  destruct (4 * max_length <? 5 * rfind head ".") eqn:E'.
  - intros H. exfalso.
    apply (f_equal len) in H. change (len "") with 0 in H.
    rewrite slice_to_nonneg in H by lia.
    unfold len in H. rewrite length_take in H.
    pose proof (rfind_lt_len "." head). unfold len in *. lia.
  - intros H. apply (f_equal len) in H. rewrite len_append in H.
    change (len "...") with 3 in H. change (len "") with 0 in H.
    pose proof (len_nonneg head). lia.
Qed.

(** X10: with a budget that is not negative, truncation returns the empty
    string only for the empty content. *)
Theorem truncate_content_empty_iff (content : string) (max_length : Z) :
  0 <= max_length ->
  (truncate_content content max_length = "" <-> content = "").
Proof.
  intros Hlen. split.
  - now apply truncate_keeps_content.
  - intros ->. now apply truncate_empty.
Qed.

Lemma truncate_content_empty_iff_witness :
  truncate_content "Hello world. Goodbye." 5 <> ""
  /\ truncate_content "Hello world. Goodbye." 0 <> "".
Proof.
  split; intros H.
  - apply (truncate_content_empty_iff "Hello world. Goodbye." 5) in H;
      [discriminate H | lia].
  - apply (truncate_content_empty_iff "Hello world. Goodbye." 0) in H;
      [discriminate H | lia].
Defined.

(** X11: with a budget that is not negative, a document whose content is
    empty comes from the BeautifulSoup strategy: the first two strategies
    are only kept with a content, and truncation does not empty it. *)
Theorem empty_content_is_from_beautifulsoup (w : World) (url : string)
  (max_length : Z) (doc : Document) :
  0 <= max_length ->
  extract_content w url max_length = Ok doc ->
  content doc = "" ->
  extraction_method (metadata doc) = "beautifulsoup"
  \/ extraction_method (metadata doc) = "beautifulsoup_failed".
Proof.
  intros Hlen Hrun Hempty.
  destruct (urlparse_netloc w url) as [netloc|e] eqn:Hurl;
    [|rewrite (extract_content_raises _ _ _ _ Hurl) in Hrun; discriminate].
  destruct (extract_content_chooses w url netloc max_length Hurl)
    as (r & Hchosen & Hrun').
  rewrite Hrun' in Hrun. injection Hrun as <-. cbn [metadata content] in *.
  apply truncate_keeps_content in Hempty; [|exact Hlen].
  destruct Hchosen as [_ Hne|_ _ Hne|_ _ H]; try contradiction.
  apply beautifulsoup_method in H. destruct H as [[-> _]|(-> & _)]; tauto.
Qed.

Lemma empty_content_is_from_beautifulsoup_witness :
  extraction_method
    (metadata (beautifulsoup_failure_document unreachable "https://example.com/a"
                 "example.com" connection_refused))
  = "beautifulsoup"
  \/ extraction_method
       (metadata (beautifulsoup_failure_document unreachable "https://example.com/a"
                    "example.com" connection_refused))
     = "beautifulsoup_failed".
Proof.
  apply (empty_content_is_from_beautifulsoup unreachable "https://example.com/a"
           DEFAULT_MAX_LENGTH).
  - vm_compute. discriminate.
  - reflexivity.
  - reflexivity.
Defined.

(** *** The length of a summary *)

Lemma accumulate_by_spec_total (l : list string) (total budget : Z) :
  accumulate_by_spec l total budget = []
  \/ total + total_len (accumulate_by_spec l total budget) < budget.
Proof.
  revert total. induction l as [|s l IH]; intros total; simpl; [now left|].
  destruct (total + len s <? budget) eqn:E; [|now left].
  right. simpl. destruct (IH (total + len s)) as [-> | H]; simpl; lia.
Qed.

Lemma accumulate_by_spec_nonblank (l : list string) (total budget : Z) :
  Forall (fun s => s <> "") l ->
  Forall (fun s => s <> "") (accumulate_by_spec l total budget).
Proof.
  revert total. induction l as [|s l IH]; intros total H; simpl; [constructor|].
  inversion H; subst.
  destruct (total + len s <? budget); constructor; auto.
Qed.

Lemma count_le_total_len (l : list string) :
  Forall (fun s => s <> "") l -> Z.of_nat (List.length l) <= total_len l.
Proof.
  induction 1 as [|s l Hs _ IH]; simpl; [lia|].
  assert (1 <= len s).
  { destruct s; [congruence|]. unfold len. simpl. lia. }
  lia.
Qed.

Lemma len_join (l : list string) :
  l <> [] ->
  len (join ". " l) = total_len l + 2 * (Z.of_nat (List.length l) - 1).
Proof.
  induction l as [|s l IH]; [congruence|]. intros _.
  destruct l as [|t l].
  - simpl. lia.
  - change (join ". " (s :: t :: l)) with (s ++ ". " ++ join ". " (t :: l)).
    rewrite !len_append, IH by discriminate.
    change (len ". ") with 2. cbn [total_len fold_right List.length].
    fold (total_len l). lia.
Qed.

Lemma with_period_shape (summary : string) :
  with_period summary = ""
  \/ (endswith (with_period summary) "." = true /\
      len (with_period summary) <= len summary + 1).
Proof.
  unfold with_period. destruct (is_empty summary); [now left|].
  right. destruct (endswith summary ".") eqn:E.
  - split; [exact E | lia].
  - split; [apply endswith_last|]. rewrite len_append. change (len ".") with 1. lia.
Qed.

(** X12: a summary is empty or ends with a period.  The budget bounds the
    characters of the sentences kept, not those that join them: a summary
    that is not empty has at most [3 * max_length - 4] characters, and with
    a budget of 1 or less every summary is empty. *)
Theorem summary_length (content : string) (max_length : Z) :
  (_generate_summary content max_length = ""
   \/ (endswith (_generate_summary content max_length) "." = true /\
       len (_generate_summary content max_length) <= 3 * max_length - 4))
  /\ (max_length <= 1 -> _generate_summary content max_length = "").
Proof.
  assert (Hmain : _generate_summary content max_length = ""
                  \/ (endswith (_generate_summary content max_length) "." = true /\
                      len (_generate_summary content max_length) <= 3 * max_length - 4)).
  { rewrite generate_summary_leading.
    pose proof (accumulate_by_spec_total (leading_sentences content) 0 max_length)
      as Htotal.
    pose proof (accumulate_by_spec_nonblank (leading_sentences content) 0 max_length
                  (take_while_all_nonblank _)) as Hnonblank.
    destruct (accumulate_by_spec (leading_sentences content) 0 max_length)
      as [|s k]; [now left|].
    destruct Htotal as [Hnil | Htotal]; [discriminate|].
    destruct (with_period_shape (join ". " (s :: k))) as [H | [Hend Hlen]];
      [now left|].
    right. split; [exact Hend|].
    rewrite len_join in Hlen by discriminate.
    apply count_le_total_len in Hnonblank. lia. }
  split; [exact Hmain|].
  intros Hsmall. destruct Hmain as [H | [_ Hlen]]; [exact H|].
  pose proof (len_nonneg (_generate_summary content max_length)). lia.
Qed.

Lemma summary_length_witness : _generate_summary "Hello. World." 1 = "".
Proof. exact (proj2 (summary_length "Hello. World." 1) ltac:(lia)). Defined.


(** The bound is reached. *)
Example summary_length_reached :
  _generate_summary "a. b. c" 4 = "a. b. c." /\ len "a. b. c." = 3 * 4 - 4.
Proof. split; reflexivity. Qed.

(** *** Selectors *)








(** *** The entries of a batch *)

Lemma length_first_seen_from (l acc : list string) :
  (List.length (first_seen_from acc l) <= List.length acc + List.length l)%nat.
Proof.
  unfold first_seen_from. revert acc.
  induction l as [|x l IH]; intros acc; simpl; [lia|].
  destruct (seen acc x).
  - specialize (IH acc). lia.
  - specialize (IH (acc ++ [x])%list). rewrite length_app in IH. simpl in IH. lia.
Qed.

Lemma dict_get_set_cases {V : Type} (d : dict V) (k k' : string) (v v' : V) :
  dict_get (dict_set d k v) k' = Some v' ->
  (k' = k /\ v' = v) \/ dict_get d k' = Some v'.
Proof.
  destruct (String.eqb_spec k k') as [<-|Hne].
  - rewrite dict_get_set_same. intros [= <-]. now left.
  - rewrite dict_get_set_other by exact Hne. now right.
Qed.

Lemma extract_loop_entries (world_at : nat -> World) (max_length_per_url : Z)
  (urls : list string) :
  forall i results results',
    (forall k doc, dict_get results k = Some doc -> ContentExtractor.url doc = k) ->
    extract_loop world_at i urls max_length_per_url results = Ok results' ->
    forall k doc, dict_get results' k = Some doc -> ContentExtractor.url doc = k.
Proof.
  induction urls as [|url rest IH]; intros i results results' Hinv Hrun; simpl in Hrun.
  - now injection Hrun as <-.
  - destruct (extract_content (world_at i) url max_length_per_url) as [doc0|e] eqn:E;
      [|discriminate].
    cbn [bind] in Hrun. apply (IH (S i) (dict_set results url doc0)); [|exact Hrun].
    intros k doc H.
    apply dict_get_set_cases in H. destruct H as [[-> ->]|H]; [|now apply Hinv].
    destruct (urlparse_netloc (world_at i) url) as [netloc|e] eqn:Hurl.
    + destruct (extract_content_chooses (world_at i) url netloc max_length_per_url
                  Hurl) as (r & _ & Hdoc).
      rewrite Hdoc in E. now injection E as <-.
    + rewrite (extract_content_raises _ _ _ _ Hurl) in E. discriminate E.
Qed.

(** X14: when [urlparse] accepts every url of a batch,
    [extract_multiple_urls] returns a mapping whose keys are the urls of
    the batch, each once, in the order in which they first occur, so that it
    has no more entries than the batch has urls; and each entry holds a
    document whose [url] is its key. *)
Theorem batch_entries (world_at : nat -> World) (max_length_per_url : Z)
  (urls : list string) :
  (forall i url, In url urls ->
     exists netloc, urlparse_netloc (world_at i) url = Ok netloc) ->
  exists results,
    extract_multiple_urls world_at urls max_length_per_url = Ok results /\
    keys results = first_seen urls /\
    NoDup (keys results) /\
    (List.length results <= List.length urls)%nat /\
    forall k doc, dict_get results k = Some doc -> ContentExtractor.url doc = k.
Proof.
  intros Hok.
  destruct (extract_multiple_urls_complete world_at max_length_per_url urls Hok)
    as (results & Hrun & Hkeys & _).
  exists results. split; [exact Hrun|]. split; [exact Hkeys|].
  split; [|split].
  - rewrite Hkeys. unfold first_seen, first_seen_from.
    assert (H : forall l acc, NoDup acc ->
              NoDup (fold_left
                       (fun acc x => if seen acc x then acc else (acc ++ [x])%list)
                       l acc)).
    { induction l as [|x l IH]; intros acc Hacc; simpl; [exact Hacc|].
      apply IH. destruct (seen acc x) eqn:E; [exact Hacc|].
      apply NoDup_app; [exact Hacc | repeat constructor; tauto |].
      intros y Hy [<-|[]]. apply seen_in in Hy. congruence. }
    apply H. constructor.
  - replace (List.length results) with (List.length (keys results))
      by (unfold keys; apply length_map).
    rewrite Hkeys. pose proof (length_first_seen_from urls []). simpl in *. exact H.
  - apply (extract_loop_entries world_at max_length_per_url urls O [] results);
      [intros k doc H; discriminate H | exact Hrun].
Qed.

Lemma batch_entries_witness :
  exists results,
    extract_multiple_urls (fun _ => unreachable)
      ["https://example.com/a"; "https://example.com/a"] DEFAULT_MAX_LENGTH_PER_URL
    = Ok results /\
    keys results = ["https://example.com/a"].
Proof.
  destruct (batch_entries (fun _ => unreachable) DEFAULT_MAX_LENGTH_PER_URL
              ["https://example.com/a"; "https://example.com/a"])
    as (results & Hrun & Hkeys & _).
  - intros i url [<-|[<-|[]]]; now exists "example.com".
  - exists results. split; [exact Hrun | exact Hkeys].
Defined.


End CoordinatorProps.

(** ** Text: what collapsing and splitting leave *)

Module TextProps.

Import PyFacts ReFacts ContentExtractor ExtractorProps.

(** *** A class repeated *)

Fixpoint drop_while (p : ascii -> bool) (s : string) : string :=
  match s with
  | String a s' => if p a then drop_while p s' else s
  | "" => ""
  end.

Lemma length_drop_while (p : ascii -> bool) (s : string) :
  (String.length (drop_while p s) <= String.length s)%nat.
Proof.
  induction s as [|a s IH]; simpl; [lia|]. destruct (p a); simpl; lia.
Qed.

Lemma lstrip_drop_while (s : string) : lstrip s = drop_while isspace s.
Proof. induction s as [|a s IH]; simpl; [reflexivity|]. now rewrite IH. Qed.

(** A starred class takes every character of the class it finds. *)
Lemma star_class_greedy (p : ascii -> bool) (prev : option ascii) (s : string) :
  Re.run (Re.Star (Re.Class p)) prev s (fun _ s' => Some s')
  = Some (drop_while p s).
Proof.
  cbn [Re.run].
  assert (H : (String.length s <= String.length s)%nat) by lia.
  revert H. generalize (String.length s) at 2 3 as fuel.
  intros fuel. revert prev s.
  induction fuel as [|fuel IH]; intros prev s Hlen.
  - destruct s; [reflexivity | simpl in Hlen; lia].
  - destruct s as [|b s]; [reflexivity|].
    cbn [drop_while]. destruct (p b) eqn:E.
    + replace (String.length s <? String.length (String b s))%nat with true
        by (symmetry; apply Nat.ltb_lt; simpl; lia).
      rewrite IH by (simpl in Hlen; lia). reflexivity.
    + reflexivity.
Qed.

Lemma plus_class_match (p : ascii -> bool) (prev : option ascii) (a : ascii)
  (s : string) :
  Re.match_at (Re.Plus (Re.Class p)) prev (String a s)
  = if p a then Some (drop_while p s) else None.
Proof.
  unfold Re.match_at, Re.Plus. cbn [Re.run].
  destruct (p a); [|reflexivity].
  apply (star_class_greedy p (Some a) s).
Qed.

Lemma plus_class_no_empty_match (p : ascii -> bool) (prev : option ascii) :
  Re.match_at (Re.Plus (Re.Class p)) prev "" = None.
Proof. reflexivity. Qed.

(** *** Collapsed whitespace *)

(** Every whitespace character is a space, and no two spaces follow each
    other; [after_space] tells that the character before was a space. *)
Fixpoint squeezed (after_space : bool) (s : string) : bool :=
  match s with
  | "" => true
  | String a s' =>
      if isspace a
      then Ascii.eqb a " " && negb after_space && squeezed true s'
      else squeezed false s'
  end.

Definition starts_with_space (s : string) : bool :=
  match s with
  | String a _ => isspace a
  | "" => false
  end.

Definition ends_with_space (s : string) : bool := starts_with_space (rev_string s).

(** Every whitespace character is a single space between two characters
    that are not whitespace. *)
Definition single_spaced (s : string) : bool :=
  squeezed false s && negb (starts_with_space s) && negb (ends_with_space s).

(** A run of whitespace replaced by one space; [in_run] tells that the run
    has begun. *)
Fixpoint collapse (in_run : bool) (s : string) : string :=
  match s with
  | "" => ""
  | String a s' =>
      if isspace a
      then if in_run then collapse true s' else String " " (collapse true s')
      else String a (collapse false s')
  end.

Definition leading_spaces (s : string) : nat :=
  String.length s - String.length (drop_while isspace s).

Lemma sub_spaces_collapse (s : string) :
  forall prev,
    Re.sub_go (Re.Plus Re.space) " " O prev s = collapse false s /\
    Re.sub_go (Re.Plus Re.space) " " (leading_spaces s) prev s = collapse true s.
Proof.
  unfold Re.space.
  induction s as [|a s IH]; intros prev.
  - split; reflexivity.
  - assert (Hzero : Re.sub_go (Re.Plus (Re.Class isspace)) " " 0 prev (String a s)
                    = collapse false (String a s)).
    { cbn [Re.sub_go collapse]. rewrite plus_class_match.
      destruct (isspace a) eqn:E.
      - pose proof (length_drop_while isspace s) as Hle.
        replace (String.length (String a s) - String.length (drop_while isspace s))%nat
          with (S (leading_spaces s)) by (unfold leading_spaces; cbn [String.length]; lia).
        now rewrite (proj2 (IH (Some a))).
      - now rewrite (proj1 (IH (Some a))). }
    split; [exact Hzero|].
    unfold leading_spaces. cbn [drop_while]. destruct (isspace a) eqn:E.
    + pose proof (length_drop_while isspace s) as Hle.
      replace (String.length (String a s) - String.length (drop_while isspace s))%nat
        with (S (leading_spaces s)) by (unfold leading_spaces; cbn [String.length]; lia).
      cbn [Re.sub_go collapse]. rewrite E. apply (proj2 (IH (Some a))).
    + rewrite Nat.sub_diag. rewrite Hzero. cbn [collapse]. now rewrite E.
Qed.

Lemma sub_spaces (s : string) :
  Re.sub (Re.Plus Re.space) " " s = collapse false s.
Proof. apply (proj1 (sub_spaces_collapse s None)). Qed.

Lemma squeezed_weaken (s : string) : squeezed true s = true -> squeezed false s = true.
Proof.
  destruct s as [|a s]; simpl; [reflexivity|].
  destruct (isspace a); [|auto].
  rewrite andb_false_r. discriminate.
Qed.

Lemma collapse_squeezed (s : string) :
  squeezed true (collapse true s) = true /\ squeezed false (collapse false s) = true.
Proof.
  induction s as [|a s [IHt IHf]]; simpl; [now split|].
  destruct (isspace a) eqn:E; simpl.
  - split; [exact IHt|]. change (isspace " ") with true. cbn. exact IHt.
  - rewrite E. now split.
Qed.

Lemma squeezed_append_l (x y : string) (b : bool) :
  squeezed b (x ++ y) = true -> squeezed b x = true.
Proof.
  revert b. induction x as [|a x IH]; intros b; simpl; [reflexivity|].
  destruct (isspace a).
  - intros H. apply andb_true_iff in H. destruct H as [H1 H2].
    rewrite H1. simpl. now apply IH.
  - apply IH.
Qed.

Lemma squeezed_append_r (x y : string) (b : bool) :
  squeezed b (x ++ y) = true -> squeezed false y = true.
Proof.
  revert b. induction x as [|a x IH]; intros b; simpl.
  - destruct b; [apply squeezed_weaken | auto].
  - destruct (isspace a).
    + intros H. apply andb_true_iff in H. destruct H as [_ H2]. now apply (IH true).
    + apply IH.
Qed.

Lemma squeezed_no_line_feed (s : string) (b : bool) :
  squeezed b s = true -> contains_char LF s = false.
Proof.
  revert b. induction s as [|a s IH]; intros b; simpl; [reflexivity|].
  destruct (Ascii.eqb_spec a LF) as [->|Hne]; simpl.
  - change (isspace LF) with true. cbn. discriminate.
  - destruct (isspace a).
    + intros H. apply andb_true_iff in H. destruct H as [_ H2]. now apply (IH true).
    + apply IH.
Qed.

(** The pattern [\n\s*\n] *)
Definition BLANK_LINES : Re.regex :=
  Re.Seq (Re.Chr LF) (Re.Seq (Re.Star Re.space) (Re.Chr LF)).

(** Without a line feed there is nothing for [\n\s*\n] to replace. *)
Lemma sub_blank_lines_identity (repl s : string) :
  forall prev,
    contains_char LF s = false -> Re.sub_go BLANK_LINES repl O prev s = s.
Proof.
  induction s as [|a s IH]; intros prev H; [reflexivity|].
  simpl in H. apply orb_false_iff in H. destruct H as [Ha Hs].
  cbn [Re.sub_go].
  assert (Hnone : Re.match_at BLANK_LINES prev (String a s) = None).
  { unfold Re.match_at, BLANK_LINES, Re.Chr. cbn [Re.run].
    rewrite Ascii.eqb_sym, Ha. reflexivity. }
  rewrite Hnone. now rewrite IH.
Qed.

(** *** Trimming *)

Lemma lstrip_split (s : string) :
  exists ws, s = ws ++ lstrip s /\ starts_with_space (lstrip s) = false.
Proof.
  induction s as [|a s (ws & Hs & Hl)]; simpl.
  - now exists "".
  - destruct (isspace a) eqn:E.
    + exists (String a ws). split; [simpl; now rewrite <- Hs | exact Hl].
    + exists "". split; [reflexivity | exact E].
Qed.

Lemma starts_with_space_append (x y : string) :
  x <> "" -> starts_with_space (x ++ y) = starts_with_space x.
Proof. destruct x; [congruence | reflexivity]. Qed.

(** [strip] keeps a middle part that neither starts nor ends with
    whitespace. *)
Lemma strip_split (s : string) :
  exists l r,
    s = l ++ strip s ++ r /\
    starts_with_space (strip s) = false /\
    ends_with_space (strip s) = false.
Proof.
  destruct (lstrip_split s) as (l & Hs & Hstart).
  destruct (lstrip_split (rev_string (lstrip s))) as (ws & Hrev & Hend).
  assert (Ht : lstrip s = strip s ++ rev_string ws).
  { unfold strip. rewrite <- rev_string_append, <- Hrev.
    now rewrite rev_string_involutive. }
  exists l, (rev_string ws). split; [now rewrite <- Ht|]. split.
  - destruct (strip s) as [|a m] eqn:E; [reflexivity|].
    rewrite Ht in Hstart. exact Hstart.
  - unfold ends_with_space, strip. now rewrite rev_string_involutive.
Qed.

Lemma strip_single_spaced (s : string) :
  squeezed false s = true -> single_spaced (strip s) = true.
Proof.
  intros H. destruct (strip_split s) as (l & r & Hs & Hstart & Hend).
  unfold single_spaced. rewrite Hstart, Hend.
  rewrite Hs in H. apply squeezed_append_r, squeezed_append_l in H.
  now rewrite H.
Qed.

(** X15: in the text that [_clean_text] returns, every whitespace character
    is a single space between two characters that are not whitespace: the
    text has no tab or line feed, no two spaces in a row, and no space at
    either end.  (So the replacement of blank lines, which comes after the
    collapse of whitespace, finds nothing to replace.) *)
Theorem clean_text_single_spaced (text : string) :
  single_spaced (_clean_text text) = true.
Proof.
  unfold _clean_text. cbv zeta.
  set (joined := join " " _).
  rewrite sub_spaces.
  pose proof (proj2 (collapse_squeezed joined)) as Hsq.
  fold BLANK_LINES. unfold Re.sub.
  rewrite sub_blank_lines_identity by (now apply (squeezed_no_line_feed _ false)).
  now apply strip_single_spaced.
Qed.

(** X16: the title that [_clean_title] returns has the same shape: no
    whitespace but single spaces, each between two characters that are not
    whitespace; this holds for the cleaned form and for the fragment taken
    from a short one alike. *)
Theorem clean_title_single_spaced (title : string) :
  single_spaced (CitationManager._clean_title title) = true.
Proof.
  unfold CitationManager._clean_title.
  destruct (is_empty title) eqn:E.
  - apply is_empty_true in E. now subst.
  - cbv zeta.
    assert (Hclean : single_spaced (CitationManager.remove_artifacts title) = true).
    { unfold CitationManager.remove_artifacts. cbv zeta. rewrite sub_spaces.
      apply strip_single_spaced. apply collapse_squeezed. }
    destruct (len (CitationManager.remove_artifacts title) <? 10); [|exact Hclean].
    destruct (Re.search CitationManager.FRAGMENT (CitationManager.remove_artifacts title))
      as [g|] eqn:Hsearch; [|exact Hclean].
    apply CitationProps.search_fragment in Hsearch.
    destruct Hsearch as ((a & mid & t & -> & Ha & Ht & _) & pre & post & Heq).
    unfold single_spaced in *.
    apply andb_true_iff in Hclean. destruct Hclean as [Hclean _].
    apply andb_true_iff in Hclean. destruct Hclean as [Hsq _].
    rewrite Heq in Hsq. apply squeezed_append_r, squeezed_append_l in Hsq.
    rewrite Hsq. cbn [starts_with_space andb].
    assert (Hna : isspace a = false).
    { revert Ha. unfold isupper_ascii, isspace, in_range, code.
      destruct a as [[] [] [] [] [] [] [] []]; vm_compute; congruence. }
    assert (Hnt : isspace t = false).
    { revert Ht. unfold Re.one_of. cbn [contains_char].
      intros H. repeat (apply orb_true_iff in H; destruct H as [H|H]);
        try discriminate; apply Ascii.eqb_eq in H; subst; reflexivity. }
    rewrite Hna. cbn [negb andb].
    unfold ends_with_space. cbn [rev_string]. rewrite rev_string_append.
    cbn [rev_string append starts_with_space]. now rewrite Hnt.
Qed.

(** *** Summaries hold no other terminator than the period *)

Definition not_in_class (p : ascii -> bool) (s : string) : bool :=
  UrlParse.all_chars (fun a => negb (p a)) s.

Lemma all_chars_append (q : ascii -> bool) (x y : string) :
  UrlParse.all_chars q (x ++ y) = UrlParse.all_chars q x && UrlParse.all_chars q y.
Proof. induction x as [|a x IH]; simpl; [reflexivity|]. now rewrite IH, andb_assoc. Qed.

Lemma all_chars_rev (q : ascii -> bool) (s : string) :
  UrlParse.all_chars q (rev_string s) = UrlParse.all_chars q s.
Proof.
  induction s as [|a s IH]; simpl; [reflexivity|].
  rewrite all_chars_append, IH. simpl. rewrite andb_true_r. apply andb_comm.
Qed.

Lemma all_chars_lstrip (q : ascii -> bool) (s : string) :
  UrlParse.all_chars q s = true -> UrlParse.all_chars q (lstrip s) = true.
Proof.
  induction s as [|a s IH]; simpl; [reflexivity|].
  intros H. destruct (isspace a); [|exact H].
  apply andb_true_iff in H. now apply IH.
Qed.

Lemma all_chars_strip (q : ascii -> bool) (s : string) :
  UrlParse.all_chars q s = true -> UrlParse.all_chars q (strip s) = true.
Proof.
  intros H. unfold strip. rewrite all_chars_rev. apply all_chars_lstrip.
  rewrite all_chars_rev. now apply all_chars_lstrip.
Qed.

(** The pieces of a split on a repeated class hold no character of the
    class. *)
Lemma split_go_pieces (p : ascii -> bool) (s : string) :
  forall skip prev cur,
    not_in_class p cur = true ->
    Forall (fun piece => not_in_class p piece = true)
      (Re.split_go (Re.Plus (Re.Class p)) skip prev cur s).
Proof.
  unfold not_in_class.
  induction s as [|a s IH]; intros skip prev cur Hcur; cbn [Re.split_go].
  - constructor; [|constructor]. now rewrite all_chars_rev.
  - destruct skip as [|k]; [|now apply IH].
    rewrite plus_class_match. destruct (p a) eqn:E.
    + pose proof (length_drop_while p s) as Hle.
      replace (String.length (String a s) - String.length (drop_while p s))%nat
        with (S (String.length s - String.length (drop_while p s)))
        by (cbn [String.length]; lia).
      constructor; [now rewrite all_chars_rev | now apply IH].
    + apply IH. simpl. now rewrite E.
Qed.

(** Neither [!] nor [?]. *)
Definition plain (a : ascii) : bool :=
  negb (Ascii.eqb a "!") && negb (Ascii.eqb a "?").

Lemma not_terminator_plain (s : string) :
  not_in_class (Re.one_of ".!?") s = true -> UrlParse.all_chars plain s = true.
Proof.
  unfold not_in_class, plain, Re.one_of.
  induction s as [|a s IH]; simpl; [reflexivity|].
  intros H. apply andb_true_iff in H. destruct H as [Ha Hs].
  rewrite (IH Hs), andb_true_r.
  rewrite orb_false_r in Ha. rewrite !negb_orb in Ha.
  apply andb_true_iff in Ha. destruct Ha as [_ Ha].
  rewrite (Ascii.eqb_sym a "!"), (Ascii.eqb_sym a "?"). exact Ha.
Qed.

Lemma all_chars_join (q : ascii -> bool) (sep : string) (l : list string) :
  UrlParse.all_chars q sep = true ->
  Forall (fun s => UrlParse.all_chars q s = true) l ->
  UrlParse.all_chars q (join sep l) = true.
Proof.
  intros Hsep. induction 1 as [|s l Hs Hl IH]; [reflexivity|].
  destruct l as [|t l]; [exact Hs|].
  change (join sep (s :: t :: l)) with (s ++ sep ++ join sep (t :: l)).
  now rewrite !all_chars_append, Hs, Hsep, IH.
Qed.

Lemma take_while_Forall {A : Type} (P : A -> Prop) (f : A -> bool) (l : list A) :
  Forall P l -> Forall P (take_while f l).
Proof.
  induction 1 as [|x l Hx Hl IH]; simpl; [constructor|].
  destruct (f x); constructor; assumption.
Qed.

Lemma accumulate_by_spec_Forall (P : string -> Prop) (l : list string)
  (total budget : Z) :
  Forall P l -> Forall P (accumulate_by_spec l total budget).
Proof.
  intros H. revert total. induction H as [|s l Hs Hl IH]; intros total; simpl;
    [constructor|].
  destruct (total + len s <? budget); constructor; auto.
Qed.

(** X17: a summary holds neither [!] nor [?]: the terminators of the
    content are all replaced by the periods that join and end its
    sentences. *)
Theorem summary_has_only_periods (content : string) (max_length : Z) :
  contains_char "!" (_generate_summary content max_length) = false /\
  contains_char "?" (_generate_summary content max_length) = false.
Proof.
  assert (H : UrlParse.all_chars plain (_generate_summary content max_length) = true).
  { rewrite generate_summary_leading.
    assert (Hjoin : UrlParse.all_chars plain
                      (join ". " (accumulate_by_spec (leading_sentences content) 0
                                    max_length)) = true).
    { apply all_chars_join; [reflexivity|].
      apply accumulate_by_spec_Forall. unfold leading_sentences, trimmed_pieces.
      apply take_while_Forall. apply Forall_map.
      pose proof (split_go_pieces (Re.one_of ".!?") content O None "" eq_refl) as Hp.
      unfold Re.split, SENTENCE_END.
      eapply Forall_impl; [|exact Hp].
      intros piece Hpiece. now apply all_chars_strip, not_terminator_plain. }
    unfold with_period.
    destruct (is_empty (join ". " _)); [reflexivity|].
    destruct (endswith (join ". " _) "."); [exact Hjoin|].
    now rewrite all_chars_append, Hjoin. }
  revert H. generalize (_generate_summary content max_length) as s.
  induction s as [|a s IH]; simpl; [now split|].
  unfold plain at 1. intros H.
  apply andb_true_iff in H. destruct H as [Ha Hs].
  apply andb_true_iff in Ha. destruct Ha as [H1 H2].
  apply negb_true_iff in H1, H2. rewrite H1, H2. now apply IH.
Qed.

End TextProps.

(** ** Scraping *)

Module ToolsProps.

Import PyFacts DictFacts ContentExtractor Tools.

(** *** The truncation at a sentence end *)

Lemma max3_cases (a b c : Z) : max3 a b c = a \/ max3 a b c = b \/ max3 a b c = c.
Proof. unfold max3. lia. Qed.

(** The three terminators and where each was last found. *)
Lemma last_sentence_end_found (truncated : string) :
  let last_sentence_end :=
    max3 (rfind truncated ".") (rfind truncated "!") (rfind truncated "?") in
  0 <= last_sentence_end ->
  exists pre t post,
    truncated = pre ++ String t post /\
    len pre = last_sentence_end /\
    Re.one_of ".!?" t = true.
Proof.
  cbv zeta. intros Hpos.
  destruct (max3_cases (rfind truncated ".") (rfind truncated "!") (rfind truncated "?"))
    as [E|[E|E]]; rewrite E in Hpos |- *.
  - destruct (rfind_split "." truncated) as [H|(_ & pre & post & Hs & Hl)]; [lia|].
    now exists pre, "."%char, post.
  - destruct (rfind_split "!" truncated) as [H|(_ & pre & post & Hs & Hl)]; [lia|].
    now exists pre, "!"%char, post.
  - destruct (rfind_split "?" truncated) as [H|(_ & pre & post & Hs & Hl)]; [lia|].
    now exists pre, "?"%char, post.
Qed.

(** X18: for a target that is positive, the truncation of
    [scrape_url_content_smart] leaves a text within the target unchanged.
    A longer text gives at most [target_length + 3] characters: when the
    last period, exclamation mark or question mark of its first
    [target_length] characters stands strictly beyond 80% of the target,
    the text is cut just after it and so ends with it; otherwise the first
    [target_length] characters are followed by an ellipsis. *)
Theorem smart_truncate_cuts_at_sentence_end (text : string) (target_length : Z) :
  0 < target_length ->
  let truncated := slice_to text target_length in
  let last_sentence_end :=
    max3 (rfind truncated ".") (rfind truncated "!") (rfind truncated "?") in
  (len text <= target_length -> smart_truncate text target_length = text) /\
  (target_length < len text ->
   len (smart_truncate text target_length) <= target_length + 3 /\
   (4 * target_length < 5 * last_sentence_end ->
    smart_truncate text target_length = slice_to text (last_sentence_end + 1) /\
    exists pre t,
      smart_truncate text target_length = pre ++ String t "" /\
      Re.one_of ".!?" t = true) /\
   (~ 4 * target_length < 5 * last_sentence_end ->
    smart_truncate text target_length = truncated ++ "...")).
Proof.
  intros Hpos. cbv zeta. unfold smart_truncate.
  set (truncated := slice_to text target_length).
  set (lse := max3 (rfind truncated ".") (rfind truncated "!") (rfind truncated "?")).
  split.
  - intros Hshort. destruct (target_length <? len text) eqn:E; [lia | reflexivity].
  - intros Hlong. destruct (target_length <? len text) eqn:E; [|lia].
    unfold exceeds_80_percent.
    pose proof (len_slice_to text target_length ltac:(lia)) as Hhead.
    fold truncated in Hhead.
    assert (Hlt : lse < len truncated).
    { unfold lse, max3.
      pose proof (rfind_lt_len "." truncated). pose proof (rfind_lt_len "!" truncated).
      pose proof (rfind_lt_len "?" truncated). lia. }
    destruct (4 * target_length <? 5 * lse) eqn:E'.
    + assert (Hcut : slice_to text (lse + 1) = slice_to truncated (lse + 1)).
      { unfold truncated. rewrite !slice_to_nonneg by lia. rewrite take_take.
        f_equal. lia. }
      split; [|split; [|intros Hn; lia]].
      * pose proof (len_slice_to text (lse + 1) ltac:(lia)). lia.
      * intros _. split; [reflexivity|].
        destruct (last_sentence_end_found truncated ltac:(fold lse; lia))
          as (pre & t & post & Hs & Hl & Ht).
        fold lse in Hl. exists pre, t. split; [|exact Ht].
        rewrite Hcut, slice_to_nonneg by lia.
        replace (Z.to_nat (lse + 1)) with (String.length (pre ++ String t "")).
        -- rewrite Hs.
           replace (pre ++ String t post) with ((pre ++ String t "") ++ post)
             by (rewrite append_assoc; reflexivity).
           apply take_append_exact.
        -- rewrite length_append. unfold len in Hl. simpl. lia.
    + split; [|split; [intros Hn; lia | intros _; reflexivity]].
      rewrite len_append. change (len "...") with 3. lia.
Qed.

Lemma smart_truncate_cuts_at_sentence_end_witness :
  smart_truncate "Hello there! How are you" 13 = "Hello there!".
Proof.
  destruct (smart_truncate_cuts_at_sentence_end "Hello there! How are you" 13
              ltac:(lia)) as [_ H].
  destruct (H ltac:(vm_compute; reflexivity)) as (_ & Hcut & _).
  destruct (Hcut ltac:(vm_compute; reflexivity)) as [Heq _].
  exact Heq.
Defined.

(** *** What a scrape returns *)


(** A page of one sentence. *)
Definition one_page : World :=
  {| requests_get :=
       fun _ => Ok {| response_text := ""; response_content := "" |};
     html_parser :=
       fun _ => {| select_one := fun _ => None;
                   soup_find := fun _ => None;
                   soup_get_text := "  Hello   there.  " |};
     decompose_all := fun _ soup => soup |}.


(** *** Batches and their budget *)

Lemma scrape_loop_keys (world_at : nat -> World) (per_url : Z) (urls : list string) :
  forall i scraped_content,
    keys (scrape_loop world_at i urls per_url scraped_content)
    = first_seen_from (keys scraped_content) urls.
Proof.
  induction urls as [|url rest IH]; intros i scraped_content; simpl; [reflexivity|].
  rewrite IH. unfold first_seen_from. simpl. rewrite seen_mem.
  destruct (dict_mem scraped_content url) eqn:E.
  - now rewrite keys_set_present.
  - now rewrite keys_set_absent.
Qed.

Lemma per_url_length_bounds (num_urls total : Z) :
  1 <= num_urls ->
  exists budget,
    per_url_length num_urls total = Ok budget /\
    budget <= 4000 /\
    (0 <= total -> 0 <= budget /\ num_urls * budget <= total).
Proof.
  intros Hn. unfold per_url_length, floordiv.
  destruct (num_urls =? 1) eqn:E1.
  - exists (Z.min total 4000). split; [reflexivity|]. lia.
  - destruct (num_urls =? 2) eqn:E2.
    + cbn. exists (Z.min (total / 2) 3000). split; [reflexivity|].
      split; [lia|]. intros Ht.
      pose proof (Z.mul_div_le total 2 ltac:(lia)).
      pose proof (Z.div_pos total 2 Ht ltac:(lia)). lia.
    + destruct (num_urls =? 3) eqn:E3.
      * cbn. exists (Z.min (total / 3) 2500). split; [reflexivity|].
        split; [lia|]. intros Ht.
        pose proof (Z.mul_div_le total 3 ltac:(lia)).
        pose proof (Z.div_pos total 3 Ht ltac:(lia)). lia.
      * destruct (num_urls =? 0) eqn:E0; [lia|]. cbn [bind].
        exists (Z.min (total / num_urls) 2000). split; [reflexivity|].
        split; [lia|]. intros Ht.
        pose proof (Z.mul_div_le total num_urls ltac:(lia)).
        pose proof (Z.div_pos total num_urls Ht ltac:(lia)).
        split; [lia|].
        assert (num_urls * Z.min (total / num_urls) 2000
                <= num_urls * (total / num_urls)) by (apply Z.mul_le_mono_nonneg_l; lia).
        lia.
Qed.

(** X20: [scrape_multiple_urls_adaptive] raises [ZeroDivisionError] on an
    empty list of urls.  On a list that is not empty it returns a mapping
    whose keys are the urls, each once, in the order in which they first
    occur, scraped with a budget for each url of at most 4000 characters;
    when the total target is not negative this budget is not negative
    either, and the budgets of all the urls together do not exceed the
    total target. *)
Theorem adaptive_budget (world_at : nat -> World) (urls : list string)
  (total_target_length : Z) :
  (urls = [] ->
   scrape_multiple_urls_adaptive world_at urls total_target_length
   = Raise ZeroDivisionError) /\
  (urls <> [] ->
   exists budget,
     scrape_multiple_urls_adaptive world_at urls total_target_length
     = Ok (scrape_loop world_at O urls budget []) /\
     keys (scrape_loop world_at O urls budget []) = first_seen urls /\
     budget <= 4000 /\
     (0 <= total_target_length ->
      0 <= budget /\ Z.of_nat (List.length urls) * budget <= total_target_length)).
Proof.
  split.
  - intros ->. reflexivity.
  - intros Hne. unfold scrape_multiple_urls_adaptive.
    destruct (per_url_length_bounds (Z.of_nat (List.length urls)) total_target_length)
      as (budget & Hbudget & Hcap & Hsum).
    { destruct urls; [congruence | simpl; lia]. }
    exists budget. rewrite Hbudget. cbn [bind].
    split; [reflexivity|]. split; [apply scrape_loop_keys|]. now split.
Qed.

Lemma adaptive_budget_witness :
  exists budget,
    scrape_multiple_urls_adaptive (fun _ => one_page)
      ["https://example.com/a"; "https://example.com/b"] 5000
    = Ok (scrape_loop (fun _ => one_page) O
            ["https://example.com/a"; "https://example.com/b"] budget []) /\
    2 * budget <= 5000.
Proof.
  destruct (adaptive_budget (fun _ => one_page)
              ["https://example.com/a"; "https://example.com/b"] 5000) as [_ H].
  destruct (H ltac:(discriminate)) as (budget & Hrun & _ & _ & Hsum).
  exists budget. split; [exact Hrun|].
  destruct (Hsum ltac:(lia)) as [_ Hle]. exact Hle.
Defined.

End ToolsProps.
